(** * task-agent: the conversational WorkflowEngine and its LLMService

    A shallow embedding of [electron/agent/LLMService.ts],
    [electron/agent/FileSystem.ts] and [electron/agent/WorkflowEngine.ts],
    and of the handlers of the [AgentManager].

    - JavaScript strings are [string]s; template literals are written out as
      concatenations ([+:+]).
    - An [async] method that may reject is a computation ending in a
      [Completion]: [Return v] or [Throw e]; [try { } catch] is [try_catch].
      What is thrown is an [Error] with its [message].
    - The mutable fields of the engine, the files of the project directory and
      the outside world (the model backend, the clock) are threaded
      explicitly.  A [TaskNode] object of the parsed tree is known by its
      path from the root, and an assignment to one of its fields rewrites the
      tree at that path.
    - A value read with [JSON.parse] is taken at the interface the code
      declares for it ([TaskNode], [TaskNode[]]).
    - The storage of the engine is reliable: a read fails only for a file
      that is not there, a write does not fail.  The directory and settings
      operations of the manager, around which the code has its own [catch],
      fail when the volume refuses them.  Output to the console is left out.
    - Built-ins whose full definition lives in the JavaScript runtime
      ([toLowerCase], [trim], [JSON.parse], [JSON.stringify], [path.join]) are
      the fields of the class [Runtime]; every theorem holds for every
      runtime.  A concrete runtime is given to evaluate the definitions on
      examples. *)

From Stdlib Require Import NArith Ascii String.
From stdpp Require Import base option list strings gmap.

Open Scope string_scope.
Open Scope list_scope.
Open Scope nat_scope.

(** ** Strings *)

Definition dq : string := String (ascii_of_nat 34) "".
Definition nl : string := String (ascii_of_nat 10) "".

(** [s.startsWith(p)] *)
Fixpoint startsWith (p s : string) : bool :=
  match p, s with
  | EmptyString, _ => true
  | String a p', String b s' => if decide (a = b) then startsWith p' s' else false
  | String _ _, EmptyString => false
  end.

(** [s.includes(p)] *)
Fixpoint includes (s p : string) : bool :=
  startsWith p s ||
  match s with
  | EmptyString => false
  | String _ s' => includes s' p
  end.

(** [s.replace(/p/g, r)] for a pattern [p] without metacharacters: every
    occurrence, left to right, non-overlapping.  [skip] counts the characters
    of an occurrence that are still to be consumed. *)
Fixpoint replace_from (p r : string) (skip : nat) (s : string) : string :=
  match s with
  | EmptyString => EmptyString
  | String c s' =>
      match skip with
      | S k => replace_from p r k s'
      | O =>
          if startsWith p s
          then r +:+ replace_from p r (String.length p - 1) s'
          else String c (replace_from p r 0 s')
      end
  end.

Definition replace_all (p r s : string) : string :=
  match p with
  | EmptyString => s
  | _ => replace_from p r 0 s
  end.

(** [parts.join(sep)] *)
Fixpoint join (sep : string) (parts : list string) : string :=
  match parts with
  | [] => ""
  | [x] => x
  | x :: rest => x +:+ sep +:+ join sep rest
  end.

(** Decimal rendering of a non-negative integer, [String(n)]. *)
Definition digit (n : nat) : string := String (ascii_of_nat (48 + n)) "".

Fixpoint decimal_upto (fuel n : nat) : string :=
  match fuel with
  | O => ""
  | S fuel' =>
      if decide (n < 10) then digit n
      else decimal_upto fuel' (n `div` 10) +:+ digit (n `mod` 10)
  end.

Definition decimal (n : nat) : string := decimal_upto (S n) n.

(** A non-empty string is truthy. *)
Definition truthy (s : string) : bool :=
  match s with EmptyString => false | _ => true end.

(** ** Completions: a value or a thrown [Error] *)

Record Error := mkError { message : string }.

Inductive Completion (A : Type) : Type :=
| Return (a : A)
| Throw (e : Error).
Arguments Return {A} a.
Arguments Throw {A} e.

Definition TypeError (what : string) : Error := mkError what.

(** ** Messages (\@langchain/core/messages) *)

Inductive MessageType :=
| human | ai | system | generic | developer | function_message | tool | remove_message.

Global Instance MessageType_eq_dec : EqDecision MessageType.
Proof. solve_decision. Defined.

Definition type_name (t : MessageType) : string :=
  match t with
  | human => "human" | ai => "ai" | system => "system" | generic => "generic"
  | developer => "developer" | function_message => "function" | tool => "tool"
  | remove_message => "remove"
  end.

Record BaseMessage := mkMessage { getType : MessageType; content : string }.

Definition HumanMessage (c : string) : BaseMessage := mkMessage human c.
Definition SystemMessage (c : string) : BaseMessage := mkMessage system c.
Definition AIMessage (c : string) : BaseMessage := mkMessage ai c.

(** ** The model backend *)

Inductive LLMProvider := openai | anthropic | google | ollama.

Global Instance LLMProvider_eq_dec : EqDecision LLMProvider.
Proof. solve_decision. Defined.

Definition provider_name (p : LLMProvider) : string :=
  match p with
  | openai => "openai" | anthropic => "anthropic" | google => "google" | ollama => "ollama"
  end.

(** The four chat-model objects built by [configure]. *)
Inductive BaseChatModel :=
| ChatOpenAI (openAIApiKey : option string) (modelName : string)
| ChatAnthropic (anthropicApiKey : option string) (model : string)
| ChatGoogleGenerativeAI (apiKey : option string) (model : string) (maxRetries : nat)
| ChatOllama (baseUrl : string) (model : string).

(** What one call of [model.stream(messages)] does: the chunks it yields, how
    the iteration ends, and after how many milliseconds the consuming promise
    settles ([None]: it never does). *)
Inductive StreamEnd := StreamDone | StreamError (e : Error).

Record StreamOutcome := mkOutcome {
  chunks : list string;
  ending : StreamEnd;
  settledAfter : option N
}.

(** The outside world of one engine: the backend answering [stream], and the
    clock and random source naming backups. *)
Class Backend (World : Type) := {
  stream : World → BaseChatModel → list BaseMessage → StreamOutcome * World;
  (** [Date.now()] *)
  now : World → nat * World;
  uuidv4 : World → string * World;
  (** the world after waiting for so many milliseconds *)
  sleep : N → World → World
}.

(** The constructors of the chat-model classes are library code.  Whether
    [new ChatOpenAI({...})] and the like return the object or throw (for a
    key that is missing, say) is theirs to decide: [rejects m] is the error
    thrown by the constructor call that would build [m], if it throws. *)
Class ChatModels := {
  rejects : BaseChatModel → option Error
}.

(** ** LLMService.ts *)

Module LLMService.

Record t := mk {
  model : option BaseChatModel;
  currentProvider : option LLMProvider
}.

(** [constructor()] *)
Definition new : t := mk None None.

(** The service after a [configure] whose constructor returned: the
    provider and the model are the new ones. *)
Definition configured (this : t) (provider : LLMProvider) (modelId : string)
    (apiKey : option string) : t :=
  let this := mk (model this) (Some provider) in
  match provider with
  | openai => mk (Some (ChatOpenAI apiKey modelId)) (currentProvider this)
  | anthropic => mk (Some (ChatAnthropic apiKey modelId)) (currentProvider this)
  | google => mk (Some (ChatGoogleGenerativeAI apiKey modelId 1)) (currentProvider this)
  | ollama => mk (Some (ChatOllama "http://localhost:11434" modelId)) (currentProvider this)
  end.

Section Configure.
Context `{!ChatModels}.

(** [new ChatX({...})]: the object, or the error of the constructor. *)
Definition construct (m : BaseChatModel) : Completion BaseChatModel :=
  match rejects m with
  | Some error => Throw error
  | None => Return m
  end.

(** [configure(provider, modelId, apiKey)]: the provider is assigned first,
    then the model is built and assigned; when the constructor throws, the
    provider is the new one and the model is the one before. *)
Definition configure (this : t) (provider : LLMProvider) (modelId : string)
    (apiKey : option string) : Completion unit * t :=
  let this := mk (model this) (Some provider) in
  let built :=
    match provider with
    | openai => construct (ChatOpenAI apiKey modelId)
    | anthropic => construct (ChatAnthropic apiKey modelId)
    | google => construct (ChatGoogleGenerativeAI apiKey modelId 1)
    | ollama => construct (ChatOllama "http://localhost:11434" modelId)
    end in
  match built with
  | Return m => (Return tt, mk (Some m) (currentProvider this))
  | Throw error => (Throw error, this)
  end.

End Configure.

Definition push {A} (arr : list A) (x : A) : list A := arr ++ [x].

Definition preprocessForGoogle (messages : list BaseMessage) : list BaseMessage :=
  let '(systemMessages, conversationMessages) :=
    fold_left
      (fun '(systemMessages, conversationMessages) msg =>
         if decide (getType msg = system)
         then (push systemMessages msg, conversationMessages)
         else (systemMessages, push conversationMessages msg))
      messages ([], []) in
  let combinedSystemContent := join (nl +:+ nl) (map content systemMessages) in
  let result : list BaseMessage := [] in
  let result :=
    if truthy combinedSystemContent
    then push result (SystemMessage combinedSystemContent)
    else result in
  fold_left
    (fun result msg =>
       let type := getType msg in
       if decide (type = human) then push result msg
       else if bool_decide (type = ai) || bool_decide (type = system)
            then push result (AIMessage (content msg))
            else push result msg)
    conversationMessages result.

Definition timeout_ms : N := 60000.

Definition timeoutError : Error := mkError "Request timed out after 60 seconds".

(** The promise built from the stream: chunks are accumulated into
    [fullContent]; an error raised by [stream] or by the iteration rejects it. *)
Definition streamPromise (o : StreamOutcome) : Completion string :=
  let fullContent := fold_left (fun fullContent chunkText => fullContent +:+ chunkText) (chunks o) "" in
  match ending o with
  | StreamDone => Return fullContent
  | StreamError e => Throw e
  end.

(** [Promise.race([streamPromise, timeoutPromise])]: the stream wins when it
    settles before the timer fires. *)
Definition race (o : StreamOutcome) : Completion string :=
  match settledAfter o with
  | Some t => if (t <? timeout_ms)%N then streamPromise o else Throw timeoutError
  | None => Throw timeoutError
  end.

Definition mock_reply (lastMsg : string) : string :=
  "[MOCK AI - No Provider Set] I heard: " +:+ dq +:+ lastMsg +:+ dq +:+ ". " +:+ nl +:+ nl +:+
  "Please configure a provider (OpenAI, Anthropic, Google, or Ollama) to continue.".

Definition shown_provider (p : option LLMProvider) : string :=
  match p with Some p => provider_name p | None => "null" end.

Definition error_reply (p : option LLMProvider) (error : Error) : string :=
  "Error connecting to " +:+ shown_provider p +:+ ": " +:+ message error.

Section Chat.
Context {World : Type} `{!Backend World}.

(** The messages handed to the backend. *)
Definition processedMessages (this : t) (messages : list BaseMessage) : list BaseMessage :=
  if decide (currentProvider this = Some google)
  then preprocessForGoogle messages
  else messages.

Definition chat (this : t) (messages : list BaseMessage) (w : World)
    : Completion string * World :=
  match model this with
  | None =>
      match last messages with
      | None => (Throw (TypeError "Cannot read properties of undefined (reading 'content')"), w)
      | Some lastMessage => (Return (mock_reply (content lastMessage)), w)
      end
  | Some m =>
      let '(o, w') := stream w m (processedMessages this messages) in
      match race o with
      | Return result => (Return result, w')
      | Throw error => (Return (error_reply (currentProvider this) error), w')
      end
  end.

End Chat.

End LLMService.

(** ** Task trees (tasks.json) *)

Inductive TaskStatus := pending | in_progress | completed | blocked.
Inductive TaskType := project | main_task | sub_task | todo | step.

Global Instance TaskStatus_eq_dec : EqDecision TaskStatus.
Proof. solve_decision. Defined.
Global Instance TaskType_eq_dec : EqDecision TaskType.
Proof. solve_decision. Defined.

(** [interface TaskNode]; an optional field that is absent is [None]. *)
#[local] Set Warnings "-register-all".
Inductive TaskNode := mkTaskNode {
  id : string;
  title : string;
  status : TaskStatus;
  type : TaskType;
  children : option (list TaskNode);
  decomposed : option bool
}.

(** A TaskNode object of a parsed tree is known by its place in the tree: the
    indices of the children to follow from the root.  [JSON.parse] builds a
    tree without sharing, so a reference to a node is such a path, and an
    assignment through the reference rewrites the tree at that path. *)
Definition Ref := list nat.

Fixpoint deref (root : TaskNode) (r : Ref) {struct r} : option TaskNode :=
  match r with
  | [] => Some root
  | i :: r' =>
      match children root with
      | Some cs => match cs !! i with Some c => deref c r' | None => None end
      | None => None
      end
  end.

(** [assign f root r]: the tree in which the node at [r] is replaced by its
    image under [f]; nothing changes when [r] leads nowhere. *)
Fixpoint assign (f : TaskNode → TaskNode) (root : TaskNode) (r : Ref) {struct r}
    : TaskNode :=
  match r with
  | [] => f root
  | i :: r' =>
      match children root with
      | Some cs =>
          mkTaskNode (id root) (title root) (status root) (type root)
            (Some (alter (fun c => assign f c r') i cs)) (decomposed root)
      | None => root
      end
  end.

(** [task.children = subTasks; task.decomposed = true] *)
Definition attach (subTasks : list TaskNode) (task : TaskNode) : TaskNode :=
  mkTaskNode (id task) (title task) (status task) (type task) (Some subTasks) (Some true).

(** [!node.decomposed] *)
Definition not_decomposed (node : TaskNode) : bool :=
  match decomposed node with
  | Some true => false
  | Some false | None => true
  end.

(** [!node.children || node.children.length === 0] *)
Definition no_children (node : TaskNode) : bool :=
  match children node with
  | None => true
  | Some cs => bool_decide (length cs = 0)
  end.

(** ** The JavaScript runtime *)

Class Runtime := {
  toLowerCase : string → string;
  trim : string → string;
  (** [JSON.parse(text)] where the result is used as a [TaskNode]; a
      [SyntaxError] is [Throw]. *)
  JSON_parse_node : string → Completion TaskNode;
  (** [JSON.parse(text)] where the result is used as a [TaskNode[]]. *)
  JSON_parse_nodes : string → Completion (list TaskNode);
  (** [JSON.stringify(node, null, 2)] *)
  JSON_stringify : TaskNode → string;
  path_join : list string → string;
  path_basename : string → string
}.

(** A project directory: the files by full path.  The storage is taken to
    be reliable: reading fails only for a file that is not there. *)
Abbreviation Disk := (gmap string string).

(** ** FileSystem.ts *)

Module AgentFileSystem.

Record t := mk { projectRoot : string; backupDir : string }.

Section Files.
Context {World : Type} `{!Backend World} `{!Runtime}.

Definition new (projectRoot : string) : t :=
  mk projectRoot (path_join [projectRoot; ".agent_workspace"; "backups"]).

Definition writeSafe (this : t) (relativePath content : string) (d : Disk) (w : World)
    : Completion string * Disk * World :=
  let fullPath := path_join [projectRoot this; relativePath] in
  let '(d, w) :=
    match d !! fullPath with
    | Some original =>
        let fileName := path_basename relativePath in
        let '(timestamp, w) := now w in
        let '(uuid, w) := uuidv4 w in
        let backupName := decimal timestamp +:+ "_" +:+ uuid +:+ "_" +:+ fileName in
        (<[path_join [backupDir this; backupName] := original]> d, w)
    | None => (d, w)
    end in
  (Return fullPath, <[fullPath := content]> d, w).

Definition readFile (this : t) (relativePath : string) (d : Disk) : Completion string :=
  let fullPath := path_join [projectRoot this; relativePath] in
  match d !! fullPath with
  | Some text => Return text
  | None => Throw (mkError ("ENOENT: no such file or directory, open '" +:+ fullPath +:+ "'"))
  end.

End Files.

End AgentFileSystem.

(** ** WorkflowEngine.ts *)

Inductive WorkflowStep :=
| INITIATION | TASK_GENERATION | DECOMPOSITION | ANALYSIS
| COORDINATION | PLANNING | EXECUTION | COMPLETED.

Global Instance WorkflowStep_eq_dec : EqDecision WorkflowStep.
Proof. solve_decision. Defined.

(** The numeric value of the enum member. *)
Definition step_number (s : WorkflowStep) : nat :=
  match s with
  | INITIATION => 1 | TASK_GENERATION => 2 | DECOMPOSITION => 3 | ANALYSIS => 4
  | COORDINATION => 5 | PLANNING => 6 | EXECUTION => 7 | COMPLETED => 8
  end.

Record ProjectContext := mkContext {
  name : string;
  description : string;
  requirements : list string;
  chatHistory : list BaseMessage
}.

(** In the template literals below a backquote stands for a double quote. *)
Fixpoint tpl (s : string) : string :=
  match s with
  | EmptyString => EmptyString
  | String c s' => String (if decide (c = ascii_of_nat 96) then ascii_of_nat 34 else c) (tpl s')
  end.

Module WorkflowEngine.

Record t := mk {
  llm : LLMService.t;
  fs : AgentFileSystem.t;
  currentStep : WorkflowStep;
  context : ProjectContext;
  isDecomposing : bool
}.

Definition set_currentStep (s : WorkflowStep) (this : t) : t :=
  mk (llm this) (fs this) s (context this) (isDecomposing this).
Definition set_isDecomposing (b : bool) (this : t) : t :=
  mk (llm this) (fs this) (currentStep this) (context this) b.
Definition set_llm (l : LLMService.t) (this : t) : t :=
  mk l (fs this) (currentStep this) (context this) (isDecomposing this).
Definition push_chatHistory (m : BaseMessage) (this : t) : t :=
  let c := context this in
  mk (llm this) (fs this) (currentStep this)
    (mkContext (name c) (description c) (requirements c) (chatHistory c ++ [m]))
    (isDecomposing this).

(** [constructor(fileSystem)] *)
Definition new (fileSystem : AgentFileSystem.t) : t :=
  mk LLMService.new fileSystem INITIATION (mkContext "Untitled Project" "" [] []) false.

Section Engine.
Context {World : Type} `{!Backend World} `{!Runtime}.

(** Everything a method of the engine can read and change. *)
Record State := mkState { engine : t; disk : Disk; world : World }.

(** A method body: it ends in a value or in a thrown error, and what it did to
    the state before stays done in both cases. *)
Definition M (A : Type) : Type := State → Completion A * State.

Definition ret {A} (a : A) : M A := fun s => (Return a, s).
Definition throw {A} (e : Error) : M A := fun s => (Throw e, s).
Definition bind {A B} (m : M A) (k : A → M B) : M B :=
  fun s => match m s with
           | (Return a, s') => k a s'
           | (Throw e, s') => (Throw e, s')
           end.
Definition try_catch {A} (body : M A) (handler : Error → M A) : M A :=
  fun s => match body s with
           | (Return a, s') => (Return a, s')
           | (Throw e, s') => handler e s'
           end.

Local Notation "'let*' x ':=' m 'in' k" := (bind m (fun x => k))
  (at level 10, x name, m at level 100, k at level 200).
Local Notation "'let*' ' p ':=' m 'in' k" := (bind m (fun p => k))
  (at level 10, p pattern, m at level 100, k at level 200).
Local Notation "m ';;' k" := (bind m (fun _ => k))
  (at level 100, k at level 200, right associativity).

Definition get {A} (field : t → A) : M A := fun s => (Return (field (engine s)), s).
Definition update (f : t → t) : M unit :=
  fun s => (Return tt, mkState (f (engine s)) (disk s) (world s)).

(** [await this.llm.chat(messages)] *)
Definition llm_chat (messages : list BaseMessage) : M string :=
  fun s =>
    let '(r, w) := LLMService.chat (llm (engine s)) messages (world s) in
    (r, mkState (engine s) (disk s) w).

(** [await this.fs.readFile(relativePath)] *)
Definition fs_readFile (relativePath : string) : M string :=
  fun s => (AgentFileSystem.readFile (fs (engine s)) relativePath (disk s), s).

(** [await this.fs.writeSafe(relativePath, content)] *)
Definition fs_writeSafe (relativePath content : string) : M string :=
  fun s =>
    let '(r, d, w) := AgentFileSystem.writeSafe (fs (engine s)) relativePath content (disk s) (world s) in
    (r, mkState (engine s) d w).

(** [await this.sleep(ms)] *)
Definition do_sleep (ms : N) : M unit :=
  fun s => (Return tt, mkState (engine s) (disk s) (sleep ms (world s))).

(** [JSON.parse] inside a method. *)
Definition lift {A} (c : Completion A) : M A := fun s => (c, s).

(** [this.context.chatHistory[this.context.chatHistory.length - 1].content.toString().toLowerCase()] *)
Definition lastUserMsg : M string :=
  let* history := get (fun this => chatHistory (context this)) in
  match last history with
  | Some m => ret (toLowerCase (content m))
  | None => throw (TypeError "Cannot read properties of undefined (reading 'content')")
  end.

(** [response.replace(/```json/g, '').replace(/```/g, '').trim()] *)
Definition cleanJson (response : string) : string :=
  trim (replace_all "```" "" (replace_all "```json" "" response)).

(** [array.slice(-n)] *)
Definition slice_last {A} (n : nat) (l : list A) : list A := drop (length l - n) l.

Definition or_default (s fallback : string) : string := if truthy s then s else fallback.

Definition initiationPrompt (c : ProjectContext) : string :=
"You are an **Agentic Project Manager AI** guiding the user through a multi-step autonomous project planning process.

## The 7-Step Process (You Are on Step 1)
1. **Initiation** (CURRENT) - Interview the user about their project.
2. **Task Generation** - Convert requirements into high-level tasks.
3. **Decomposition** - Break tasks into actionable sub-tasks.
4. **Analysis** - Evaluate dependencies and complexity.
5. **Coordination** - Plan parallel execution opportunities.
6. **Planning** - Generate implementation steps for each task.
7. **Execution** - (Future) The agent autonomously writes code.

## Your Role (Step 1: Initiation)
- Ask clarifying questions about the user's **project idea**.
- Focus on:
  - What is the goal of the project?
  - What technologies or platforms are involved (if any)?
  - What are the core features or components?
- **DO NOT** ask about implementation details, formatting, file structures, or code specifics. Those will be addressed automatically in later steps.

## Current Knowledge
- Project Name: " +:+
name c +:+
"
- Description: " +:+
or_default (description c) "Not yet defined" +:+
tpl "

## Instructions
- Use **Markdown formatting** (**bold**, lists) for readability.
- Keep responses concise (2-4 sentences max per point).
- When you have enough information (project goal, scope, and key features), **summarize** and ask:
  > `I have a good understanding. Ready to proceed to **Step 2: Task Generation**?`
- When the user confirms (e.g., `yes`, `proceed`), end the conversation.".

Definition generationPrompt (history : list BaseMessage) : string :=
"Based on our conversation, generate a JSON structure for the project tasks.
        
        Project Context:
        " +:+
join nl (map (fun m => type_name (getType m) +:+ ": " +:+ content m) history) +:+
tpl "

        
        Output MUST be a valid JSON object matching this interface:
        {
            `id`: `root`,
            `title`: `Project Name`,
            `type`: `project`,
            `status`: `pending`,
            `children`: [
                { `id`: `1`, `title`: `Main Task 1`, `type`: `main-task`, `status`: `pending`, `children`: [] }
            ]
        }
        
        Create high-level `main-task` items, which are purely large scale and broad in scope, meant to act more like categories or sections of tasks and task types. Do not go deeper than main-task levels yet.
        Return ONLY valid JSON. No markdown formatting.".

Definition generationReply (projectNode : TaskNode) : string :=
"**Step 2 Complete!** I've generated the initial project structure.

**Project:** " +:+
title projectNode +:+
"
**Tasks Created:** " +:+
decimal (match children projectNode with Some cs => length cs | None => 0 end) +:+
tpl " high-level tasks

Check the **Task Tree** view to see the structure.

---

**Ready for Step 3: Decomposition?**
This will break each task into actionable sub-tasks. Type **`decompose`** or **`yes`** to begin.".

Definition parseFailureReply : string :=
  "I tried to generate tasks but failed to parse the output. Let's try again.".

Definition generateHighLevelTasks : M string :=
  let* history := get (fun this => chatHistory (context this)) in
  let prompt := generationPrompt history in
  let messages := [HumanMessage prompt] in
  let* response := llm_chat messages in
  try_catch
    (let cleanJson := cleanJson response in
     let* projectNode := lift (JSON_parse_node cleanJson) in
     let taskFile := "tasks.json" in
     fs_writeSafe taskFile (JSON_stringify projectNode) ;;
     update (set_currentStep DECOMPOSITION) ;;
     ret (generationReply projectNode))
    (fun e => ret parseFailureReply).

Definition handleInitiationStep : M string :=
  let* lastUserMsg := lastUserMsg in
  if includes lastUserMsg "yes" || includes lastUserMsg "proceed" || includes lastUserMsg "looks good"
  then
    update (set_currentStep TASK_GENERATION) ;;
    generateHighLevelTasks
  else
    let* c := get context in
    let systemPrompt := initiationPrompt c in
    let messages := SystemMessage systemPrompt :: slice_last 10 (chatHistory c) in
    llm_chat messages.

(** Only main-tasks that have not been decomposed yet: the test of
    [findTasksToDecompose]. *)
Definition needsDecomposition (node : TaskNode) : bool :=
  bool_decide (type node = main_task) && not_decomposed node && no_children node.

(** [findTasksToDecompose(node, results)], for the node found at [here];
    [results] collects the references pushed so far. *)
Fixpoint findTasksToDecompose (node : TaskNode) (here : Ref) (results : list Ref) : list Ref :=
  let results := if needsDecomposition node then results ++ [here] else results in
  match node with
  | mkTaskNode _ _ _ _ (Some children) _ =>
      (fix each (rest : list TaskNode) (i : nat) (results : list Ref) : list Ref :=
         match rest with
         | [] => results
         | child :: rest => each rest (S i) (findTasksToDecompose child (here ++ [i]) results)
         end) children 0 results
  | mkTaskNode _ _ _ _ None _ => results
  end.

Definition decompositionPrompt (task : TaskNode) (projectName : string) : string :=
"You are decomposing a task into actionable sub-tasks.

**Project:** " +:+
projectName +:+
"
**Task to Decompose:** " +:+
title task +:+
tpl "

Break this task into 2-5 specific, actionable sub-tasks. Each sub-task should be something a developer could complete in a focused work session.

Output ONLY a valid JSON array of sub-tasks:
[
    { `id`: `" +:+
id task +:+
tpl "-1`, `title`: `Sub-task title`, `type`: `sub-task`, `status`: `pending`, `children`: [] }
]

Rules:
- Each sub-task should be specific and actionable
- Use descriptive titles that explain what needs to be done
- Keep the `type` as `sub-task`
- All `status` should be `pending`
- Return ONLY valid JSON, no markdown".

Definition decomposeTask (task : TaskNode) (projectName : string) : M (list TaskNode) :=
  let prompt := decompositionPrompt task projectName in
  let messages := [HumanMessage prompt] in
  let* response := llm_chat messages in
  try_catch
    (let cleanJson := cleanJson response in
     let* subTasks := lift (JSON_parse_nodes cleanJson) in
     ret subTasks)
    (fun e => throw (mkError "Failed to parse LLM response")).

Definition successLine (task : TaskNode) (subTasks : list TaskNode) : string :=
  "✅ **" +:+ title task +:+ "** → " +:+ decimal (length subTasks) +:+ " sub-tasks".

Definition failureLine (task : TaskNode) (e : Error) : string :=
  "⚠️ **" +:+ title task +:+ "** - Failed: " +:+ message e.

(** The local variables of [runDecomposition] that the loop changes. *)
Record Locals := mkLocals {
  rootTask : TaskNode;
  decomposedCount : nat;
  results : list string
}.

(** The body of the [for] loop, for [task = tasksToDecompose[i]]. *)
Definition decomposeOne (i : nat) (task : Ref) (l : Locals) : M Locals :=
  (if decide (0 < i) then do_sleep 1500 else ret tt) ;;
  match deref (rootTask l) task with
  | None => throw (TypeError "Cannot read properties of undefined (reading 'title')")
  | Some node =>
      try_catch
        (let* subTasks := decomposeTask node (title (rootTask l)) in
         if decide (0 < length subTasks)
         then ret (mkLocals (assign (attach subTasks) (rootTask l) task)
                            (decomposedCount l + 1)
                            (results l ++ [successLine node subTasks]))
         else ret l)
        (fun e => ret (mkLocals (rootTask l) (decomposedCount l)
                                (results l ++ [failureLine node e])))
  end.

(** [for (let i = 0; i < tasksToDecompose.length; i++)], from index [i] on. *)
Fixpoint decomposeEach (i : nat) (tasksToDecompose : list Ref) (l : Locals) : M Locals :=
  match tasksToDecompose with
  | [] => ret l
  | task :: rest =>
      let* l := decomposeOne i task l in
      decomposeEach (S i) rest l
  end.

Definition noTasksReply : string := "No tasks.json found. Please complete Step 2 first.".

Definition allDecomposedReply : string :=
  "All tasks are already decomposed! Moving to **Step 4: Analysis**.".

Definition completeReply (results : list string) (decomposedCount : nat) : string :=
"**Decomposition Complete!**

" +:+
join nl results +:+
"

---

**" +:+
decimal decomposedCount +:+
tpl "** tasks were broken down into sub-tasks. Check the **Task Tree** to see the updated structure.

Moving to **Step 4: Analysis**. Type **`analyze`** to continue.".

Definition decompositionErrorReply (e : Error) : string :=
  "Error during decomposition: " +:+ message e.

Definition runDecomposition : M string :=
  update (set_isDecomposing true) ;;
  try_catch
    (let* tasksJson := fs_readFile "tasks.json" in
     if negb (truthy tasksJson) then ret noTasksReply
     else
       let* parsed := lift (JSON_parse_node tasksJson) in
       let tasksToDecompose := findTasksToDecompose parsed [] [] in
       if decide (length tasksToDecompose = 0)
       then
         update (set_currentStep ANALYSIS) ;;
         ret allDecomposedReply
       else
         let* l := decomposeEach 0 tasksToDecompose (mkLocals parsed 0 []) in
         fs_writeSafe "tasks.json" (JSON_stringify (rootTask l)) ;;
         update (set_isDecomposing false) ;;
         update (set_currentStep ANALYSIS) ;;
         ret (completeReply (results l) (decomposedCount l)))
    (fun e =>
       update (set_isDecomposing false) ;;
       ret (decompositionErrorReply e)).

Definition alreadyDecomposingReply : string :=
  "Decomposition is already in progress. Please wait...".

Definition skipReply : string := "Skipping decomposition. Moving to **Step 4: Analysis**.".

Definition decompositionMenu : string :=
tpl "We're now in **Step 3: Decomposition**.

I will analyze each high-level task and break it down into actionable sub-tasks.

**Options:**
- Type **`decompose`** or **`yes`** to start automatic decomposition
- Type **`skip`** to move to the next step

What would you like to do?".

Definition handleDecompositionStep : M string :=
  let* lastUserMsg := lastUserMsg in
  if includes lastUserMsg "decompose" || includes lastUserMsg "yes"
     || includes lastUserMsg "proceed" || includes lastUserMsg "break"
  then
    let* busy := get isDecomposing in
    if busy then ret alreadyDecomposingReply
    else runDecomposition
  else if includes lastUserMsg "skip" || includes lastUserMsg "next"
  then
    update (set_currentStep ANALYSIS) ;;
    ret skipReply
  else ret decompositionMenu.

(** Save to .agent_workspace/context.json (placeholder) *)
Definition saveContext : M unit := ret tt.

Definition processMessage (userMessage : string) : M string :=
  update (push_chatHistory (HumanMessage userMessage)) ;;
  let* step := get currentStep in
  let* response :=
    match step with
    | INITIATION => handleInitiationStep
    | TASK_GENERATION => ret "I am generating the initial task list..."
    | DECOMPOSITION => handleDecompositionStep
    | _ => ret ("I am not ready for step " +:+ decimal (step_number step) +:+ " yet.")
    end in
  update (push_chatHistory (AIMessage response)) ;;
  saveContext ;;
  ret response.

End Engine.

Arguments State World : clear implicits.
Arguments M World A : clear implicits.

End WorkflowEngine.

(** ** LLMService.ts: getAvailableModels *)

(** [s.replace(p, r)] for a string pattern [p]: the first occurrence only. *)
Fixpoint string_drop (n : nat) (s : string) : string :=
  match n, s with
  | S n', String _ s' => string_drop n' s'
  | _, _ => s
  end.

Fixpoint replace_first (p r s : string) : string :=
  if startsWith p s then r +:+ string_drop (String.length p) s
  else match s with
       | EmptyString => EmptyString
       | String c s' => String c (replace_first p r s')
       end.

Module ModelDiscovery.

Record ModelInfo := mkModelInfo { id : string; name : string; provider : LLMProvider }.

(** An entry of a listing, with the fields the code reads of it: [m.id] and
    [m.display_name] (OpenAI, Anthropic), [m.name] and [m.displayName]
    (Google, Ollama). *)
Record Entry := mkEntry {
  e_id : string;
  e_name : string;
  display_name : option string;
  displayName : option string
}.

(** The body of a listing: [data.data], and [data.models], which may be
    missing. *)
Record Body := mkBody { data : list Entry; models : option (list Entry) }.

Record Response := mkResponse { ok : bool; statusText : string; json : Completion Body }.

Record Request := mkRequest { url : string; headers : list (string * string) }.

(** The network: what [fetch] ends in. *)
Class Network (World : Type) := {
  fetch : Request → World → Completion Response * World
}.

(** [!apiKey] *)
Definition missing (apiKey : option string) : bool :=
  match apiKey with
  | Some key => negb (truthy key)
  | None => true
  end.

(** [${apiKey}] *)
Definition shown (apiKey : option string) : string :=
  match apiKey with Some key => key | None => "undefined" end.

(** [a || b] for an optional string [a] *)
Definition or_else (a : option string) (b : string) : string :=
  match a with
  | Some s => if truthy s then s else b
  | None => b
  end.

Section Discovery.
Context {World : Type} `{!Network World}.

(** [await fetch(...)], the test of [res.ok], and [await res.json()]. *)
Definition listing (request : Request) (errorPrefix : string) (w : World)
    : Completion Body * World :=
  match fetch request w with
  | (Throw e, w) => (Throw e, w)
  | (Return res, w) =>
      if negb (ok res) then (Throw (mkError (errorPrefix +:+ statusText res)), w)
      else (json res, w)
  end.

Definition getAvailableModels (provider : LLMProvider) (apiKey : option string) (w : World)
    : Completion (list ModelInfo) * World :=
  let models : list ModelInfo := [] in
  match provider with
  | openai =>
      if missing apiKey then (Throw (mkError "API Key required for OpenAI"), w)
      else
        match listing (mkRequest "https://api.openai.com/v1/models"
                         [("Authorization", "Bearer " +:+ shown apiKey)])
                "OpenAI API Error: " w with
        | (Throw e, w) => (Throw e, w)
        | (Return body, w) =>
            (Return (fold_left
                       (fun models m =>
                          if includes (e_id m) "gpt"
                          then models ++ [mkModelInfo (e_id m) (e_id m) openai]
                          else models)
                       (data body) models), w)
        end
  | anthropic =>
      if missing apiKey then (Throw (mkError "API Key required for Anthropic"), w)
      else
        match listing (mkRequest "https://api.anthropic.com/v1/models"
                         [("x-api-key", shown apiKey); ("anthropic-version", "2023-06-01")])
                "Anthropic API Error: " w with
        | (Throw e, w) => (Throw e, w)
        | (Return body, w) =>
            (Return (fold_left
                       (fun models m =>
                          models ++ [mkModelInfo (e_id m) (or_else (display_name m) (e_id m))
                                       anthropic])
                       (data body) models), w)
        end
  | google =>
      if missing apiKey then (Throw (mkError "API Key required for Google"), w)
      else
        match listing (mkRequest ("https://generativelanguage.googleapis.com/v1beta/models?key="
                                  +:+ shown apiKey) [])
                "Google API Error: " w with
        | (Throw e, w) => (Throw e, w)
        | (Return body, w) =>
            match ModelDiscovery.models body with
            | Some entries =>
                (Return (fold_left
                           (fun models m =>
                              let id := replace_first "models/" "" (e_name m) in
                              models ++ [mkModelInfo id (or_else (displayName m) id) google])
                           entries models), w)
            | None => (Return models, w)
            end
        end
  | ollama =>
      match listing (mkRequest "http://localhost:11434/api/tags" []) "Ollama API Error: " w with
      | (Throw e, w) => (Throw e, w)
      | (Return body, w) =>
          match ModelDiscovery.models body with
          | Some entries =>
              (Return (fold_left
                         (fun models m =>
                            models ++ [mkModelInfo (e_name m) (e_name m) ollama])
                         entries models), w)
          | None =>
              (Throw (TypeError "Cannot read properties of undefined (reading 'forEach')"), w)
          end
      end
  end.

End Discovery.

End ModelDiscovery.

(** ** AgentManager: the handlers behind the boundary operations

    The handlers of [agent:get-tasks], [agent:get-status], [agent:chat] and
    [agent:configure-llm], and [initializeProject].  The directories that
    [ensureDir] creates are not files and leave the [Disk] as it is;
    [fs.writeJSON] writes its file directly, without a backup.  Both fail
    when the volume refuses the path, and the handlers' own [try]/[catch]
    around them are kept. *)

Module AgentManager.

(** The argument of [agent:configure-llm], and the [llm] key of the
    settings. *)
Record LLMConfig := mkConfig {
  provider : LLMProvider;
  modelId : string;
  apiKey : option string
}.

(** The object in [settings.json], with the keys the code reads and writes;
    a key that is not there is [None]. *)
Record Settings := mkSettings {
  created : option nat;
  agentMode : option string;
  llm : option LLMConfig
}.

(** [fs.readJSON] and [fs.writeJSON(.., { spaces: 2 })] on settings: the
    parsing of the text of the file, and the text written for an object. *)
Class SettingsCodec := {
  parse_settings : string → Completion Settings;
  stringify_settings : Settings → string
}.

(** What the volume does to [fs.ensureDir(path)] and [fs.writeJSON(path, _)]:
    [refused w path] is the error they end in, if they fail (a directory that
    cannot be made, a file that cannot be written). *)
Class Volume (World : Type) := {
  refused : World → string → option Error
}.

Record t := mk {
  fileSystem : option AgentFileSystem.t;
  workflow : option WorkflowEngine.t;
  projectPath : option string;
  isRunning : bool
}.

(** [constructor()] *)
Definition new : t := mk None None None false.

(** The reply of [agent:chat]. *)
Record ChatReply := mkReply {
  id : string;
  role : string;
  content : string;
  timestamp : nat
}.

(** [{ success, error? }] *)
Record Result := mkResult { success : bool; error : option string }.

Section Handlers.
Context {World : Type} `{!Backend World} `{!Runtime} `{!SettingsCodec}.
Context `{!ChatModels} `{!Volume World}.

(** The manager, the files and the outside world. *)
Record State := mkState { manager : t; disk : Disk; world : World }.

(** [a truthy string] for [this.projectPath] *)
Definition opened (path : option string) : option string :=
  match path with
  | Some p => if truthy p then Some p else None
  | None => None
  end.

(** [agent:get-tasks] *)
Definition get_tasks (s : State) : Completion (option TaskNode) :=
  match opened (projectPath (manager s)) with
  | Some projectPath =>
      let taskPath := path_join [projectPath; "tasks.json"] in
      match disk s !! taskPath with
      | Some text =>
          match JSON_parse_node text with
          | Return tasks => Return (Some tasks)
          | Throw e => Throw e
          end
      | None => Return None
      end
  | None => Return None
  end.

(** [agent:get-status] *)
Definition get_status (s : State) : bool * option string :=
  (isRunning (manager s), projectPath (manager s)).

Definition notInitialized : string :=
  "Error: Project not initialized. Please open a project first.".

(** [{ id: Date.now().toString(), role: 'agent', content, timestamp: Date.now() }] *)
Definition reply_now (content : string) (w : World) : ChatReply * World :=
  let '(t1, w) := now w in
  let '(t2, w) := now w in
  (mkReply (decimal t1) "agent" content t2, w).

(** [agent:chat] *)
Definition chat (userMessage : string) (s : State) : Completion ChatReply * State :=
  match workflow (manager s) with
  | None =>
      let '(reply, w) := reply_now notInitialized (world s) in
      (Return reply, mkState (manager s) (disk s) w)
  | Some engine =>
      let '(result, after) :=
        WorkflowEngine.processMessage userMessage (WorkflowEngine.mkState engine (disk s) (world s)) in
      let m := manager s in
      let m := mk (fileSystem m) (Some (WorkflowEngine.engine after)) (projectPath m) (isRunning m) in
      match result with
      | Return responseText =>
          let '(reply, w) := reply_now responseText (WorkflowEngine.world after) in
          (Return reply, mkState m (WorkflowEngine.disk after) w)
      | Throw error =>
          let '(reply, w) :=
            reply_now ("I encountered an error processing your request: " +:+ message error)
              (WorkflowEngine.world after) in
          (Return reply, mkState m (WorkflowEngine.disk after) w)
      end
  end.

(** [fs.readJSON(path)] on settings *)
Definition readSettings (path : string) (d : Disk) : Completion Settings :=
  match d !! path with
  | Some text => parse_settings text
  | None => Throw (mkError ("ENOENT: no such file or directory, open '" +:+ path +:+ "'"))
  end.

(** [await fs.ensureDir(path)] *)
Definition ensureDir (path : string) (s : State) : Completion unit :=
  match refused (world s) path with
  | Some error => Throw error
  | None => Return tt
  end.

(** [await fs.writeJSON(path, settings, { spaces: 2 })] *)
Definition writeJSON (path : string) (settings : Settings) (s : State)
    : Completion unit * State :=
  match refused (world s) path with
  | Some error => (Throw error, s)
  | None =>
      (Return tt, mkState (manager s) (<[path := stringify_settings settings]> (disk s)) (world s))
  end.

(** [this.workflow.getLLM().configure(c.provider, c.modelId, c.apiKey)]: how
    the call ends, and the engine after it. *)
Definition configure_engine (c : LLMConfig) (engine : WorkflowEngine.t)
    : Completion unit * WorkflowEngine.t :=
  let '(result, llm) :=
    LLMService.configure (WorkflowEngine.llm engine) (provider c) (modelId c) (apiKey c) in
  (result, WorkflowEngine.set_llm llm engine).

(** [this.workflow = engine] *)
Definition set_workflow (engine : WorkflowEngine.t) (s : State) : State :=
  let m := manager s in
  mkState (mk (fileSystem m) (Some engine) (projectPath m) (isRunning m)) (disk s) (world s).

(** [await fs.readJSON(settingsPath).catch(() => ({}))] *)
Definition currentSettings (settingsPath : string) (d : Disk) : Settings :=
  match readSettings settingsPath d with
  | Return settings => settings
  | Throw _ => mkSettings None None None
  end.

(** [{ ...currentSettings, llm: config }] *)
Definition with_llm (config : LLMConfig) (settings : Settings) : Settings :=
  mkSettings (created settings) (agentMode settings) (Some config).

(** [agent:configure-llm]: [configure] is called outside the [try], so its
    error ends the handler; a failure to write the settings is caught and
    reported. *)
Definition configure_llm (config : LLMConfig) (s : State) : Completion Result * State :=
  match workflow (manager s), opened (projectPath (manager s)) with
  | Some engine, Some projectPath =>
      let '(result, engine) := configure_engine config engine in
      let s := set_workflow engine s in
      match result with
      | Throw error => (Throw error, s)
      | Return _ =>
          let settingsPath := path_join [projectPath; ".agent_workspace"; "settings.json"] in
          let currentSettings := currentSettings settingsPath (disk s) in
          match writeJSON settingsPath (with_llm config currentSettings) s with
          | (Return _, s) => (Return (mkResult true None), s)
          | (Throw e, s) =>
              (Return (mkResult false (Some ("Failed to save settings: " +:+ message e))), s)
          end
      end
  | _, _ => (Return (mkResult false (Some "Project not initialized")), s)
  end.

(** [catch (error) { return { success: false, error: error.message } }] *)
Definition failed (error : Error) (s : State) : Result * State :=
  (mkResult false (Some (message error)), s).

(** The loading of existing settings in [initializeProject]: whatever is
    thrown is caught and logged. *)
Definition restore (settingsPath : string) (engine : WorkflowEngine.t) (d : Disk)
    : WorkflowEngine.t :=
  match readSettings settingsPath d with
  | Return settings =>
      match llm settings with
      | Some c => (configure_engine c engine).2
      | None => engine
      end
  | Throw _ => engine
  end.

(** [initializeProject(projectPath)] *)
Definition initializeProject (projectPath : string) (s : State) : Result * State :=
  let m := manager s in
  let fileSystem := AgentFileSystem.new projectPath in
  let s :=
    mkState (mk (Some fileSystem) (workflow m) (Some projectPath) (isRunning m))
      (disk s) (world s) in
  (* await this.fileSystem.initialize() *)
  match ensureDir (AgentFileSystem.backupDir fileSystem) s with
  | Throw error => failed error s
  | Return _ =>
      let engine := WorkflowEngine.new fileSystem in
      let s := set_workflow engine s in
      let workspacePath := path_join [projectPath; ".agent_workspace"] in
      match ensureDir (path_join [workspacePath; "history"]) s with
      | Throw error => failed error s
      | Return _ =>
          match ensureDir (path_join [workspacePath; "snapshots"]) s with
          | Throw error => failed error s
          | Return _ =>
              let settingsPath := path_join [workspacePath; "settings.json"] in
              match disk s !! settingsPath with
              | None =>
                  let '(created, w) := now (world s) in
                  let s := mkState (manager s) (disk s) w in
                  match writeJSON settingsPath
                          (mkSettings (Some created) (Some "default") None) s with
                  | (Throw error, s) => failed error s
                  | (Return _, s) => (mkResult true None, s)
                  end
              | Some _ =>
                  (mkResult true None, set_workflow (restore settingsPath engine (disk s)) s)
              end
          end
      end
  end.

End Handlers.

Arguments State World : clear implicits.

End AgentManager.

(** ** A runtime to evaluate with

    An executable instance of [Runtime] and of [Backend], used only to run
    the definitions above on examples.  It covers ASCII case folding and
    white space, and JSON texts without [\u] escapes; a JSON text whose value
    does not have the shape of the interface it is read at is refused like an
    unparsable one.  The backend is scripted: each call of [stream] takes the
    next outcome of the script. *)

Module Eval.

Definition lower_char (c : ascii) : ascii :=
  let n := nat_of_ascii c in
  if bool_decide (65 ≤ n) && bool_decide (n ≤ 90) then ascii_of_nat (n + 32) else c.

Fixpoint toLowerCase (s : string) : string :=
  match s with
  | EmptyString => EmptyString
  | String c s' => String (lower_char c) (toLowerCase s')
  end.

Definition is_space (c : ascii) : bool :=
  let n := nat_of_ascii c in
  bool_decide (n = 32) || (bool_decide (9 ≤ n) && bool_decide (n ≤ 13)).

Fixpoint trimStart (s : string) : string :=
  match s with
  | String c s' => if is_space c then trimStart s' else s
  | EmptyString => EmptyString
  end.

Fixpoint trimEnd (s : string) : string :=
  match s with
  | EmptyString => EmptyString
  | String c s' =>
      match trimEnd s' with
      | EmptyString => if is_space c then EmptyString else String c EmptyString
      | rest => String c rest
      end
  end.

Definition trim (s : string) : string := trimEnd (trimStart s).

Definition path_join (parts : list string) : string := join "/" parts.

Fixpoint path_basename (p : string) : string :=
  match p with
  | EmptyString => EmptyString
  | String c p' => if includes p' "/" then path_basename p' else
                     if decide (c = ascii_of_nat 47) then p' else p
  end.

(** JSON values *)
Inductive JSON :=
| JNull
| JBool (b : bool)
| JNumber (lexeme : string)
| JString (s : string)
| JArray (items : list JSON)
| JObject (members : list (string * JSON)).

Definition ch (n : nat) : ascii := ascii_of_nat n.

Fixpoint expect (word rest : string) : option string :=
  match word, rest with
  | EmptyString, _ => Some rest
  | String a word', String b rest' => if decide (a = b) then expect word' rest' else None
  | String _ _, EmptyString => None
  end.

(** The characters of a string literal after its opening quote. *)
Fixpoint parse_chars (s : string) : option (string * string) :=
  match s with
  | EmptyString => None
  | String c s' =>
      if decide (c = ch 34) then Some (EmptyString, s')
      else if decide (c = ch 92) then
        match s' with
        | String e s'' =>
            let plain (x : ascii) :=
              match parse_chars s'' with
              | Some (body, rest) => Some (String x body, rest)
              | None => None
              end in
            if decide (e = ch 34) then plain (ch 34)
            else if decide (e = ch 92) then plain (ch 92)
            else if decide (e = ch 47) then plain (ch 47)
            else if decide (e = ch 98) then plain (ch 8)
            else if decide (e = ch 102) then plain (ch 12)
            else if decide (e = ch 110) then plain (ch 10)
            else if decide (e = ch 114) then plain (ch 13)
            else if decide (e = ch 116) then plain (ch 9)
            else None
        | EmptyString => None
        end
      else if decide (nat_of_ascii c < 32) then None
      else
        match parse_chars s' with
        | Some (body, rest) => Some (String c body, rest)
        | None => None
        end
  end.

Definition is_digit (c : ascii) : bool :=
  bool_decide (48 ≤ nat_of_ascii c) && bool_decide (nat_of_ascii c ≤ 57).

Fixpoint digits (s : string) : string * string :=
  match s with
  | String c s' =>
      if is_digit c then let '(d, rest) := digits s' in (String c d, rest)
      else (EmptyString, s)
  | EmptyString => (EmptyString, EmptyString)
  end.

(** [-]digits[.digits], without leading zeros *)
Definition parse_number (s : string) : option (string * string) :=
  let '(sign, s) :=
    match s with
    | String c s' => if decide (c = ch 45) then ("-", s') else ("", s)
    | EmptyString => ("", s)
    end in
  let '(int, s) := digits s in
  if bool_decide (int = "") || (startsWith "0" int && negb (bool_decide (int = "0")))
  then None
  else
    match s with
    | String c s' =>
        if decide (c = ch 46) then
          let '(frac, rest) := digits s' in
          if bool_decide (frac = "") then None
          else Some (sign +:+ int +:+ "." +:+ frac, rest)
        else Some (sign +:+ int, s)
    | EmptyString => Some (sign +:+ int, s)
    end.

Fixpoint parse_value (fuel : nat) (s : string) : option (JSON * string) :=
  match fuel with
  | O => None
  | S fuel' =>
      match trimStart s with
      | EmptyString => None
      | String c rest as s =>
          if decide (c = ch 110) then (fun r => (JNull, r)) <$> expect "null" s
          else if decide (c = ch 116) then (fun r => (JBool true, r)) <$> expect "true" s
          else if decide (c = ch 102) then (fun r => (JBool false, r)) <$> expect "false" s
          else if decide (c = ch 34) then
            (fun '(body, r) => (JString body, r)) <$> parse_chars rest
          else if decide (c = ch 91) then
            match trimStart rest with
            | String c' rest' as inner =>
                if decide (c' = ch 93) then Some (JArray [], rest')
                else
                  (fix elements (n : nat) (s : string) (acc : list JSON) {struct n} :=
                     match n with
                     | O => None
                     | S n' =>
                         match parse_value fuel' s with
                         | Some (v, s1) =>
                             match trimStart s1 with
                             | String d s2 =>
                                 if decide (d = ch 44) then elements n' s2 (acc ++ [v])
                                 else if decide (d = ch 93) then Some (JArray (acc ++ [v]), s2)
                                 else None
                             | EmptyString => None
                             end
                         | None => None
                         end
                     end) fuel' inner []
            | EmptyString => None
            end
          else if decide (c = ch 123) then
            match trimStart rest with
            | String c' rest' as inner =>
                if decide (c' = ch 125) then Some (JObject [], rest')
                else
                  (fix members (n : nat) (s : string) (acc : list (string * JSON)) {struct n} :=
                     match n with
                     | O => None
                     | S n' =>
                         match trimStart s with
                         | String q s0 =>
                             if decide (q = ch 34) then
                               match parse_chars s0 with
                               | Some (key, s1) =>
                                   match trimStart s1 with
                                   | String colon s2 =>
                                       if decide (colon = ch 58) then
                                         match parse_value fuel' s2 with
                                         | Some (v, s3) =>
                                             match trimStart s3 with
                                             | String d s4 =>
                                                 if decide (d = ch 44) then members n' s4 (acc ++ [(key, v)])
                                                 else if decide (d = ch 125)
                                                      then Some (JObject (acc ++ [(key, v)]), s4)
                                                      else None
                                             | EmptyString => None
                                             end
                                         | None => None
                                         end
                                       else None
                                   | EmptyString => None
                                   end
                               | None => None
                               end
                             else None
                         | EmptyString => None
                         end
                     end) fuel' inner []
            | EmptyString => None
            end
          else (fun '(lexeme, r) => (JNumber lexeme, r)) <$> parse_number s
      end
  end.

Definition syntaxError : Error := mkError "Unexpected token in JSON".

(** [JSON.parse(text)] *)
Definition JSON_parse (text : string) : option JSON :=
  match parse_value (S (String.length text)) text with
  | Some (v, rest) => if bool_decide (trimStart rest = "") then Some v else None
  | None => None
  end.

(** The value of a property; of several members with the same key the last
    one counts. *)
Fixpoint property (key : string) (members : list (string * JSON)) : option JSON :=
  match members with
  | [] => None
  | (k, v) :: rest =>
      match property key rest with
      | Some v' => Some v'
      | None => if decide (k = key) then Some v else None
      end
  end.

Definition status_name (s : TaskStatus) : string :=
  match s with
  | pending => "pending" | in_progress => "in-progress"
  | completed => "completed" | blocked => "blocked"
  end.

Definition kind_name (k : TaskType) : string :=
  match k with
  | project => "project" | main_task => "main-task" | sub_task => "sub-task"
  | todo => "todo" | step => "step"
  end.

Definition status_of (s : string) : option TaskStatus :=
  find (fun x => bool_decide (status_name x = s)) [pending; in_progress; completed; blocked].

Definition kind_of (s : string) : option TaskType :=
  find (fun x => bool_decide (kind_name x = s)) [project; main_task; sub_task; todo; step].

Definition as_string (j : option JSON) : option string :=
  match j with Some (JString s) => Some s | _ => None end.

(** Reading a JSON value at the interface [TaskNode]. *)
Fixpoint as_node (fuel : nat) (j : JSON) : option TaskNode :=
  match fuel, j with
  | S fuel', JObject members =>
      i ← as_string (property "id" members);
      t ← as_string (property "title" members);
      s ← as_string (property "status" members) ≫= status_of;
      k ← as_string (property "type" members) ≫= kind_of;
      cs ← match property "children" members with
           | None => Some None
           | Some (JArray items) => Some <$> mapM (as_node fuel') items
           | Some _ => None
           end;
      d ← match property "decomposed" members with
          | None => Some None
          | Some (JBool b) => Some (Some b)
          | Some _ => None
          end;
      Some (mkTaskNode i t s k cs d)
  | _, _ => None
  end.

Definition or_throw {A} (o : option A) : Completion A :=
  match o with Some a => Return a | None => Throw syntaxError end.

(** [JSON.parse(text)], read at the interface [TaskNode].  The evaluation
    runtime covers the texts whose value has the shape of the interface.  For
    a valid JSON text of another shape (an array, an object without a
    title), where the program goes on with a value that is no [TaskNode],
    there is no node to return and the text is refused: the runs of this
    file are on texts of the right shape, or on texts that are no JSON. *)
Definition JSON_parse_node (text : string) : Completion TaskNode :=
  or_throw (JSON_parse text ≫= as_node (S (String.length text))).

Definition JSON_parse_nodes (text : string) : Completion (list TaskNode) :=
  or_throw (JSON_parse text ≫= fun j =>
            match j with
            | JArray items => mapM (as_node (S (String.length text))) items
            | _ => None
            end).

Fixpoint escape (s : string) : string :=
  match s with
  | EmptyString => EmptyString
  | String c s' =>
      (if decide (c = ch 34) then String (ch 92) dq
       else if decide (c = ch 92) then String (ch 92) (String (ch 92) "")
       else if decide (c = ch 10) then String (ch 92) "n"
       else if decide (c = ch 13) then String (ch 92) "r"
       else if decide (c = ch 9) then String (ch 92) "t"
       else String c "") +:+ escape s'
  end.

Definition quoted (s : string) : string := dq +:+ escape s +:+ dq.

Fixpoint spaces (n : nat) : string :=
  match n with O => "" | S n' => " " +:+ spaces n' end.

(** [JSON.stringify(node, null, 2)], the members in the order of the
    interface. *)
Fixpoint stringify_at (indent : nat) (node : TaskNode) : string :=
  let inner := spaces (indent + 2) in
  let member (k v : string) := inner +:+ quoted k +:+ ": " +:+ v in
  let kids :=
    match node with
    | mkTaskNode _ _ _ _ (Some []) _ => [member "children" "[]"]
    | mkTaskNode _ _ _ _ (Some cs) _ =>
        [member "children"
           ("[" +:+ nl +:+
            join ("," +:+ nl)
              (map (fun c => spaces (indent + 4) +:+ stringify_at (indent + 4) c) cs)
            +:+ nl +:+ inner +:+ "]")]
    | mkTaskNode _ _ _ _ None _ => []
    end in
  let flag :=
    match decomposed node with
    | Some b => [member "decomposed" (if b then "true" else "false")]
    | None => []
    end in
  "{" +:+ nl +:+
  join ("," +:+ nl)
    ([member "id" (quoted (id node)); member "title" (quoted (title node));
      member "status" (quoted (status_name (status node)));
      member "type" (quoted (kind_name (type node)))] ++ kids ++ flag)
  +:+ nl +:+ spaces indent +:+ "}".

Definition JSON_stringify (node : TaskNode) : string := stringify_at 0 node.

Definition runtime : Runtime :=
  Build_Runtime toLowerCase trim JSON_parse_node JSON_parse_nodes JSON_stringify
    path_join path_basename.

(** The scripted world. *)
Record World := mkWorld { script : list StreamOutcome; clock : nat }.

Definition hangs : StreamOutcome := mkOutcome [] StreamDone None.

Definition answers (text : string) : StreamOutcome := mkOutcome [text] StreamDone (Some 1000%N).

Definition fails (why : string) : StreamOutcome :=
  mkOutcome [] (StreamError (mkError why)) (Some 1000%N).

Definition backend : Backend World :=
  Build_Backend World
    (fun w _ _ =>
       match script w with
       | o :: rest => (o, mkWorld rest (clock w))
       | [] => (hangs, w)
       end)
    (fun w => (clock w, mkWorld (script w) (S (clock w))))
    (fun w => ("uuid-" +:+ decimal (clock w), mkWorld (script w) (S (clock w))))
    (fun ms w => mkWorld (script w) (clock w + N.to_nat ms)).

(** A network that answers each request by a fixed table, and counts the
    requests it has seen. *)
Definition network (answer : ModelDiscovery.Request → Completion ModelDiscovery.Response)
    : ModelDiscovery.Network nat :=
  ModelDiscovery.Build_Network nat (fun request seen => (answer request, S seen)).

(** [settings.json]: the object at the keys [created], [agentMode] and
    [llm]. *)
Definition provider_of (s : string) : option LLMProvider :=
  find (fun x => bool_decide (provider_name x = s)) [openai; anthropic; google; ollama].

Fixpoint number_of (acc : nat) (lexeme : string) : option nat :=
  match lexeme with
  | EmptyString => Some acc
  | String c rest =>
      if is_digit c then number_of (10 * acc + (nat_of_ascii c - 48)) rest else None
  end.

Definition optional {A} (read : JSON → option A) (j : option JSON) : option (option A) :=
  match j with
  | None => Some None
  | Some v => Some <$> read v
  end.

Definition as_config (j : JSON) : option AgentManager.LLMConfig :=
  match j with
  | JObject members =>
      p ← as_string (property "provider" members) ≫= provider_of;
      m ← as_string (property "modelId" members);
      k ← optional (fun v => as_string (Some v)) (property "apiKey" members);
      Some (AgentManager.mkConfig p m k)
  | _ => None
  end.

Definition as_settings (j : JSON) : option AgentManager.Settings :=
  match j with
  | JObject members =>
      c ← optional (fun v => match v with JNumber n => number_of 0 n | _ => None end)
            (property "created" members);
      a ← optional (fun v => as_string (Some v)) (property "agentMode" members);
      l ← optional as_config (property "llm" members);
      Some (AgentManager.mkSettings c a l)
  | _ => None
  end.

Definition parse_settings (text : string) : Completion AgentManager.Settings :=
  or_throw (JSON_parse text ≫= as_settings).

(** [JSON.stringify(object, null, 2)] of an object whose members are already
    written. *)
Definition braces (indent : nat) (members : list (string * string)) : string :=
  match members with
  | [] => "{}"
  | _ =>
      "{" +:+ nl +:+
      join ("," +:+ nl)
        (map (fun '(k, v) => spaces (indent + 2) +:+ quoted k +:+ ": " +:+ v) members)
      +:+ nl +:+ spaces indent +:+ "}"
  end.

Definition member {A} (key : string) (write : A → string) (value : option A)
    : list (string * string) :=
  match value with
  | Some v => [(key, write v)]
  | None => []
  end.

Definition stringify_config (indent : nat) (c : AgentManager.LLMConfig) : string :=
  braces indent
    ([("provider", quoted (provider_name (AgentManager.provider c)));
      ("modelId", quoted (AgentManager.modelId c))]
     ++ member "apiKey" quoted (AgentManager.apiKey c)).

Definition stringify_settings (settings : AgentManager.Settings) : string :=
  braces 0
    (member "created" decimal (AgentManager.created settings)
     ++ member "agentMode" quoted (AgentManager.agentMode settings)
     ++ member "llm" (stringify_config 2) (AgentManager.llm settings)).

Definition codec : AgentManager.SettingsCodec :=
  AgentManager.Build_SettingsCodec parse_settings stringify_settings.

(** Constructors that refuse a hosted provider without a key, as the
    libraries do that look for the key when the object is built; Ollama
    takes none. *)
Definition keyless (apiKey : option string) : bool :=
  match apiKey with
  | Some key => negb (truthy key)
  | None => true
  end.

Definition models : ChatModels :=
  Build_ChatModels
    (fun m =>
       match m with
       | ChatOpenAI apiKey _ =>
           if keyless apiKey then Some (mkError "OpenAI or Azure OpenAI API key not found")
           else None
       | ChatAnthropic apiKey _ =>
           if keyless apiKey then Some (mkError "Anthropic API key not found") else None
       | ChatGoogleGenerativeAI apiKey _ _ =>
           if keyless apiKey then Some (mkError "Please set an API key for Google GenerativeAI")
           else None
       | ChatOllama _ _ => None
       end).

(** A volume on which the paths under one of [readonly] cannot be made or
    written. *)
Definition volume (readonly : list string) : AgentManager.Volume World :=
  AgentManager.Build_Volume World
    (fun _ path =>
       if existsb (fun prefix => startsWith prefix path) readonly
       then Some (mkError ("EACCES: permission denied, open '" +:+ path +:+ "'"))
       else None).

(** A volume that refuses nothing. *)
Definition writable : AgentManager.Volume World := volume [].


End Eval.

(** * Vocabulary of the statements

    The notions the properties below are stated with: the words of the
    specification (eligibility, pre-order), the outcome of a backend call, and
    closed forms of what the loops of the engine compute. *)

(** ** The normalization for Google *)

Section NormalizationTerms.
Import LLMService.

(** What the second loop makes of one conversation message. *)
Definition coerced (msg : BaseMessage) : BaseMessage :=
  if decide (getType msg = human) then msg
  else if bool_decide (getType msg = ai) || bool_decide (getType msg = system)
       then AIMessage (content msg)
       else msg.

End NormalizationTerms.

(** ** The backend call of [chat] *)

Section ChatTerms.
Context {World : Type} `{!Backend World}.
Import LLMService.

(** The call [chat] makes to the backend of a configured service: its outcome
    and the world after it. *)
Definition backendCall (this : t) (messages : list BaseMessage) (w : World)
    : option (StreamOutcome * World) :=
  m ← model this; Some (stream w m (processedMessages this messages)).

(** The backend raises [e] during the call: the stream fails before the
    timer fires, or the timer fires before the stream has settled. *)
Inductive Raises (o : StreamOutcome) : Error → Prop :=
| raises_in_stream (e : Error) (t : N) :
    ending o = StreamError e → settledAfter o = Some t → (t < timeout_ms)%N → Raises o e
| raises_timeout_late (t : N) :
    settledAfter o = Some t → (timeout_ms ≤ t)%N → Raises o timeoutError
| raises_timeout_never :
    settledAfter o = None → Raises o timeoutError.

End ChatTerms.

(** ** Task trees and references *)

(** The words of the specification: a node is eligible for decomposition when
    its type is main-task, its [decomposed] flag is not true, and its children
    are empty or absent. *)
Definition eligible (node : TaskNode) : Prop :=
  type node = main_task
  ∧ decomposed node ≠ Some true
  ∧ (children node = None ∨ children node = Some []).

Global Instance eligible_dec (node : TaskNode) : Decision (eligible node).
Proof.
  unfold eligible.
  assert (Decision (children node = None ∨ children node = Some [])).
  { destruct (children node) as [[|c cs]|];
      [left; by right | right; by intros [|] | left; by left]. }
  assert (Decision (decomposed node ≠ Some true)).
  { destruct (decomposed node) as [[|]|]; [right; by intros Hne | left; done | left; done]. }
  apply _.
Defined.

(** The nodes of a tree in depth-first pre-order, each with its reference:
    a node comes before its children, and the sub-tree of a child before the
    sub-trees of the children after it. *)
Fixpoint preorder (node : TaskNode) (here : Ref) : list (Ref * TaskNode) :=
  (here, node) ::
  match node with
  | mkTaskNode _ _ _ _ (Some children) _ =>
      (fix each (rest : list TaskNode) (i : nat) : list (Ref * TaskNode) :=
         match rest with
         | [] => []
         | child :: rest => preorder child (here ++ [i]) ++ each rest (S i)
         end) children 0
  | mkTaskNode _ _ _ _ None _ => []
  end.

Section TreeTerms.
Import WorkflowEngine.

(** The references of the eligible nodes of an enumeration, in its order. *)
Definition eligible_refs (nodes : list (Ref * TaskNode)) : list Ref :=
  (filter (fun p => eligible p.2) nodes).*1.

(** The part of [preorder] that walks the children, from index [i] on. *)
Definition preorder_each (here : Ref) : list TaskNode → nat → list (Ref * TaskNode) :=
  fix each (rest : list TaskNode) (i : nat) : list (Ref * TaskNode) :=
    match rest with
    | [] => []
    | child :: rest => preorder child (here ++ [i]) ++ each rest (S i)
    end.

(** [preorder c here] lists the nodes of [c], each under its reference from
    [here]. *)
Definition lists_subtree (c : TaskNode) : Prop :=
  ∀ (here r : Ref) (n : TaskNode),
    (r, n) ∈ preorder c here ↔ ∃ r', r = here ++ r' ∧ deref c r' = Some n.

(** Two references are apart when neither leads through the other. *)
Definition apart (r1 r2 : Ref) : Prop := ¬ r1 `prefix_of` r2 ∧ ¬ r2 `prefix_of` r1.

(** References that are pairwise apart. *)
Inductive AllApart : list Ref → Prop :=
| AllApart_nil : AllApart []
| AllApart_cons (r : Ref) (rest : list Ref) :
    Forall (apart r) rest → AllApart rest → AllApart (r :: rest).

End TreeTerms.

(** ** The engine *)

Section EngineTerms.
Context {World : Type} `{!Backend World} `{!Runtime}.
Import WorkflowEngine.

(** [this.context.chatHistory] *)
Definition history (s : State World) : list BaseMessage := chatHistory (context (engine s)).

(** [m] leaves the chat history as it is. *)
Definition keeps_history {A} (m : M World A) : Prop := ∀ s, history (m s).2 = history s.

(** [m] ends in a value from [s]. *)
Definition returns {A} (m : M World A) (s : State World) : Prop := ∃ a, (m s).1 = Return a.

(** The state after [this.context.chatHistory.push(m)]. *)
Definition pushed (m : BaseMessage) (s : State World) : State World :=
  mkState (push_chatHistory m (engine s)) (disk s) (world s).

(** The step handler chosen by the [switch] of [processMessage]. *)
Definition dispatch (step : WorkflowStep) : M World string :=
  match step with
  | INITIATION => handleInitiationStep
  | TASK_GENERATION => ret "I am generating the initial task list..."
  | DECOMPOSITION => handleDecompositionStep
  | _ => ret ("I am not ready for step " +:+ decimal (step_number step) +:+ " yet.")
  end.

(** A session: the messages of the user, processed one after the other. *)
Fixpoint session (userMessages : list string) (s : State World) : State World :=
  match userMessages with
  | [] => s
  | userMessage :: rest => session rest (processMessage userMessage s).2
  end.

(** The confirmation test of the INITIATION step. *)
Definition confirms_generation (text : string) : bool :=
  includes text "yes" || includes text "proceed" || includes text "looks good".

(** The keyword sets of the DECOMPOSITION step. *)
Definition confirmation_keywords : list string := ["decompose"; "yes"; "proceed"; "break"].
Definition skip_keywords : list string := ["skip"; "next"].

(** [text] contains one of the keywords. *)
Definition mentions (text : string) (keywords : list string) : bool :=
  existsb (includes text) keywords.

(** The generation call of [generateHighLevelTasks], made from [s]. *)
Definition generationCall (s : State World) : Completion string * World :=
  LLMService.chat (llm (engine s)) [HumanMessage (generationPrompt (history s))] (world s).

(** Where [tasks.json] of the project is. *)
Definition tasksPath (s : State World) : string :=
  path_join [AgentFileSystem.projectRoot (fs (engine s)); "tasks.json"].

(** The error of [fs.readFile] for a file that is not there. *)
Definition enoent (path : string) : Error :=
  mkError ("ENOENT: no such file or directory, open '" +:+ path +:+ "'").

(** The state in which task [i] is generated: after the delay, for every task
    but the first. *)
Definition slept (i : nat) (s : State World) : State World :=
  if decide (0 < i) then mkState (engine s) (disk s) (sleep 1500 (world s)) else s.

(** The generations of a run, in order: what [decomposeTask] ends in for each
    task, and the state after the last. *)
Fixpoint attempts (i : nat) (tasks : list TaskNode) (projectName : string) (s : State World)
    : list (Completion (list TaskNode)) * State World :=
  match tasks with
  | [] => ([], s)
  | task :: rest =>
      let '(c, s) := decomposeTask task projectName (slept i s) in
      let '(cs, s) := attempts (S i) rest projectName s in
      (c :: cs, s)
  end.

(** What one generation makes of its task. *)
Definition outcome (node : TaskNode) (c : Completion (list TaskNode)) : TaskNode :=
  match c with
  | Return subTasks => if decide (0 < length subTasks) then attach subTasks node else node
  | Throw _ => node
  end.

(** The line of the report for one generation, if it gets one. *)
Definition report (node : TaskNode) (c : Completion (list TaskNode)) : option string :=
  match c with
  | Return subTasks =>
      if decide (0 < length subTasks) then Some (successLine node subTasks) else None
  | Throw e => Some (failureLine node e)
  end.

(** The generation counts in [decomposedCount]. *)
Definition succeeded (c : Completion (list TaskNode)) : bool :=
  match c with
  | Return subTasks => bool_decide (0 < length subTasks)
  | Throw _ => false
  end.

(** The locals after the body of the loop, for the task at [task]. *)
Definition settle (task : Ref) (node : TaskNode) (c : Completion (list TaskNode))
    (l : Locals) : Locals :=
  match c with
  | Return subTasks =>
      if decide (0 < length subTasks)
      then mkLocals (assign (attach subTasks) (rootTask l) task)
                    (decomposedCount l + 1)
                    (results l ++ [successLine node subTasks])
      else l
  | Throw e => mkLocals (rootTask l) (decomposedCount l) (results l ++ [failureLine node e])
  end.

(** The locals after the loop, from the outcomes of the generations. *)
Fixpoint settleAll (tasks : list Ref) (nodes : list TaskNode)
    (cs : list (Completion (list TaskNode))) (l : Locals) : Locals :=
  match tasks, nodes, cs with
  | task :: tasks, node :: nodes, c :: cs => settleAll tasks nodes cs (settle task node c l)
  | _, _, _ => l
  end.

(** The lines of the report and the count of a run. *)
Definition lines (nodes : list TaskNode) (cs : list (Completion (list TaskNode)))
    : list string :=
  omap (fun '(node, c) => report node c) (zip nodes cs).

(** How many generations count in [decomposedCount]. *)
Definition successes (cs : list (Completion (list TaskNode))) : nat :=
  length (filter (fun c => succeeded c = true) cs).

End EngineTerms.

(** ** Example states

    States of the engine on the evaluation runtime and the scripted backend. *)

Section Examples.
Import WorkflowEngine.
#[local] Existing Instance Eval.runtime.
#[local] Existing Instance Eval.backend.

(** The storage of a project at [/project]. *)
Definition projectFiles : AgentFileSystem.t := AgentFileSystem.new "/project".

(** A new engine in an empty project directory; no provider is configured. *)
Definition fresh : State Eval.World :=
  mkState (WorkflowEngine.new projectFiles) ∅ (Eval.mkWorld [] 0).

(** An engine with a provider, at the DECOMPOSITION step, over the given
    files and backend script. *)
Definition atDecomposition (files : Disk) (script : list StreamOutcome) : State Eval.World :=
  mkState
    (set_llm (LLMService.configured LLMService.new openai "gpt-4o" (Some "sk-test"))
       (set_currentStep DECOMPOSITION (WorkflowEngine.new projectFiles)))
    files (Eval.mkWorld script 0).

(** A project of three main tasks: one with an empty list of children, one
    without the field, one with an empty list and the flag at false. *)
Definition backendTask : TaskNode := mkTaskNode "1" "Backend" pending main_task (Some []) None.
Definition frontendTask : TaskNode := mkTaskNode "2" "Frontend" pending main_task None None.
Definition deploymentTask : TaskNode :=
  mkTaskNode "3" "Deployment" pending main_task (Some []) (Some false).

Definition todoApp : TaskNode :=
  mkTaskNode "root" "Todo app" pending project
    (Some [backendTask; frontendTask; deploymentTask]) None.

(** A sub-task as the decomposition prompt asks for it. *)
Definition subTask (i t : string) : TaskNode := mkTaskNode i t pending sub_task (Some []) None.

(** The JSON text of a sub-task as a model writes it. *)
Definition subTaskText (i t : string) : string :=
  tpl "{ `id`: `" +:+ i +:+ tpl "`, `title`: `" +:+ t +:+
  tpl "`, `type`: `sub-task`, `status`: `pending`, `children`: [] }".

(** A project directory that holds [tasks.json] with the given tree. *)
Definition withTasks (root : TaskNode) : Disk :=
  {[ "/project/tasks.json" := Eval.JSON_stringify root ]}.

(** The tree in [tasks.json], read back. *)
Definition persisted (s : State Eval.World) : option TaskNode :=
  text ← disk s !! "/project/tasks.json";
  match Eval.JSON_parse_node text with
  | Return root => Some root
  | Throw _ => None
  end.

(** The number of children of the persisted node at [task]. *)
Definition persistedChildren (s : State Eval.World) (task : Ref) : option nat :=
  root ← persisted s; node ← deref root task; length <$> children node.

(** The backend script of a run over [todoApp]: two sub-tasks for the first
    task, a failing call for the second, one sub-task for the third. *)
Definition twoFailOne : list StreamOutcome :=
  [ Eval.answers ("```json" +:+ nl +:+ "[" +:+ subTaskText "1-1" "Design the schema" +:+ ","
                  +:+ subTaskText "1-2" "Write the API" +:+ "]" +:+ nl +:+ "```");
    Eval.fails "rate limit";
    Eval.answers ("[" +:+ subTaskText "3-1" "Write the Dockerfile" +:+ "]") ].

End Examples.

(** ** What a session keeps *)

Section FurtherTerms.
Context {World : Type} `{!Backend World} `{!Runtime}.
Import WorkflowEngine.

(** [m] takes every state to one that [R] relates to it. *)
Definition preserves (R : relation (State World)) {A} (m : M World A) : Prop :=
  ∀ s, R s (m s).2.

(** The fields of the engine that no method assigns: the service, the
    storage, and the name, description and requirements of the project. *)
Definition same_setup (s s' : State World) : Prop :=
  llm (engine s') = llm (engine s)
  ∧ fs (engine s') = fs (engine s)
  ∧ name (context (engine s')) = name (context (engine s))
  ∧ description (context (engine s')) = description (context (engine s))
  ∧ requirements (context (engine s')) = requirements (context (engine s)).

(** The engine is the same. *)
Definition same_engine (s s' : State World) : Prop := engine s' = engine s.

(** The place of a backup of the given name. *)
Definition backupPath (s : State World) (backupName : string) : string :=
  path_join [AgentFileSystem.backupDir (fs (engine s)); backupName].

(** Every file other than [tasks.json] and the backups is the same. *)
Definition same_other_files (s s' : State World) : Prop :=
  fs (engine s') = fs (engine s)
  ∧ ∀ p : string,
      p ≠ tasksPath s → (∀ backupName, p ≠ backupPath s backupName) →
      disk s' !! p = disk s !! p.

(** The step is the same, or one of [targets]. *)
Definition steps_within (targets : list WorkflowStep) (s s' : State World) : Prop :=
  currentStep (engine s') = currentStep (engine s) ∨ currentStep (engine s') ∈ targets.

(** The step did not go back. *)
Definition step_not_before (s s' : State World) : Prop :=
  step_number (currentStep (engine s)) ≤ step_number (currentStep (engine s')).

(** The fields of a node that are its own: everything but its children and
    its flag. *)
Definition same_fields (n n' : TaskNode) : Prop :=
  id n' = id n ∧ title n' = title n ∧ status n' = status n ∧ type n' = type n.

(** The reply of the steps that have no handler. *)
Definition placeholder (step : WorkflowStep) : string :=
  match step with
  | TASK_GENERATION => "I am generating the initial task list..."
  | _ => "I am not ready for step " +:+ decimal (step_number step) +:+ " yet."
  end.

End FurtherTerms.


(** ** Fences *)

(** The character of which the fences around a response are made. *)
Definition backquote : string := String (ascii_of_nat 96) "".

(** ** Model discovery *)

Section DiscoveryTerms.
Import ModelDiscovery.

(** The name of a provider in the error messages of [getAvailableModels]. *)
Definition label (p : LLMProvider) : string :=
  match p with
  | openai => "OpenAI" | anthropic => "Anthropic" | google => "Google" | ollama => "Ollama"
  end.

(** The providers whose listing is asked for with a key. *)
Definition needs_key (p : LLMProvider) : bool :=
  match p with ollama => false | _ => true end.

(** An entry with an [id] only, and one with a [name] and a [displayName]. *)
Definition entry (id : string) : Entry := mkEntry id "" None None.

Definition named (name : string) (displayName : option string) : Entry :=
  mkEntry "" name None displayName.

(** A response with status 200 and the given body. *)
Definition served (body : Body) : Completion Response :=
  Return (mkResponse true "OK" (Return body)).

(** A network on which only [request] is served, with [body]; any other
    request fails. *)
Definition serving (request : Request) (body : Body) : Request → Completion Response :=
  fun asked =>
    if bool_decide (url asked = url request ∧ headers asked = headers request)
    then served body
    else Throw (TypeError "fetch failed").

(** A network that turns every request away with the given status text. *)
Definition refusing (statusText : string) : Request → Completion Response :=
  fun _ => Return (mkResponse false statusText (Throw (mkError "Unexpected end of JSON input"))).

Definition openaiListing : Body :=
  mkBody [entry "gpt-4o"; entry "whisper-1"; entry "dall-e-3"; entry "chatgpt-4o-latest"] None.

Definition googleListing : Body :=
  mkBody []
    (Some [named "models/gemini-1.5-pro" (Some "Gemini 1.5 Pro");
           named "models/gemini-1.5-flash" None;
           named "models/embedding-001" (Some "")]).

End DiscoveryTerms.


(** ** The manager *)

Section ManagerTerms.
Context {World : Type} `{!Backend World} `{!Runtime}.

(** The manager serves the project at [projectPath]: it has an engine over
    the files of that directory. *)
Definition serves (projectPath : string) (s : AgentManager.State World) : Prop :=
  AgentManager.projectPath (AgentManager.manager s) = Some projectPath
  ∧ ∃ engine, AgentManager.workflow (AgentManager.manager s) = Some engine
              ∧ WorkflowEngine.fs engine = AgentFileSystem.new projectPath.

(** The state of the engine of a manager, if it has one. *)
Definition engine_state (s : AgentManager.State World) : option (WorkflowEngine.State World) :=
  engine ← AgentManager.workflow (AgentManager.manager s);
  Some (WorkflowEngine.mkState engine (AgentManager.disk s) (AgentManager.world s)).

(** Where the settings of the project at [projectPath] are. *)
Definition settingsPath (projectPath : string) : string :=
  path_join [projectPath; ".agent_workspace"; "settings.json"].

(** The directories that [initializeProject] makes, in the order it makes
    them. *)
Definition directories (projectPath : string) : list string :=
  [ AgentFileSystem.backupDir (AgentFileSystem.new projectPath);
    path_join [path_join [projectPath; ".agent_workspace"]; "history"];
    path_join [path_join [projectPath; ".agent_workspace"]; "snapshots"] ].

(** An engine as the constructor leaves it, whatever its service. *)
Definition starts_anew (e : WorkflowEngine.t) : Prop :=
  WorkflowEngine.currentStep e = INITIATION
  ∧ WorkflowEngine.isDecomposing e = false
  ∧ chatHistory (WorkflowEngine.context e) = [].

End ManagerTerms.

Section ManagerExamples.
#[local] Existing Instance Eval.runtime.
#[local] Existing Instance Eval.backend.
#[local] Existing Instance Eval.codec.
#[local] Existing Instance Eval.models.
#[local] Existing Instance Eval.writable.

(** A manager before any project is opened, over the given files. *)
Definition started (files : Disk) (script : list StreamOutcome)
    : AgentManager.State Eval.World :=
  AgentManager.mkState AgentManager.new files (Eval.mkWorld script 0).

(** The manager after [/project] was opened over the given files. *)
Definition projectOpened (files : Disk) (script : list StreamOutcome)
    : AgentManager.State Eval.World :=
  (AgentManager.initializeProject "/project" (started files script)).2.

Definition gpt4o : AgentManager.LLMConfig :=
  AgentManager.mkConfig openai "gpt-4o" (Some "sk-test").

(** The manager after [/project] was opened and the provider configured. *)
Definition projectConfigured (files : Disk) (script : list StreamOutcome)
    : AgentManager.State Eval.World :=
  (AgentManager.configure_llm gpt4o (projectOpened files script)).2.

(** An engine with a provider, at the INITIATION step, over the given files
    and backend script. *)
Definition atInitiation (files : Disk) (script : list StreamOutcome)
    : WorkflowEngine.State Eval.World :=
  WorkflowEngine.mkState
    (WorkflowEngine.set_llm (LLMService.configured LLMService.new openai "gpt-4o" (Some "sk-test"))
       (WorkflowEngine.new projectFiles))
    files (Eval.mkWorld script 0).

(** An engine at the given step. *)
Definition atStep (step : WorkflowStep) : WorkflowEngine.State Eval.World :=
  WorkflowEngine.mkState (WorkflowEngine.set_currentStep step (WorkflowEngine.new projectFiles))
    ∅ (Eval.mkWorld [] 0).

(** A project whose only main task is decomposed already. *)
Definition decomposedApp : TaskNode :=
  mkTaskNode "root" "Todo app" pending project
    (Some [mkTaskNode "1" "Backend" pending main_task
             (Some [subTask "1-1" "Design the schema"]) (Some true)])
    None.

(** The JSON text of a project of two main tasks, as a model writes it,
    inside a fence. *)
Definition shopText : string :=
  "```json" +:+ nl +:+
  tpl "{ `id`: `root`, `title`: `Shop`, `type`: `project`, `status`: `pending`, `children`: [" +:+
  tpl "{ `id`: `1`, `title`: `Catalogue`, `type`: `main-task`, `status`: `pending`, `children`: [] }," +:+
  tpl "{ `id`: `2`, `title`: `Checkout`, `type`: `main-task`, `status`: `pending`, `children`: [] }" +:+
  "] }" +:+ nl +:+ "```".

Definition shop : TaskNode :=
  mkTaskNode "root" "Shop" pending project
    (Some [mkTaskNode "1" "Catalogue" pending main_task (Some []) None;
           mkTaskNode "2" "Checkout" pending main_task (Some []) None])
    None.

End ManagerExamples.


(** * Properties *)

(** ** Strings *)

Lemma append_cons (a : ascii) (s t : string) : String a s +:+ t = String a (s +:+ t).
Proof. reflexivity. Qed.

Lemma append_nil (t : string) : "" +:+ t = t.
Proof. reflexivity. Qed.

Lemma startsWith_app (p rest : string) : startsWith p (p +:+ rest) = true.
Proof.
  induction p as [|a p IH]; [done|].
  rewrite append_cons. simpl. by rewrite decide_True.
Qed.

Lemma includes_here (p rest : string) : includes (p +:+ rest) p = true.
Proof.
  destruct p as [|a p].
  - rewrite append_nil. by destruct rest.
  - rewrite append_cons. simpl. by rewrite decide_True, startsWith_app.
Qed.

Lemma includes_skip (pre s p : string) :
  includes s p = true → includes (pre +:+ s) p = true.
Proof.
  intros H. induction pre as [|a pre IH]; [done|].
  rewrite append_cons. simpl. rewrite IH. apply orb_true_r.
Qed.

(** A text built around [p] includes [p]. *)
Lemma includes_embedded (pre p post : string) :
  includes (pre +:+ p +:+ post) p = true.
Proof. apply includes_skip, includes_here. Qed.

Lemma string_app_assoc (a b c : string) : (a +:+ b) +:+ c = a +:+ (b +:+ c).
Proof.
  induction a as [|x a IH]; [done|].
  rewrite !append_cons. by f_equal.
Qed.

(** [startsWith] and [includes] say what their names say. *)
Lemma startsWith_spec (p s : string) :
  startsWith p s = true ↔ ∃ post, s = p +:+ post.
Proof.
  split; [|intros [post ->]; apply startsWith_app].
  revert s. induction p as [|a p IH]; intros s Hs.
  - by exists s.
  - destruct s as [|b s]; simpl in Hs; [done|].
    destruct (decide (a = b)) as [->|]; [|done].
    destruct (IH s Hs) as [post ->]. by exists post.
Qed.

Lemma includes_spec (s p : string) :
  includes s p = true ↔ ∃ pre post, s = pre +:+ p +:+ post.
Proof.
  split; [|intros (pre & post & ->); apply includes_embedded].
  induction s as [|c s IH]; simpl; intros Hs.
  - rewrite orb_false_r in Hs. apply startsWith_spec in Hs as [post Hp]. by exists "", post.
  - apply orb_true_iff in Hs as [Hs|Hs].
    + apply startsWith_spec in Hs as [post Hp]. by exists "", post.
    + destruct (IH Hs) as (pre & post & ->). by exists (String c pre), post.
Qed.

(** The string functions on small inputs. *)
Example replace_all_fences :
  replace_all "```" "" (replace_all "```json" "" ("```json" +:+ nl +:+ "[1, 2]" +:+ nl +:+ "```"))
  = nl +:+ "[1, 2]" +:+ nl.
Proof. reflexivity. Qed.

Example join_lines : join ", " ["a"; "b"; "c"] = "a, b, c" ∧ join ", " [] = "".
Proof. by split. Qed.

Example decimal_digits : decimal 0 = "0" ∧ decimal 7 = "7" ∧ decimal 2026 = "2026".
Proof. by vm_compute. Qed.

Example includes_keyword :
  includes "well, yes please" "yes" = true ∧ includes "not now" "yes" = false.
Proof. by split. Qed.


(** ** LLMService: normalization for Google *)

Section Normalization.
Import LLMService.

Lemma split_loop (messages sys conv : list BaseMessage) :
  fold_left
    (fun '(systemMessages, conversationMessages) msg =>
       if decide (getType msg = system)
       then (push systemMessages msg, conversationMessages)
       else (systemMessages, push conversationMessages msg))
    messages (sys, conv)
  = (sys ++ filter (fun m => getType m = system) messages,
     conv ++ filter (fun m => getType m ≠ system) messages).
Proof.
  revert sys conv. induction messages as [|m messages IH]; intros sys conv; simpl.
  - by rewrite !app_nil_r.
  - rewrite !filter_cons. destruct (decide (getType m = system)) as [Hs|Hs].
    + rewrite IH. unfold push. rewrite decide_False by (intros Hn; by apply Hn).
      by rewrite <- app_assoc.
    + rewrite IH. unfold push. rewrite decide_True by done.
      by rewrite <- app_assoc.
Qed.

Lemma coerce_loop (conv result : list BaseMessage) :
  fold_left
    (fun result msg =>
       let type := getType msg in
       if decide (type = human) then push result msg
       else if bool_decide (type = ai) || bool_decide (type = system)
            then push result (AIMessage (content msg))
            else push result msg)
    conv result
  = result ++ map coerced conv.
Proof.
  revert result. induction conv as [|m conv IH]; intros result; simpl.
  - by rewrite app_nil_r.
  - rewrite IH. unfold coerced at 2, push.
    destruct (decide (getType m = human));
      [|destruct (bool_decide (getType m = ai) || bool_decide (getType m = system))];
      by rewrite <- app_assoc.
Qed.

(** The normalization in closed form: the combined system message, when its
    content is not empty, then the other messages, coerced, in their order. *)
Lemma preprocessForGoogle_eq (messages : list BaseMessage) :
  preprocessForGoogle messages =
  (let combined :=
     join (nl +:+ nl) (map content (filter (fun m => getType m = system) messages)) in
   if truthy combined then [SystemMessage combined] else [])
  ++ map coerced (filter (fun m => getType m ≠ system) messages).
Proof.
  unfold preprocessForGoogle. rewrite split_loop. simpl.
  rewrite coerce_loop. by destruct (truthy _).
Qed.

Lemma coerced_not_system (msg : BaseMessage) : getType (coerced msg) ≠ system.
Proof.
  unfold coerced. destruct (decide (getType msg = human)) as [->|Hh]; [done|].
  destruct (bool_decide (getType msg = ai) || bool_decide (getType msg = system)) eqn:E;
    [done|].
  apply orb_false_iff in E as [_ E]. by apply bool_decide_eq_false in E.
Qed.

Lemma no_system_after_coercion (conv : list BaseMessage) :
  filter (fun m => getType m = system) (map coerced conv) = [].
Proof.
  induction conv as [|m conv IH]; simpl; [done|].
  rewrite filter_cons, decide_False by apply coerced_not_system. done.
Qed.

(** C6. For every input sequence, the output of the Google normalization
    has a system-tagged message at position 0 at most: a message at any
    position tagged system is at position 0, and the output holds at most one
    system-tagged message. *)
Theorem preprocessForGoogle_system_first (messages : list BaseMessage) :
  (∀ (i : nat) (m : BaseMessage),
      preprocessForGoogle messages !! i = Some m → getType m = system → i = 0)
  ∧ length (filter (fun m => getType m = system) (preprocessForGoogle messages)) ≤ 1.
Proof.
  rewrite preprocessForGoogle_eq. simpl.
  set (combined := join _ _). set (conv := filter _ messages).
  split.
  - intros i m Hi Hm. destruct i as [|i]; [done|]. exfalso.
    assert (map coerced conv !! i = Some m ∨ ∃ j, map coerced conv !! j = Some m) as Hin.
    { destruct (truthy combined); simpl in Hi; [by left|]. right. by exists (S i). }
    assert (∃ j, map coerced conv !! j = Some m) as [j Hj] by (destruct Hin; eauto).
    rewrite list_lookup_fmap in Hj.
    destruct (conv !! j) as [m0|]; simplify_eq/=. by apply (coerced_not_system m0).
  - rewrite filter_app, no_system_after_coercion, app_nil_r.
    destruct (truthy combined); simpl; lia.
Qed.

End Normalization.

(** ** LLMService: chat *)

Lemma startsWith_refl (p : string) : startsWith p p = true.
Proof. induction p as [|a p IH]; simpl; [done|]. by rewrite decide_True. Qed.

Lemma includes_refl (p : string) : includes p p = true.
Proof. destruct p; simpl; [done|]. by rewrite decide_True, startsWith_refl. Qed.

Lemma includes_at_end (pre p : string) : includes (pre +:+ p) p = true.
Proof. apply includes_skip, includes_refl. Qed.

Section ChatProperties.
Context {World : Type} `{!Backend World}.
Import LLMService.

Lemma race_raises (o : StreamOutcome) (e : Error) : Raises o e → race o = Throw e.
Proof.
  intros [e' t He Ht Hlt|t Ht Hle|Ht]; unfold race, streamPromise; rewrite Ht; [| |done].
  - apply N.ltb_lt in Hlt. by rewrite Hlt, He.
  - apply N.ltb_ge in Hle. by rewrite Hle.
Qed.

Lemma configured_model (this0 : t) (provider : LLMProvider) (modelId : string)
    (apiKey : option string) :
  is_Some (model (configured this0 provider modelId apiKey))
  ∧ currentProvider (configured this0 provider modelId apiKey) = Some provider.
Proof. destruct provider; simpl; eauto. Qed.

(** A configured service answers every call with a reply. *)
Lemma chat_configured_returns (this : t) (messages : list BaseMessage) (w : World) :
  is_Some (model this) → ∃ reply, (chat this messages w).1 = Return reply.
Proof.
  intros [m Hm]. unfold chat. rewrite Hm.
  destruct (stream w m _) as [o w']. destruct (race o); eauto.
Qed.

(** C4. For every configured provider and every message list: when the
    backend raises an exception during the call (the stream fails, or the
    timer of 60000 ms fires first), [chat] returns the error text made of the
    provider's name and the error's message; and [chat] on the configured
    service returns a reply, never an exception, whatever the backend does. *)
Theorem chat_backend_error_is_reply
    (this0 : t) (provider : LLMProvider) (modelId : string) (apiKey : option string)
    (messages : list BaseMessage) (w w' : World) (o : StreamOutcome) (e : Error) :
  backendCall (configured this0 provider modelId apiKey) messages w = Some (o, w') →
  Raises o e →
  let reply := "Error connecting to " +:+ provider_name provider +:+ ": " +:+ message e in
  chat (configured this0 provider modelId apiKey) messages w = (Return reply, w')
  ∧ includes reply (provider_name provider) = true
  ∧ includes reply (message e) = true
  ∧ ∀ (messages0 : list BaseMessage) (w0 : World),
      ∃ reply0, (chat (configured this0 provider modelId apiKey) messages0 w0).1 = Return reply0.
Proof.
  intros Hcall Hraises reply.
  destruct (configured_model this0 provider modelId apiKey) as [[m Hm] Hp].
  repeat split.
  - unfold backendCall in Hcall. rewrite Hm in Hcall. simpl in Hcall.
    unfold chat. rewrite Hm. injection Hcall as Hcall. rewrite Hcall.
    rewrite (race_raises o e Hraises). by rewrite Hp.
  - apply includes_embedded.
  - unfold reply. rewrite <- !string_app_assoc. apply includes_at_end.
  - intros messages0 w0. apply chat_configured_returns. by rewrite Hm.
Qed.

(** Without a provider, the reply is built from the last message. *)
Lemma chat_unconfigured_last (this : t) (messages : list BaseMessage) (w : World)
    (lastMessage : BaseMessage) :
  model this = None → last messages = Some lastMessage →
  chat this messages w = (Return (mock_reply (content lastMessage)), w).
Proof. intros Hm Hlast. unfold chat. by rewrite Hm, Hlast. Qed.

(** C5, amended. For every message list that is not empty, [chat] on a
    service without a provider returns the mock reply built around the
    content of the last message, which it includes verbatim; it raises
    nothing and leaves the world as it is. *)
Theorem chat_unconfigured_mock (this : t) (messages : list BaseMessage) (w : World) :
  model this = None →
  messages ≠ [] →
  ∃ lastMessage,
    last messages = Some lastMessage
    ∧ chat this messages w = (Return (mock_reply (content lastMessage)), w)
    ∧ includes (mock_reply (content lastMessage)) (content lastMessage) = true.
Proof.
  intros Hm Hne. destruct (last messages) as [lastMessage|] eqn:Hlast.
  - exists lastMessage. split; [done|]. split.
    + by apply chat_unconfigured_last.
    + unfold mock_reply. rewrite <- (string_app_assoc _ dq). apply includes_embedded.
  - apply last_None in Hlast. done.
Qed.

End ChatProperties.

(** C4 at a call that never settles: the timer fires. *)
Lemma chat_backend_error_is_reply_witness :
  LLMService.chat (Backend0 := Eval.backend)
    (LLMService.configured LLMService.new google "gemini-pro" (Some "AIza-test"))
    [SystemMessage "Be brief."; HumanMessage "hello"]
    (Eval.mkWorld [Eval.hangs] 0)
  = (Return "Error connecting to google: Request timed out after 60 seconds",
     Eval.mkWorld [] 0).
Proof.
  exact (proj1 (chat_backend_error_is_reply (Backend0 := Eval.backend)
                  LLMService.new google "gemini-pro" (Some "AIza-test")
                  [SystemMessage "Be brief."; HumanMessage "hello"]
                  (Eval.mkWorld [Eval.hangs] 0) (Eval.mkWorld [] 0)
                  Eval.hangs LLMService.timeoutError
                  eq_refl (raises_timeout_never Eval.hangs eq_refl))).
Defined.

(** C5 at a one-message list. *)
Lemma chat_unconfigured_mock_witness :
  ∃ lastMessage,
    last [HumanMessage "build me a todo app"] = Some lastMessage
    ∧ LLMService.chat (Backend0 := Eval.backend) LLMService.new
        [HumanMessage "build me a todo app"] (Eval.mkWorld [] 0)
      = (Return (LLMService.mock_reply (content lastMessage)), Eval.mkWorld [] 0)
    ∧ includes (LLMService.mock_reply (content lastMessage)) (content lastMessage) = true.
Proof.
  apply (chat_unconfigured_mock (Backend0 := Eval.backend)); [reflexivity | discriminate].
Defined.

(** C5 as stated fails at the empty list: there is no last message to read,
    and the call ends in a thrown TypeError. *)
Lemma chat_unconfigured_empty_throws :
  LLMService.chat (Backend0 := Eval.backend) LLMService.new [] (Eval.mkWorld [] 0)
  = (Throw (TypeError "Cannot read properties of undefined (reading 'content')"),
     Eval.mkWorld [] 0).
Proof. reflexivity. Qed.

(** ** Task trees *)

Lemma TaskNode_nested_ind (P : TaskNode → Prop) :
  (∀ i t s k d, P (mkTaskNode i t s k None d)) →
  (∀ i t s k cs d, Forall P cs → P (mkTaskNode i t s k (Some cs) d)) →
  ∀ node, P node.
Proof.
  intros Hleaf Hnode. fix IH 1. intros [i t s k [cs|] d]; [|apply Hleaf].
  apply Hnode. induction cs as [|c cs IHcs]; constructor; [apply IH | exact IHcs].
Qed.

Section Traversal.
Import WorkflowEngine.

Lemma needsDecomposition_eligible (node : TaskNode) :
  needsDecomposition node = true ↔ eligible node.
Proof.
  unfold needsDecomposition, eligible, not_decomposed, no_children.
  destruct node as [i t s k cs d]; simpl.
  rewrite !andb_true_iff, bool_decide_eq_true.
  destruct d as [[|]|], cs as [[|c cs]|]; simpl; rewrite ?bool_decide_eq_true;
    intuition (auto; try congruence; try discriminate).
Qed.

Lemma eligible_refs_app (a b : list (Ref * TaskNode)) :
  eligible_refs (a ++ b) = eligible_refs a ++ eligible_refs b.
Proof. unfold eligible_refs. by rewrite filter_app, fmap_app. Qed.

Lemma findTasksToDecompose_preorder (node : TaskNode) :
  ∀ (here : Ref) (results : list Ref),
    findTasksToDecompose node here results
    = results ++ eligible_refs (preorder node here).
Proof.
  induction node as [i t s k d|i t s k cs d IH] using TaskNode_nested_ind;
    intros here results.
  - simpl. unfold eligible_refs. rewrite filter_cons. simpl.
    destruct (needsDecomposition _) eqn:E.
    + apply needsDecomposition_eligible in E. by rewrite decide_True.
    + rewrite decide_False; [by rewrite app_nil_r|].
      intros He. apply needsDecomposition_eligible in He. congruence.
  - cbn [findTasksToDecompose preorder].
    set (node := mkTaskNode i t s k (Some cs) d).
    change ((here, node) :: ?l) with ([(here, node)] ++ l).
    rewrite eligible_refs_app, app_assoc.
    assert ((if needsDecomposition node then results ++ [here] else results)
            = results ++ eligible_refs [(here, node)]) as ->.
    { unfold eligible_refs. rewrite filter_cons. simpl.
      destruct (needsDecomposition node) eqn:E.
      - apply needsDecomposition_eligible in E. by rewrite decide_True.
      - rewrite decide_False; [by rewrite app_nil_r|].
        intros He. apply needsDecomposition_eligible in He. congruence. }
    generalize (results ++ eligible_refs [(here, node)]) as acc.
    generalize 0 as n. clear node.
    induction IH as [|c rest Hc _ IHrest]; intros n acc.
    + by rewrite app_nil_r.
    + rewrite IHrest, Hc, eligible_refs_app. by rewrite app_assoc.
Qed.

Lemma preorder_unfold (node : TaskNode) (here : Ref) :
  preorder node here
  = (here, node) ::
    match children node with
    | Some cs => preorder_each here cs 0
    | None => []
    end.
Proof. by destruct node as [? ? ? ? [?|] ?]. Qed.

Lemma preorder_each_elem (here : Ref) (rest : list TaskNode) :
  Forall lists_subtree rest →
  ∀ (base : nat) (r : Ref) (n : TaskNode),
    (r, n) ∈ preorder_each here rest base
    ↔ ∃ j c r', rest !! j = Some c ∧ r = here ++ (base + j) :: r' ∧ deref c r' = Some n.
Proof.
  induction 1 as [|c rest Hc _ IHrest]; intros base r n; simpl.
  - split; [by intros ?%elem_of_nil | by intros (j & c & r' & ? & _)].
  - rewrite elem_of_app, (Hc _ r n), IHrest. split.
    + intros [(r' & -> & Hd)|(j & c' & r' & Hj & -> & Hd)].
      * exists 0, c, r'. rewrite Nat.add_0_r, <- app_assoc. done.
      * exists (S j), c', r'. rewrite Nat.add_succ_r. done.
    + intros ([|j] & c' & r' & Hj & -> & Hd); simplify_eq/=.
      * left. exists r'. by rewrite Nat.add_0_r, <- app_assoc.
      * right. exists j, c', r'. by rewrite Nat.add_succ_r.
Qed.

(** The enumeration lists the nodes of the tree, each under its reference. *)
Lemma preorder_deref (node : TaskNode) : lists_subtree node.
Proof.
  induction node as [i t s k d|i t s k cs d IH] using TaskNode_nested_ind;
    intros here r n.
  - simpl. rewrite list_elem_of_singleton. split.
    + intros [= -> ->]. exists []. by rewrite app_nil_r.
    + intros ([|j r'] & -> & Hd); simplify_eq/=. by rewrite app_nil_r.
  - rewrite preorder_unfold. cbn [children].
    rewrite elem_of_cons, (preorder_each_elem here cs IH 0). split.
    + intros [[= -> ->]|(j & c & r' & Hj & -> & Hd)].
      * exists []. by rewrite app_nil_r.
      * exists (j :: r'). simpl. by rewrite Hj.
    + intros ([|j r'] & -> & Hd).
      * left. simplify_eq/=. by rewrite app_nil_r.
      * right. simpl in Hd. destruct (cs !! j) as [c|] eqn:Hj; [|done].
        by exists j, c, r'.
Qed.

(** No reference is listed twice. *)
Lemma preorder_NoDup (node : TaskNode) : ∀ here : Ref, NoDup (preorder node here).*1.
Proof.
  induction node as [i t s k d|i t s k cs d IH] using TaskNode_nested_ind; intros here.
  - simpl. apply NoDup_singleton.
  - rewrite preorder_unfold. cbn [children]. rewrite fmap_cons. cbn [fst].
    assert (Forall lists_subtree cs) as Hcs by (apply Forall_forall; intros; apply preorder_deref).
    apply NoDup_cons. split.
    + intros ([r n] & Hr & Hin)%list_elem_of_fmap. simpl in Hr. subst r.
      apply (preorder_each_elem here cs Hcs) in Hin as (j & c & r' & _ & Heq & _).
      apply (f_equal length) in Heq. rewrite length_app in Heq. simpl in Heq. lia.
    + generalize 0 as base. clear -IH Hcs.
      induction IH as [|c rest Hc _ IHrest]; intros base; simpl; [constructor|].
      apply Forall_cons in Hcs as [Hc' Hrest].
      rewrite fmap_app. apply NoDup_app. split; [apply Hc|]. split; [|by apply IHrest].
      intros r ([r1 n1] & -> & (r' & Hr1 & _)%Hc')%list_elem_of_fmap
               ([r2 n2] & Heq & Hin)%list_elem_of_fmap.
      apply (preorder_each_elem here rest Hrest) in Hin as (j & c2 & r'' & _ & Hr2 & _).
      simpl in Heq. rewrite <- Heq, Hr1, <- app_assoc in Hr2.
      apply app_inv_head in Hr2. simpl in Hr2. injection Hr2 as Hr2 _. lia.
Qed.

(** C3. For every task tree, the traversal returns the references of exactly
    the eligible nodes (type main-task, [decomposed] not true, children empty
    or absent), in the depth-first pre-order of the tree; and that order
    enumerates the nodes of the tree, each at its reference. *)
Theorem findTasksToDecompose_exact (root : TaskNode) :
  findTasksToDecompose root [] [] = (filter (fun p => eligible p.2) (preorder root [])).*1
  ∧ (∀ (r : Ref) (n : TaskNode), (r, n) ∈ preorder root [] ↔ deref root r = Some n)
  ∧ (∀ r : Ref, r ∈ findTasksToDecompose root [] []
                ↔ ∃ n, deref root r = Some n ∧ eligible n).
Proof.
  assert (∀ r n, (r, n) ∈ preorder root [] ↔ deref root r = Some n) as Hnodes.
  { intros r n. rewrite (preorder_deref root [] r n). split.
    - by intros (r' & -> & Hd).
    - intros Hd. by exists r. }
  split; [apply (findTasksToDecompose_preorder root [] [])|]. split; [done|].
  intros r. rewrite (findTasksToDecompose_preorder root [] []). simpl.
  unfold eligible_refs. rewrite list_elem_of_fmap. split.
  - intros ([r' n] & -> & [He Hin]%list_elem_of_filter). exists n. by rewrite <- Hnodes.
  - intros (n & Hd & He). exists (r, n). split; [done|].
    apply list_elem_of_filter. by rewrite Hnodes.
Qed.

(** ** References into a tree *)

Lemma deref_app (root : TaskNode) (r1 r2 : Ref) :
  deref root (r1 ++ r2) = deref root r1 ≫= fun n => deref n r2.
Proof.
  revert root. induction r1 as [|i r1 IH]; intros root; simpl; [done|].
  destruct (children root) as [cs|]; [|done]. destruct (cs !! i); [apply IH|done].
Qed.

Lemma deref_assign_same (f : TaskNode → TaskNode) (r : Ref) :
  ∀ (root n : TaskNode), deref root r = Some n → deref (assign f root r) r = Some (f n).
Proof.
  induction r as [|i r IH]; intros root n Hd; simpl in *; [by simplify_eq|].
  destruct (children root) as [cs|] eqn:Hcs; [|done].
  destruct (cs !! i) as [c|] eqn:Hi; [|done]. simpl.
  rewrite list_lookup_alter_eq, Hi. simpl. by apply IH.
Qed.

Lemma apart_cons (i : nat) (r1 r2 : Ref) : apart (i :: r1) (i :: r2) → apart r1 r2.
Proof. intros [H1 H2]. split; intros Hp; [apply H1|apply H2]; by apply prefix_cons. Qed.

Lemma deref_assign_apart (f : TaskNode → TaskNode) (r1 : Ref) :
  ∀ (root : TaskNode) (r2 : Ref),
    apart r1 r2 → deref (assign f root r1) r2 = deref root r2.
Proof.
  induction r1 as [|i r1 IH]; intros root r2 Hap.
  - destruct Hap as [Hap _]. destruct Hap. apply prefix_nil.
  - destruct r2 as [|j r2]; [destruct Hap as [_ Hap]; destruct Hap; apply prefix_nil|].
    simpl. destruct (children root) as [cs|] eqn:Hcs; simpl; [|by rewrite Hcs].
    destruct (decide (i = j)) as [->|Hne].
    + rewrite list_lookup_alter_eq. destruct (cs !! j) as [c|]; simpl; [|done].
      apply IH. by apply (apart_cons j).
    + by rewrite list_lookup_alter_ne.
Qed.

Lemma title_assign (f : TaskNode → TaskNode) (root : TaskNode) (r : Ref) :
  (∀ n, title (f n) = title n) → title (assign f root r) = title root.
Proof. intros Hf. destruct r as [|i r]; simpl; [apply Hf|]. by destruct (children root). Qed.

(** A node without children has nothing below it. *)
Lemma eligible_is_leaf (n : TaskNode) (i : nat) (r : Ref) :
  eligible n → deref n (i :: r) = None.
Proof. intros (_ & _ & [Hc|Hc]); simpl; by rewrite Hc. Qed.

(** Distinct references to eligible nodes are apart. *)
Lemma eligible_refs_apart (root : TaskNode) (r1 r2 : Ref) (n1 n2 : TaskNode) :
  deref root r1 = Some n1 → eligible n1 →
  deref root r2 = Some n2 → eligible n2 →
  r1 ≠ r2 → apart r1 r2.
Proof.
  assert (∀ r1 r2 n1 n2, deref root r1 = Some n1 → eligible n1 →
            deref root r2 = Some n2 → r1 ≠ r2 → ¬ r1 `prefix_of` r2) as Hone.
  { clear. intros r1 r2 n1 n2 H1 He1 H2 Hne [k ->].
    destruct k as [|i k]; [by rewrite app_nil_r in Hne|].
    rewrite deref_app, H1 in H2. change (deref n1 (i :: k) = Some n2) in H2.
    by rewrite (eligible_is_leaf n1 i k He1) in H2. }
  intros H1 He1 H2 He2 Hne. split; [by eapply Hone|]. eapply Hone; eauto.
Qed.

Lemma findTasksToDecompose_NoDup (root : TaskNode) :
  NoDup (findTasksToDecompose root [] []).
Proof.
  rewrite (findTasksToDecompose_preorder root [] []). simpl. unfold eligible_refs.
  pose proof (preorder_NoDup root []) as Hnd.
  induction (preorder root []) as [|[r n] l IH]; simpl in *; [constructor|].
  apply NoDup_cons in Hnd as [Hnotin Hnd]. rewrite filter_cons.
  destruct (decide _); simpl; [|by apply IH].
  apply NoDup_cons. split; [|by apply IH].
  intros ([r' n'] & -> & [_ Hin]%list_elem_of_filter)%list_elem_of_fmap.
  apply Hnotin. apply list_elem_of_fmap. by exists (r', n').
Qed.

Lemma findTasksToDecompose_found (root : TaskNode) (r : Ref) :
  r ∈ findTasksToDecompose root [] [] ↔ ∃ n, deref root r = Some n ∧ eligible n.
Proof.
  rewrite (findTasksToDecompose_preorder root [] []). simpl.
  unfold eligible_refs. rewrite list_elem_of_fmap. split.
  - intros ([r' n] & -> & [He Hin]%list_elem_of_filter). exists n.
    apply (preorder_deref root [] r' n) in Hin as (? & -> & ?). done.
  - intros (n & Hd & He). exists (r, n). split; [done|].
    apply list_elem_of_filter. split; [done|]. apply (preorder_deref root [] r n). eauto.
Qed.

Lemma findTasksToDecompose_AllApart (root : TaskNode) :
  AllApart (findTasksToDecompose root [] []).
Proof.
  pose proof (findTasksToDecompose_NoDup root) as Hnd.
  assert (∀ r, r ∈ findTasksToDecompose root [] [] →
               ∃ n, deref root r = Some n ∧ eligible n) as Hfound.
  { intros r. by rewrite findTasksToDecompose_found. }
  induction (findTasksToDecompose root [] []) as [|r rest IH]; [constructor|].
  apply NoDup_cons in Hnd as [Hnotin Hnd]. constructor.
  - apply Forall_forall. intros r' Hr'.
    destruct (Hfound r) as (n & Hd & He); [by left|].
    destruct (Hfound r') as (n' & Hd' & He'); [by right|].
    eapply eligible_refs_apart; eauto. by intros ->.
  - apply IH; [done|]. intros r' Hr'. apply Hfound. by right.
Qed.

End Traversal.

(** ** WorkflowEngine: what a method does to the state *)

Section EngineProperties.
Context {World : Type} `{!Backend World} `{!Runtime}.
Import WorkflowEngine.

#[local] Abbreviation keeps_history := (keeps_history (World := World)).

Lemma keeps_ret {A} (a : A) : keeps_history (ret (World := World) a).
Proof. by intros s. Qed.

Lemma keeps_throw {A} (e : Error) : keeps_history (throw (World := World) (A := A) e).
Proof. by intros s. Qed.

Lemma keeps_lift {A} (c : Completion A) : keeps_history (lift (World := World) c).
Proof. by intros s. Qed.

Lemma keeps_get {A} (field : t → A) : keeps_history (get (World := World) field).
Proof. by intros s. Qed.

Lemma keeps_bind {A B} (m : M World A) (k : A → M World B) :
  keeps_history m → (∀ a, keeps_history (k a)) → keeps_history (bind m k).
Proof.
  intros Hm Hk s. unfold bind. specialize (Hm s).
  destruct (m s) as [[a|e] s1]; simpl in *; [|done]. by rewrite Hk.
Qed.

Lemma keeps_try_catch {A} (body : M World A) (handler : Error → M World A) :
  keeps_history body → (∀ e, keeps_history (handler e)) →
  keeps_history (try_catch body handler).
Proof.
  intros Hm Hk s. unfold try_catch. specialize (Hm s).
  destruct (body s) as [[a|e] s1]; simpl in *; [done|]. by rewrite Hk.
Qed.

Lemma keeps_set_currentStep (step : WorkflowStep) :
  keeps_history (update (World := World) (set_currentStep step)).
Proof. by intros s. Qed.

Lemma keeps_set_isDecomposing (b : bool) :
  keeps_history (update (World := World) (set_isDecomposing b)).
Proof. by intros s. Qed.

Lemma keeps_llm_chat (messages : list BaseMessage) : keeps_history (llm_chat messages).
Proof. intros s. unfold llm_chat. by destruct (LLMService.chat _ _ _). Qed.

Lemma keeps_fs_readFile (relativePath : string) : keeps_history (fs_readFile relativePath).
Proof. by intros s. Qed.

Lemma keeps_fs_writeSafe (relativePath text : string) :
  keeps_history (fs_writeSafe relativePath text).
Proof.
  intros s. unfold fs_writeSafe. by destruct (AgentFileSystem.writeSafe _ _ _ _ _) as [[? ?] ?].
Qed.

Lemma keeps_do_sleep (ms : N) : keeps_history (do_sleep ms).
Proof. by intros s. Qed.

Ltac keeps_step :=
  first
    [ apply keeps_ret | apply keeps_throw | apply keeps_lift | apply keeps_get
    | apply keeps_set_currentStep | apply keeps_set_isDecomposing
    | apply keeps_llm_chat | apply keeps_fs_readFile | apply keeps_fs_writeSafe
    | apply keeps_do_sleep
    | apply keeps_bind; [|intros ?] | apply keeps_try_catch; [|intros ?]
    | match goal with
      | |- keeps_history (if ?b then _ else _) => destruct b
      | |- keeps_history (match ?x with _ => _ end) => destruct x
      end ].

Lemma keeps_lastUserMsg : keeps_history lastUserMsg.
Proof. unfold lastUserMsg. repeat keeps_step. Qed.

Lemma keeps_generateHighLevelTasks : keeps_history generateHighLevelTasks.
Proof. unfold generateHighLevelTasks. repeat keeps_step. Qed.

Lemma keeps_handleInitiationStep : keeps_history handleInitiationStep.
Proof.
  unfold handleInitiationStep.
  apply keeps_bind; [apply keeps_lastUserMsg|intros msg].
  destruct (_ || _); repeat keeps_step.
Qed.

Lemma keeps_decomposeTask (task : TaskNode) (projectName : string) :
  keeps_history (decomposeTask task projectName).
Proof. unfold decomposeTask. repeat keeps_step. Qed.

Lemma keeps_decomposeOne (i : nat) (task : Ref) (l : Locals) :
  keeps_history (decomposeOne i task l).
Proof.
  unfold decomposeOne. apply keeps_bind; [destruct (decide _); keeps_step|intros _].
  destruct (deref _ _); [|keeps_step].
  apply keeps_try_catch; [|intros e; keeps_step].
  apply keeps_bind; [apply keeps_decomposeTask|intros subTasks].
  destruct (decide _); keeps_step.
Qed.

Lemma keeps_decomposeEach (tasks : list Ref) :
  ∀ (i : nat) (l : Locals), keeps_history (decomposeEach i tasks l).
Proof.
  induction tasks as [|task rest IH]; intros i l; simpl; [keeps_step|].
  apply keeps_bind; [apply keeps_decomposeOne|intros l']. apply IH.
Qed.

Lemma keeps_runDecomposition : keeps_history runDecomposition.
Proof.
  unfold runDecomposition.
  apply keeps_bind; [keeps_step|intros _].
  apply keeps_try_catch; [|intros e; repeat keeps_step].
  apply keeps_bind; [keeps_step|intros tasksJson].
  destruct (negb _); [keeps_step|].
  apply keeps_bind; [keeps_step|intros parsed].
  destruct (decide _); [repeat keeps_step|].
  apply keeps_bind; [apply keeps_decomposeEach|intros l]. repeat keeps_step.
Qed.

Lemma keeps_handleDecompositionStep : keeps_history handleDecompositionStep.
Proof.
  unfold handleDecompositionStep.
  apply keeps_bind; [apply keeps_lastUserMsg|intros msg].
  destruct (_ || _ || _ || _).
  - apply keeps_bind; [keeps_step|intros [|]]; [keeps_step|apply keeps_runDecomposition].
  - destruct (_ || _); repeat keeps_step.
Qed.

Lemma returns_bind {A B} (m : M World A) (k : A → M World B) (s : State World) :
  returns m s → (∀ a s1, m s = (Return a, s1) → returns (k a) s1) →
  returns (bind m k) s.
Proof.
  intros [a Ha] Hk. unfold returns, bind.
  destruct (m s) as [[a'|e] s1] eqn:E; simpl in Ha; [|done]. by apply Hk.
Qed.

Lemma returns_try_catch {A} (body : M World A) (handler : Error → M World A) (s : State World) :
  (∀ e s1, returns (handler e) s1) → returns (try_catch body handler) s.
Proof.
  intros Hh. unfold returns, try_catch.
  destruct (body s) as [[a|e] s1]; simpl; [eauto|apply Hh].
Qed.

Lemma returns_ret {A} (a : A) (s : State World) : returns (ret a) s.
Proof. by exists a. Qed.

Lemma returns_update (f : t → t) (s : State World) : returns (update f) s.
Proof. by exists tt. Qed.

(** [chat] with at least one message returns a reply, configured or not. *)
Lemma chat_nonempty_returns (this : LLMService.t) (messages : list BaseMessage) (w : World) :
  messages ≠ [] → ∃ reply, (LLMService.chat this messages w).1 = Return reply.
Proof.
  intros Hne. destruct (LLMService.model this) as [m|] eqn:Hm.
  - apply chat_configured_returns. by rewrite Hm.
  - destruct (last messages) as [lm|] eqn:Hlast; [|by apply last_None in Hlast].
    rewrite (chat_unconfigured_last this messages w lm Hm Hlast). eauto.
Qed.

Lemma returns_llm_chat (messages : list BaseMessage) (s : State World) :
  messages ≠ [] → returns (llm_chat messages) s.
Proof.
  intros Hne. unfold returns, llm_chat.
  destruct (chat_nonempty_returns (llm (engine s)) messages (world s) Hne) as [reply Hr].
  destruct (LLMService.chat _ _ _) as [r w]. simpl in *. eauto.
Qed.

Lemma lastUserMsg_last (s : State World) (m : BaseMessage) :
  last (history s) = Some m → lastUserMsg s = (Return (toLowerCase (content m)), s).
Proof. intros Hl. unfold lastUserMsg, bind, get. simpl. unfold history in Hl. by rewrite Hl. Qed.

Lemma returns_lastUserMsg (s : State World) : history s ≠ [] → returns lastUserMsg s.
Proof.
  intros Hne. destruct (last (history s)) as [m|] eqn:Hl.
  - unfold returns. rewrite (lastUserMsg_last s m Hl). eauto.
  - by apply last_None in Hl.
Qed.

Lemma returns_generateHighLevelTasks (s : State World) : returns generateHighLevelTasks s.
Proof.
  unfold generateHighLevelTasks.
  apply returns_bind; [by exists (history s)|intros h s1 _].
  apply returns_bind; [by apply returns_llm_chat|intros response s2 _].
  apply returns_try_catch. intros e s3. apply returns_ret.
Qed.

Lemma returns_handleInitiationStep (s : State World) :
  history s ≠ [] → returns handleInitiationStep s.
Proof.
  intros Hne. unfold handleInitiationStep.
  apply returns_bind; [by apply returns_lastUserMsg|intros msg s1 _].
  destruct (_ || _).
  - apply returns_bind; [apply returns_update|intros _ s2 _].
    apply returns_generateHighLevelTasks.
  - apply returns_bind; [by eexists|intros c s2 _]. by apply returns_llm_chat.
Qed.

Lemma returns_runDecomposition (s : State World) : returns runDecomposition s.
Proof.
  unfold runDecomposition.
  apply returns_bind; [apply returns_update|intros _ s1 _].
  apply returns_try_catch. intros e s2.
  apply returns_bind; [apply returns_update|intros _ s3 _]. apply returns_ret.
Qed.

Lemma returns_handleDecompositionStep (s : State World) :
  history s ≠ [] → returns handleDecompositionStep s.
Proof.
  intros Hne. unfold handleDecompositionStep.
  apply returns_bind; [by apply returns_lastUserMsg|intros msg s1 _].
  destruct (_ || _ || _ || _).
  - apply returns_bind; [by eexists|intros [|] s2 _];
      [apply returns_ret|apply returns_runDecomposition].
  - destruct (_ || _); [|apply returns_ret].
    apply returns_bind; [apply returns_update|intros _ s2 _]. apply returns_ret.
Qed.

(** [processMessage] in one equation: push the user message, run the handler
    of the current step, push its reply. *)
Lemma processMessage_unfold (userMessage : string) (s : State World) :
  processMessage userMessage s =
  match dispatch (currentStep (engine s)) (pushed (HumanMessage userMessage) s) with
  | (Return response, s') => (Return response, pushed (AIMessage response) s')
  | (Throw e, s') => (Throw e, s')
  end.
Proof.
  unfold processMessage, bind, update, get, saveContext, ret, dispatch, pushed. simpl.
  destruct (currentStep (engine s)); simpl;
    repeat match goal with |- context [match ?m ?s with _ => _ end] =>
      destruct (m s) as [[?|?] ?] end; reflexivity.
Qed.

Lemma returns_dispatch (step : WorkflowStep) (s : State World) :
  history s ≠ [] → returns (dispatch step) s.
Proof.
  intros Hne. destruct step; simpl; try apply returns_ret.
  - by apply returns_handleInitiationStep.
  - by apply returns_handleDecompositionStep.
Qed.

Lemma keeps_dispatch (step : WorkflowStep) : keeps_history (dispatch step).
Proof.
  destruct step; simpl; try apply keeps_ret.
  - apply keeps_handleInitiationStep.
  - apply keeps_handleDecompositionStep.
Qed.

(** One invocation: a reply, and two entries more in the history. *)
Lemma processMessage_history (userMessage : string) (s : State World) :
  ∃ reply s',
    processMessage userMessage s = (Return reply, s')
    ∧ history s' = history s ++ [HumanMessage userMessage; AIMessage reply].
Proof.
  rewrite processMessage_unfold.
  set (s1 := pushed (HumanMessage userMessage) s).
  assert (history s1 = history s ++ [HumanMessage userMessage]) as H1 by done.
  assert (history s1 ≠ []) as Hne by (rewrite H1; by destruct (history s)).
  destruct (returns_dispatch (currentStep (engine s)) s1 Hne) as [reply Hr].
  pose proof (keeps_dispatch (currentStep (engine s)) s1) as Hk.
  destruct (dispatch _ s1) as [r s2]. simpl in Hr, Hk. subst r.
  exists reply, (pushed (AIMessage reply) s2). split; [done|].
  change (history (pushed (AIMessage reply) s2)) with (history s2 ++ [AIMessage reply]).
  by rewrite Hk, H1, <- app_assoc.
Qed.

Lemma session_history (userMessages : list string) :
  ∀ s : State World,
    history s `prefix_of` history (session userMessages s)
    ∧ length (history (session userMessages s)) = length (history s) + 2 * length userMessages.
Proof.
  induction userMessages as [|userMessage rest IH]; intros s; simpl.
  - split; [done|lia].
  - destruct (processMessage_history userMessage s) as (reply & s' & Hrun & Hh).
    rewrite Hrun. simpl. destruct (IH s') as [Hpre Hlen]. rewrite Hh in Hpre, Hlen.
    split.
    + etrans; [|exact Hpre]. by apply prefix_app_r.
    + rewrite Hlen, length_app. simpl. lia.
Qed.

(** C9. Every invocation of [processMessage] returns a reply and appends
    exactly two entries to the chat history: the user's message, tagged
    human, then the reply, tagged ai; the entries that were there stay in
    place before them.  So over a session the history only grows at its end,
    by two entries for each message. *)
Theorem processMessage_appends_two (userMessage : string) (s : State World) :
  (∃ reply s',
     processMessage userMessage s = (Return reply, s')
     ∧ history s' = history s ++ [mkMessage human userMessage; mkMessage ai reply])
  ∧ ∀ userMessages : list string,
      history s `prefix_of` history (session userMessages s)
      ∧ length (history (session userMessages s))
        = length (history s) + 2 * length userMessages.
Proof.
  split; [apply processMessage_history|]. intros userMessages. apply session_history.
Qed.

(** ** WorkflowEngine: the step handlers on a fresh user message *)

Lemma last_pushed (m : BaseMessage) (s : State World) :
  last (history (pushed m s)) = Some m.
Proof. unfold history, pushed. simpl. apply last_snoc. Qed.

Lemma lastUserMsg_pushed (userMessage : string) (s : State World) :
  lastUserMsg (pushed (HumanMessage userMessage) s)
  = (Return (toLowerCase userMessage), pushed (HumanMessage userMessage) s).
Proof. apply (lastUserMsg_last _ (HumanMessage userMessage)), last_pushed. Qed.

Lemma mentions_confirmation (text : string) :
  includes text "decompose" || includes text "yes" || includes text "proceed"
  || includes text "break" = mentions text confirmation_keywords.
Proof.
  unfold mentions. simpl.
  by destruct (includes text "decompose"), (includes text "yes"),
    (includes text "proceed"), (includes text "break").
Qed.

Lemma mentions_skip (text : string) :
  includes text "skip" || includes text "next" = mentions text skip_keywords.
Proof. unfold mentions. simpl. by destruct (includes text "skip"), (includes text "next"). Qed.

Lemma handleDecompositionStep_pushed (userMessage : string) (s : State World) :
  let s1 := pushed (HumanMessage userMessage) s in
  let text := toLowerCase userMessage in
  handleDecompositionStep s1 =
  if mentions text confirmation_keywords then
    if isDecomposing (engine s) then (Return alreadyDecomposingReply, s1)
    else runDecomposition s1
  else if mentions text skip_keywords then
    (Return skipReply, mkState (set_currentStep ANALYSIS (engine s1)) (disk s1) (world s1))
  else (Return decompositionMenu, s1).
Proof.
  intros s1 text. unfold handleDecompositionStep, bind. subst s1.
  rewrite lastUserMsg_pushed. fold text.
  rewrite mentions_confirmation, mentions_skip.
  destruct (mentions text confirmation_keywords).
  - unfold get. simpl. by destruct (isDecomposing (engine s)).
  - by destruct (mentions text skip_keywords).
Qed.

(** Task generation entered through the INITIATION confirmation, when the
    cleaned response does not parse: the reply is the failure message,
    nothing is written, and the step stays at TASK_GENERATION, where it was
    put before the call. *)
Lemma generation_parse_failure (userMessage response : string) (s : State World)
    (w' : World) (e : Error) :
  currentStep (engine s) = INITIATION →
  confirms_generation (toLowerCase userMessage) = true →
  generationCall (pushed (HumanMessage userMessage) s) = (Return response, w') →
  JSON_parse_node (cleanJson response) = Throw e →
  ∃ s', processMessage userMessage s = (Return parseFailureReply, s')
        ∧ disk s' = disk s
        ∧ isDecomposing (engine s') = isDecomposing (engine s)
        ∧ currentStep (engine s') = TASK_GENERATION.
Proof.
  intros Hstep Hyes Hcall Hparse. rewrite processMessage_unfold, Hstep. simpl.
  unfold handleInitiationStep, bind. rewrite lastUserMsg_pushed.
  unfold confirms_generation in Hyes. rewrite Hyes.
  unfold update at 1. cbn beta iota.
  unfold generateHighLevelTasks, bind, get, llm_chat, try_catch, lift. cbn beta iota.
  unfold generationCall, history in Hcall. cbn [engine disk world] in *.
  cbn [set_currentStep llm context] in *. rewrite Hcall. cbn beta iota.
  rewrite Hparse. eexists. split; [reflexivity|]. done.
Qed.

(** At TASK_GENERATION every message gets the same placeholder and the step
    does not move: nothing leads back to generation. *)
Lemma task_generation_is_final (userMessage : string) (s : State World) :
  currentStep (engine s) = TASK_GENERATION →
  ∃ s', processMessage userMessage s = (Return "I am generating the initial task list...", s')
        ∧ currentStep (engine s') = TASK_GENERATION
        ∧ disk s' = disk s ∧ world s' = world s.
Proof.
  intros Hstep. rewrite processMessage_unfold, Hstep. simpl.
  eexists. split; [reflexivity|]. done.
Qed.

(** ** WorkflowEngine: the DECOMPOSITION step *)

Lemma set_isDecomposing_back (this : t) :
  isDecomposing this = false →
  set_isDecomposing false (set_isDecomposing true this) = this.
Proof. destruct this. simpl. by intros ->. Qed.

(** A run without [tasks.json]: [readFile] rejects, the outer handler clears
    the flag and answers with the text of the error. *)
Lemma runDecomposition_file_absent (s : State World) :
  disk s !! tasksPath s = None →
  runDecomposition s
  = (Return (decompositionErrorReply (enoent (tasksPath s))),
     mkState (set_isDecomposing false (set_isDecomposing true (engine s))) (disk s) (world s)).
Proof.
  intros Habsent.
  unfold runDecomposition, bind, try_catch, update, fs_readFile, AgentFileSystem.readFile.
  cbn [engine disk world]. unfold tasksPath in Habsent.
  cbn [set_isDecomposing fs]. by rewrite Habsent.
Qed.

(** A run on an empty [tasks.json]: the guidance reply, and the flag stays
    set. *)
Lemma runDecomposition_file_empty (s : State World) :
  disk s !! tasksPath s = Some "" →
  runDecomposition s
  = (Return noTasksReply, mkState (set_isDecomposing true (engine s)) (disk s) (world s)).
Proof.
  intros Hempty.
  unfold runDecomposition, bind, try_catch, update, fs_readFile, AgentFileSystem.readFile.
  cbn [engine disk world]. unfold tasksPath in Hempty.
  cbn [set_isDecomposing fs]. by rewrite Hempty.
Qed.

(** The replies a run can end in. *)
Lemma runDecomposition_replies (s s' : State World) (r : Completion string) :
  runDecomposition s = (r, s') →
  ∃ reply, r = Return reply
    ∧ (reply = noTasksReply ∨ reply = allDecomposedReply
       ∨ (∃ lines count, reply = completeReply lines count)
       ∨ (∃ e, reply = decompositionErrorReply e)).
Proof.
  unfold runDecomposition, bind, try_catch, update, ret, lift, fs_readFile, fs_writeSafe.
  cbn [engine disk world]. intros Hrun.
  repeat (case_match; simplify_eq/=); eauto 10.
Qed.

Lemma run_reply_is_not_skipReply (reply : string) :
  reply = noTasksReply ∨ reply = allDecomposedReply
  ∨ (∃ lines count, reply = completeReply lines count)
  ∨ (∃ e, reply = decompositionErrorReply e) →
  reply ≠ skipReply.
Proof.
  intros [->|[->|[(lines & count & ->)|(e & ->)]]]; discriminate.
Qed.

(** C10, amended. In the DECOMPOSITION step the confirmation keywords are
    tested before the skip keywords: for every user message whose lowercased
    text contains a confirmation keyword and a skip keyword, the engine takes
    the confirmation branch - it answers that a decomposition is already in
    progress when the flag is set, and starts a decomposition run otherwise -
    and the reply is never that of the skip branch. *)
Theorem confirmation_before_skip (userMessage : string) (s : State World) :
  currentStep (engine s) = DECOMPOSITION →
  mentions (toLowerCase userMessage) confirmation_keywords = true →
  mentions (toLowerCase userMessage) skip_keywords = true →
  let s1 := pushed (HumanMessage userMessage) s in
  ∃ reply s2,
    (if isDecomposing (engine s)
     then reply = alreadyDecomposingReply ∧ s2 = s1
     else runDecomposition s1 = (Return reply, s2))
    ∧ processMessage userMessage s = (Return reply, pushed (AIMessage reply) s2)
    ∧ reply ≠ skipReply.
Proof.
  intros Hstep Hconfirm _ s1.
  rewrite processMessage_unfold, Hstep. cbn [dispatch].
  rewrite handleDecompositionStep_pushed, Hconfirm. fold s1.
  destruct (isDecomposing (engine s)).
  - exists alreadyDecomposingReply, s1. done.
  - destruct (runDecomposition s1) as [r s2] eqn:Hrun.
    destruct (runDecomposition_replies _ _ _ Hrun) as (reply & -> & Hforms).
    exists reply, s2. split; [done|]. split; [done|].
    by apply run_reply_is_not_skipReply.
Qed.

(** The run that is triggered when [tasks.json] is not there. *)
Lemma decomposition_without_tasks_file (userMessage : string) (s : State World) :
  currentStep (engine s) = DECOMPOSITION →
  isDecomposing (engine s) = false →
  mentions (toLowerCase userMessage) confirmation_keywords = true →
  disk s !! tasksPath s = None →
  let reply := decompositionErrorReply (enoent (tasksPath s)) in
  processMessage userMessage s
  = (Return reply, pushed (AIMessage reply) (pushed (HumanMessage userMessage) s)).
Proof.
  intros Hstep Hidle Hconfirm Habsent reply.
  rewrite processMessage_unfold, Hstep. cbn [dispatch].
  rewrite handleDecompositionStep_pushed, Hconfirm, Hidle.
  rewrite runDecomposition_file_absent by done.
  rewrite set_isDecomposing_back by done. done.
Qed.

(** ** WorkflowEngine: the decomposition loop *)

Lemma decomposeOne_settle (i : nat) (task : Ref) (l : Locals) (s : State World)
    (node : TaskNode) :
  deref (rootTask l) task = Some node →
  decomposeOne i task l s =
  let '(c, s') := decomposeTask node (title (rootTask l)) (slept i s) in
  (Return (settle task node c l), s').
Proof.
  intros Hd. unfold decomposeOne, slept.
  destruct (decide (0 < i)); unfold bind at 1, do_sleep, ret at 1; cbv beta iota;
    rewrite Hd; unfold try_catch, bind;
    (destruct (decomposeTask node (title (rootTask l)) _) as [[subTasks|e] s']; [|done]);
    unfold settle; by destruct (decide (0 < length subTasks)).
Qed.

Lemma settle_title (task : Ref) (node : TaskNode) (c : Completion (list TaskNode))
    (l : Locals) :
  title (rootTask (settle task node c l)) = title (rootTask l).
Proof.
  destruct c as [subTasks|e]; simpl; [|done].
  destruct (decide _); simpl; [|done]. by apply title_assign.
Qed.

Lemma settle_apart (task r : Ref) (node : TaskNode) (c : Completion (list TaskNode))
    (l : Locals) :
  apart task r → deref (rootTask (settle task node c l)) r = deref (rootTask l) r.
Proof.
  intros Hap. destruct c as [subTasks|e]; simpl; [|done].
  destruct (decide _); simpl; [|done]. by apply deref_assign_apart.
Qed.

Lemma settle_same (task : Ref) (node : TaskNode) (c : Completion (list TaskNode))
    (l : Locals) :
  deref (rootTask l) task = Some node →
  deref (rootTask (settle task node c l)) task = Some (outcome node c).
Proof.
  intros Hd. destruct c as [subTasks|e]; simpl; [|done].
  destruct (decide _); simpl; [|done]. by apply deref_assign_same.
Qed.

(** The loop in closed form. *)
Lemma decomposeEach_settleAll (tasks : list Ref) :
  ∀ (nodes : list TaskNode) (i : nat) (l : Locals) (s s' : State World)
    (cs : list (Completion (list TaskNode))),
    Forall2 (fun r n => deref (rootTask l) r = Some n) tasks nodes →
    AllApart tasks →
    attempts i nodes (title (rootTask l)) s = (cs, s') →
    decomposeEach i tasks l s = (Return (settleAll tasks nodes cs l), s').
Proof.
  induction tasks as [|task rest IH]; intros nodes i l s s' cs Hnodes Hap Hatt.
  - apply Forall2_nil_inv_l in Hnodes as ->. simpl in Hatt. by simplify_eq.
  - apply Forall2_cons_inv_l in Hnodes as (node & nodes' & Hd & Hrest & ->).
    inversion Hap as [|? ? Hfirst Hap']; subst.
    simpl in Hatt. simpl. unfold bind. rewrite (decomposeOne_settle i task l s node Hd).
    destruct (decomposeTask node (title (rootTask l)) (slept i s)) as [c s1].
    destruct (attempts (S i) nodes' (title (rootTask l)) s1) as [cs' s2] eqn:Hatt'.
    simplify_eq. simpl. apply IH; [|done|by rewrite settle_title].
    clear -Hrest Hfirst.
    induction Hrest as [|r n rest nodes' Hr _ IH']; [constructor|].
    apply Forall_cons in Hfirst as [Hr1 Hfirst]. constructor; [|by apply IH'].
    by rewrite settle_apart.
Qed.

Lemma attempts_length (nodes : list TaskNode) (projectName : string) :
  ∀ (i : nat) (s : State World), length (attempts i nodes projectName s).1 = length nodes.
Proof.
  induction nodes as [|node rest IH]; intros i s; simpl; [done|].
  destruct (decomposeTask node projectName (slept i s)) as [c s1].
  specialize (IH (S i) s1). destruct (attempts (S i) rest projectName s1) as [cs s2].
  simpl in *. by rewrite IH.
Qed.

Lemma apart_sym (r1 r2 : Ref) : apart r1 r2 → apart r2 r1.
Proof. by intros [? ?]. Qed.

Lemma settle_report (task : Ref) (node : TaskNode) (c : Completion (list TaskNode))
    (l : Locals) :
  results (settle task node c l) = results l ++ option_list (report node c)
  ∧ decomposedCount (settle task node c l)
    = decomposedCount l + (if succeeded c then 1 else 0).
Proof.
  destruct c as [subTasks|e]; simpl.
  - rewrite bool_decide_decide.
    destruct (decide _); simpl; [done|]. by rewrite app_nil_r, Nat.add_0_r.
  - by rewrite Nat.add_0_r.
Qed.

Lemma settleAll_report (tasks : list Ref) :
  ∀ (nodes : list TaskNode) (cs : list (Completion (list TaskNode))) (l : Locals),
    length tasks = length nodes → length nodes = length cs →
    results (settleAll tasks nodes cs l) = results l ++ lines nodes cs
    ∧ decomposedCount (settleAll tasks nodes cs l) = decomposedCount l + successes cs.
Proof.
  unfold lines, successes.
  induction tasks as [|task rest IH]; intros [|node nodes] [|c cs] l Hn Hc;
    simplify_eq/=; [by rewrite app_nil_r, Nat.add_0_r|].
  destruct (IH nodes cs (settle task node c l)) as [-> ->]; [done..|].
  destruct (settle_report task node c l) as [-> ->].
  rewrite filter_cons, <- app_assoc. split.
  - by destruct (report node c).
  - destruct (succeeded c); simpl; lia.
Qed.

Lemma settleAll_apart (tasks : list Ref) (r : Ref) :
  ∀ (nodes : list TaskNode) (cs : list (Completion (list TaskNode))) (l : Locals),
    Forall (apart r) tasks →
    deref (rootTask (settleAll tasks nodes cs l)) r = deref (rootTask l) r.
Proof.
  induction tasks as [|task rest IH]; intros [|node nodes] [|c cs] l Hap; simpl; try done.
  apply Forall_cons in Hap as [Hfirst Hap].
  rewrite IH by done. by apply settle_apart, apart_sym.
Qed.

Lemma settleAll_deref (tasks : list Ref) :
  ∀ (nodes : list TaskNode) (cs : list (Completion (list TaskNode))) (l : Locals)
    (j : nat) (task : Ref) (node : TaskNode) (c : Completion (list TaskNode)),
    AllApart tasks →
    tasks !! j = Some task → nodes !! j = Some node → cs !! j = Some c →
    deref (rootTask l) task = Some node →
    deref (rootTask (settleAll tasks nodes cs l)) task = Some (outcome node c).
Proof.
  induction tasks as [|task0 rest IH];
    intros [|node0 nodes] [|c0 cs] l j task node c Hap Hj Hn Hc Hd; try done.
  inversion Hap as [|? ? Hfirst Hap']; subst.
  destruct j as [|j]; simplify_eq/=.
  - rewrite settleAll_apart by done. by apply settle_same.
  - eapply IH; eauto. rewrite settle_apart; [done|].
    eapply Forall_forall in Hfirst; [done|]. by eapply list_elem_of_lookup_2.
Qed.

Lemma writeSafe_written (this : AgentFileSystem.t) (relativePath text : string)
    (d : Disk) (w : World) :
  ∃ d' w', AgentFileSystem.writeSafe this relativePath text d w
           = (Return (path_join [AgentFileSystem.projectRoot this; relativePath]), d', w')
           ∧ d' !! path_join [AgentFileSystem.projectRoot this; relativePath] = Some text.
Proof.
  unfold AgentFileSystem.writeSafe.
  destruct (d !! _) as [original|].
  - destruct (now w) as [timestamp w1]. destruct (uuidv4 w1) as [uuid w2].
    eexists _, _. split; [reflexivity|]. apply lookup_insert_eq.
  - eexists _, _. split; [reflexivity|]. apply lookup_insert_eq.
Qed.

(** The nodes behind the references of the traversal. *)
Lemma findTasksToDecompose_nodes (root : TaskNode) :
  Forall2 (fun r n => deref root r = Some n)
    (findTasksToDecompose root [] []) (omap (deref root) (findTasksToDecompose root [] [])).
Proof.
  assert (∀ r, r ∈ findTasksToDecompose root [] [] → is_Some (deref root r)) as Hfound.
  { intros r (n & Hn & _)%findTasksToDecompose_found. eauto. }
  induction (findTasksToDecompose root [] []) as [|r rest IH]; [constructor|].
  destruct (Hfound r) as [n Hn]; [by left|]. simpl. rewrite Hn. simpl.
  constructor; [done|]. apply IH. intros r' Hr'. apply Hfound. by right.
Qed.

(** A run over a tree with eligible tasks, in closed form. *)
Lemma runDecomposition_run (s : State World) (text : string) (root : TaskNode) :
  disk s !! tasksPath s = Some text →
  truthy text = true →
  JSON_parse_node text = Return root →
  findTasksToDecompose root [] [] ≠ [] →
  let tasks := findTasksToDecompose root [] [] in
  let nodes := omap (deref root) tasks in
  let started := mkState (set_isDecomposing true (engine s)) (disk s) (world s) in
  let cs := (attempts 0 nodes (title root) started).1 in
  let l := settleAll tasks nodes cs (mkLocals root 0 []) in
  ∃ s', runDecomposition s = (Return (completeReply (results l) (decomposedCount l)), s')
        ∧ disk s' !! tasksPath s = Some (JSON_stringify (rootTask l))
        ∧ currentStep (engine s') = ANALYSIS
        ∧ isDecomposing (engine s') = false.
Proof.
  intros Hfile Htext Hparse Hsome. cbv zeta.
  set (tasks := findTasksToDecompose root [] []) in *.
  set (nodes := omap (deref root) tasks).
  set (started := mkState (set_isDecomposing true (engine s)) (disk s) (world s)).
  unfold runDecomposition, bind at 1, update at 1. cbv beta iota. fold started.
  unfold try_catch, bind at 1, fs_readFile, AgentFileSystem.readFile.
  unfold tasksPath in Hfile. cbn [engine disk world set_isDecomposing fs started].
  rewrite Hfile. cbv beta iota. rewrite Htext. cbn [negb].
  unfold bind at 1, lift. rewrite Hparse. cbv beta iota. fold tasks.
  rewrite decide_False by (intros Hlen; by apply Hsome, nil_length_inv).
  unfold bind at 1.
  destruct (attempts 0 nodes (title root) started) as [cs s2] eqn:Hatt.
  rewrite (decomposeEach_settleAll tasks nodes 0 (mkLocals root 0 []) _ s2 cs);
    [|apply findTasksToDecompose_nodes|apply findTasksToDecompose_AllApart|exact Hatt].
  cbn [fst]. set (l := settleAll tasks nodes cs (mkLocals root 0 [])).
  unfold bind at 1, fs_writeSafe.
  destruct (writeSafe_written (fs (engine s2)) "tasks.json" (JSON_stringify (rootTask l))
              (disk s2) (world s2)) as (d' & w' & -> & Hwritten).
  cbv beta iota. unfold bind, update, ret. cbn.
  eexists. split; [reflexivity|]. cbn. split; [|done].
  assert (engine s2 = engine started) as He.
  { clear -Hatt. revert Hatt. generalize 0 as i. generalize started as s0. revert cs.
    induction nodes as [|node rest IH]; intros cs0 s0 i Hatt; simpl in Hatt; [by simplify_eq|].
    destruct (decomposeTask node (title root) (slept i s0)) as [c s1] eqn:Hone.
    destruct (attempts (S i) rest (title root) s1) as [cs1 s3] eqn:Hrest. simplify_eq.
    rewrite (IH _ _ _ Hrest).
    assert (engine s1 = engine (slept i s0)) as ->.
    { clear -Hone. unfold decomposeTask, bind, llm_chat, try_catch, lift, ret, throw in Hone.
      destruct (LLMService.chat _ _ _) as [[response|e] w]; simpl in Hone;
        repeat case_match; by simplify_eq. }
    unfold slept. by destruct (decide _). }
  by rewrite He in Hwritten.
Qed.

Lemma report_listed (nodes : list TaskNode) (cs : list (Completion (list TaskNode)))
    (j : nat) (node : TaskNode) (c : Completion (list TaskNode)) (line : string) :
  nodes !! j = Some node → cs !! j = Some c → report node c = Some line →
  line ∈ lines nodes cs.
Proof.
  intros Hn Hc Hline. unfold lines. apply list_elem_of_omap. exists (node, c).
  split; [|done]. apply list_elem_of_lookup. exists j.
  rewrite lookup_zip_with, Hn. simpl. by rewrite Hc.
Qed.

(** C2, amended. After a decomposition run over a tree with eligible tasks,
    for every node that was eligible at the start of the run: when its
    generation returned a list that is not empty, the node is, in the
    persisted tree, marked [decomposed = true] with that list as its
    children, and the reply has its success line; when its generation
    returned the empty list, the guard [subTasks.length > 0] leaves the node
    in the persisted tree as it was; when its generation failed, the reply
    has its failure line and the node is in the persisted tree as it was
    (children empty or absent as before, not marked).  So no task is both
    reported as failed and changed, and a task is changed only by a list
    that is not empty. *)
Theorem decomposition_run_outcomes (s : State World) (text : string) (root : TaskNode) :
  disk s !! tasksPath s = Some text →
  truthy text = true →
  JSON_parse_node text = Return root →
  findTasksToDecompose root [] [] ≠ [] →
  let tasks := findTasksToDecompose root [] [] in
  let nodes := omap (deref root) tasks in
  let started := mkState (set_isDecomposing true (engine s)) (disk s) (world s) in
  let cs := (attempts 0 nodes (title root) started).1 in
  ∃ (root' : TaskNode) (s' : State World),
    runDecomposition s = (Return (completeReply (lines nodes cs) (successes cs)), s')
    ∧ disk s' !! tasksPath s = Some (JSON_stringify root')
    ∧ ∀ (task : Ref) (node : TaskNode),
        deref root task = Some node → eligible node →
        ∃ (j : nat) (c : Completion (list TaskNode)),
          tasks !! j = Some task ∧ cs !! j = Some c ∧
          match c with
          | Return [] => deref root' task = Some node
          | Return subTasks =>
              deref root' task = Some (attach subTasks node)
              ∧ decomposed (attach subTasks node) = Some true
              ∧ children (attach subTasks node) = Some subTasks
              ∧ successLine node subTasks ∈ lines nodes cs
          | Throw e =>
              deref root' task = Some node
              ∧ failureLine node e ∈ lines nodes cs
          end.
Proof.
  intros Hfile Htext Hparse Hsome tasks nodes started cs.
  destruct (runDecomposition_run s text root Hfile Htext Hparse Hsome)
    as (s' & Hrun & Hdisk & _ & _).
  cbv zeta in Hrun, Hdisk. fold tasks nodes started cs in Hrun, Hdisk.
  set (l := settleAll tasks nodes cs (mkLocals root 0 [])) in *.
  pose proof (findTasksToDecompose_nodes root) as Hnodes. fold tasks nodes in Hnodes.
  assert (length nodes = length cs) as Hlen by (unfold cs; by rewrite attempts_length).
  assert (length tasks = length nodes) as Hlen' by (by eapply Forall2_length).
  destruct (settleAll_report tasks nodes cs (mkLocals root 0 []) Hlen' Hlen) as [Hres Hcount].
  fold l in Hres, Hcount. simpl in Hres, Hcount. rewrite Hres, Hcount in Hrun.
  exists (rootTask l), s'. split; [done|]. split; [done|].
  intros task node Hd He.
  assert (task ∈ tasks) as [j Hj]%list_elem_of_lookup
    by (apply findTasksToDecompose_found; eauto).
  destruct (Forall2_lookup_l _ _ _ _ _ Hnodes Hj) as (node' & Hnode & Hd').
  assert (node' = node) as -> by congruence.
  destruct (lookup_lt_is_Some_2 cs j) as [c Hc].
  { rewrite <- Hlen. by eapply lookup_lt_Some. }
  exists j, c. split; [done|]. split; [done|].
  pose proof (settleAll_deref tasks nodes cs (mkLocals root 0 []) j task node c
                (findTasksToDecompose_AllApart root) Hj Hnode Hc Hd) as Hout.
  fold l in Hout. destruct c as [[|subTask subTasks]|e]; simpl in Hout.
  - done.
  - split; [done|]. split; [done|]. split; [done|].
    by eapply report_listed.
  - split; [done|]. by eapply report_listed.
Qed.

(** C8, amended. When the generation for a task returns text that parses to
    a list, the body of the loop attaches that list, as parsed, as the
    task's children if it is not empty, and leaves the task as it was if it
    is empty.  So whenever the task is changed, its children are the parsed
    list and the list has at least one element; the loop puts no other bound
    on its length. *)
Theorem attached_children_are_the_parsed_list
    (i : nat) (task : Ref) (l : Locals) (s : State World) (node : TaskNode)
    (response : string) (w' : World) (subTasks : list TaskNode) :
  deref (rootTask l) task = Some node →
  LLMService.chat (llm (engine (slept i s)))
    [HumanMessage (decompositionPrompt node (title (rootTask l)))] (world (slept i s))
  = (Return response, w') →
  JSON_parse_nodes (cleanJson response) = Return subTasks →
  ∃ (l' : Locals) (s' : State World),
    decomposeOne i task l s = (Return l', s')
    ∧ deref (rootTask l') task
      = Some (match subTasks with [] => node | _ => attach subTasks node end)
    ∧ ∀ node',
        deref (rootTask l') task = Some node' → node' ≠ node →
        children node' = Some subTasks
        ∧ decomposed node' = Some true
        ∧ 1 ≤ length subTasks.
Proof.
  intros Hd Hchat Hparse.
  rewrite (decomposeOne_settle i task l s node Hd).
  unfold decomposeTask, bind, llm_chat, try_catch, lift, ret.
  rewrite Hchat. cbv beta iota. rewrite Hparse.
  pose proof (settle_same task node (Return subTasks) l Hd) as Hsame.
  eexists _, _. split; [reflexivity|].
  rewrite Hsame. simpl. destruct subTasks as [|subTask subTasks]; simpl.
  - split; [done|]. intros node' Hnode' Hne. congruence.
  - split; [done|]. intros node' Hnode' _. injection Hnode' as <-. simpl.
    split; [done|]. split; [done|]. lia.
Qed.

End EngineProperties.

(** * The engine at work

    Runs of the engine on the evaluation runtime and the scripted backend. *)

Section Runs.
Import WorkflowEngine.
#[local] Existing Instance Eval.runtime.
#[local] Existing Instance Eval.backend.

(** The generation scenario of the specification: at INITIATION the user
    confirms, and after this one turn the engine is at DECOMPOSITION,
    [tasks.json] holds a project with its main tasks, and the reply gives
    their number. *)
Example generation_scenario :
  let answer :=
    "```json" +:+ tpl "
{ `id`: `root`, `title`: `Todo app`, `type`: `project`, `status`: `pending`,
  `children`: [
    { `id`: `1`, `title`: `Backend`, `type`: `main-task`, `status`: `pending`, `children`: [] },
    { `id`: `2`, `title`: `Frontend`, `type`: `main-task`, `status`: `pending`, `children`: [] }
  ] }
" +:+ "```" in
  let s := mkState
             (set_llm (LLMService.configured LLMService.new ollama "llama3" None)
                (WorkflowEngine.new projectFiles))
             ∅ (Eval.mkWorld [Eval.answers answer] 0) in
  let after := processMessage "Let's build a todo app. Looks good, proceed." s in
  let root := mkTaskNode "root" "Todo app" pending project
                (Some [ mkTaskNode "1" "Backend" pending main_task (Some []) None;
                        mkTaskNode "2" "Frontend" pending main_task (Some []) None ]) None in
  after.1 = Return (generationReply root)
  ∧ includes (generationReply root) "**Tasks Created:** 2 high-level tasks" = true
  ∧ currentStep (engine after.2) = DECOMPOSITION
  ∧ persisted after.2 = Some root
  ∧ findTasksToDecompose root [] [] = [[0]; [1]].
Proof. vm_compute. repeat split. Qed.

(** C1, on the code.  From a new engine, a confirmation at INITIATION whose
    generation output does not parse is answered with the failure message,
    without an exception and without a write; but the step, INITIATION before
    the call, is TASK_GENERATION after it, and the next confirmation gets the
    placeholder of that step: generation is not tried again. *)
Lemma parse_failure_leaves_task_generation :
  let first := processMessage "yes" fresh in
  let second := processMessage "yes, let's try again" first.2 in
  currentStep (engine fresh) = INITIATION
  ∧ first.1 = Return parseFailureReply
  ∧ disk first.2 = disk fresh
  ∧ currentStep (engine first.2) = TASK_GENERATION
  ∧ second.1 = Return "I am generating the initial task list..."
  ∧ currentStep (engine second.2) = TASK_GENERATION
  ∧ disk second.2 = disk fresh.
Proof. vm_compute. repeat split. Qed.

(** The same with a provider that answers in prose. *)
Lemma parse_failure_with_provider :
  let s := mkState
             (set_llm (LLMService.configured LLMService.new anthropic "claude" (Some "key"))
                (WorkflowEngine.new projectFiles))
             ∅ (Eval.mkWorld [Eval.answers "Here is the plan: first the backend."] 0) in
  let first := processMessage "Looks good, proceed" s in
  first.1 = Return parseFailureReply
  ∧ disk first.2 = disk s
  ∧ currentStep (engine s) = INITIATION
  ∧ currentStep (engine first.2) = TASK_GENERATION.
Proof. vm_compute. repeat split. Qed.

(** C7, on the code.  A decomposition triggered without [tasks.json] leaves
    the step, the flag and the files as they were, but the reply is the text
    of the read error, not the guidance to complete Step 2.  The guidance is
    reached for an empty file, and then the flag stays set: the next trigger
    is turned away. *)
Lemma decomposition_without_tasks_json :
  let absent := processMessage "decompose" (atDecomposition ∅ []) in
  let empty := processMessage "decompose" (atDecomposition {[ "/project/tasks.json" := "" ]} []) in
  let again := processMessage "decompose" empty.2 in
  absent.1 = Return "Error during decomposition: ENOENT: no such file or directory, open '/project/tasks.json'"
  ∧ absent.1 ≠ Return noTasksReply
  ∧ currentStep (engine absent.2) = DECOMPOSITION
  ∧ isDecomposing (engine absent.2) = false
  ∧ disk absent.2 = ∅
  ∧ empty.1 = Return noTasksReply
  ∧ isDecomposing (engine empty.2) = true
  ∧ again.1 = Return alreadyDecomposingReply.
Proof. vm_compute. repeat split. discriminate. Qed.

(** C10 at a message with both kinds of keyword, the flag not set. *)
Lemma confirmation_before_skip_witness :
  let s := atDecomposition (withTasks todoApp) [] in
  let s1 := pushed (HumanMessage "Yes - or should we skip it?") s in
  ∃ reply s2,
    (if isDecomposing (engine s)
     then reply = alreadyDecomposingReply ∧ s2 = s1
     else runDecomposition s1 = (Return reply, s2))
    ∧ processMessage "Yes - or should we skip it?" s = (Return reply, pushed (AIMessage reply) s2)
    ∧ reply ≠ skipReply.
Proof.
  apply (confirmation_before_skip "Yes - or should we skip it?"
           (atDecomposition (withTasks todoApp) [])); reflexivity.
Defined.

(** C10 as stated fails when the flag is set: after a trigger on an empty
    [tasks.json] has left it set, a message with a confirmation keyword and a
    skip keyword starts no run; the engine answers that one is in progress,
    and the step, the files and the backend script are as before. *)
Lemma confirmation_turned_away_while_flag_set :
  let s := (processMessage "decompose"
              (atDecomposition {[ "/project/tasks.json" := "" ]} [Eval.answers "[]"])).2 in
  let after := processMessage "yes, or skip" s in
  currentStep (engine s) = DECOMPOSITION
  ∧ mentions (toLowerCase "yes, or skip") confirmation_keywords = true
  ∧ mentions (toLowerCase "yes, or skip") skip_keywords = true
  ∧ after.1 = Return alreadyDecomposingReply
  ∧ currentStep (engine after.2) = DECOMPOSITION
  ∧ disk after.2 = disk s
  ∧ world after.2 = world s.
Proof. vm_compute. repeat split. Qed.

(** The run of the specification's scenario: three eligible tasks, the second
    generation fails. *)
Example decomposition_scenario :
  let after := processMessage "decompose" (atDecomposition (withTasks todoApp) twoFailOne) in
  findTasksToDecompose todoApp [] [] = [[0]; [1]; [2]]
  ∧ after.1 = Return (completeReply
                        [ successLine backendTask [subTask "1-1" "Design the schema";
                                                   subTask "1-2" "Write the API"];
                          failureLine frontendTask (mkError "Failed to parse LLM response");
                          successLine deploymentTask [subTask "3-1" "Write the Dockerfile"] ]
                        2)
  ∧ persisted after.2
    = Some (mkTaskNode "root" "Todo app" pending project
              (Some [ attach [subTask "1-1" "Design the schema"; subTask "1-2" "Write the API"]
                        backendTask;
                      frontendTask;
                      attach [subTask "3-1" "Write the Dockerfile"] deploymentTask ])
              None)
  ∧ currentStep (engine after.2) = ANALYSIS
  ∧ isDecomposing (engine after.2) = false.
Proof. vm_compute. repeat split. Qed.

(** C2 at the scenario. *)
Lemma decomposition_run_outcomes_witness :
  let s := atDecomposition (withTasks todoApp) twoFailOne in
  let tasks := findTasksToDecompose todoApp [] [] in
  let nodes := omap (deref todoApp) tasks in
  let started := mkState (set_isDecomposing true (engine s)) (disk s) (world s) in
  let cs := (attempts 0 nodes (title todoApp) started).1 in
  ∃ (root' : TaskNode) (s' : State Eval.World),
    runDecomposition s = (Return (completeReply (lines nodes cs) (successes cs)), s')
    ∧ disk s' !! tasksPath s = Some (JSON_stringify root')
    ∧ ∀ (task : Ref) (node : TaskNode),
        deref todoApp task = Some node → eligible node →
        ∃ (j : nat) (c : Completion (list TaskNode)),
          tasks !! j = Some task ∧ cs !! j = Some c ∧
          match c with
          | Return [] => deref root' task = Some node
          | Return subTasks =>
              deref root' task = Some (attach subTasks node)
              ∧ decomposed (attach subTasks node) = Some true
              ∧ children (attach subTasks node) = Some subTasks
              ∧ successLine node subTasks ∈ lines nodes cs
          | Throw e =>
              deref root' task = Some node
              ∧ failureLine node e ∈ lines nodes cs
          end.
Proof.
  apply (decomposition_run_outcomes (atDecomposition (withTasks todoApp) twoFailOne)
           (Eval.JSON_stringify todoApp) todoApp);
    [reflexivity | reflexivity | vm_compute; reflexivity | vm_compute; discriminate].
Defined.

(** C2 as stated fails on an empty list and on a task with empty children.
    The first generation returns [[]]: the first task is eligible, is not
    marked, keeps its children, and has no line in the reply.  The third
    generation fails: the third task has its failure line and keeps its
    children, which are empty and not absent. *)
Lemma empty_result_is_dropped_from_report :
  let script := [ Eval.answers "[]";
                  Eval.answers ("[" +:+ subTaskText "2-1" "Build the views" +:+ "]");
                  Eval.fails "rate limit" ] in
  let after := processMessage "decompose" (atDecomposition (withTasks todoApp) script) in
  findTasksToDecompose todoApp [] [] = [[0]; [1]; [2]]
  ∧ after.1 = Return (completeReply
                        [ successLine frontendTask [subTask "2-1" "Build the views"];
                          failureLine deploymentTask (mkError "Failed to parse LLM response") ]
                        1)
  ∧ persisted after.2
    = Some (mkTaskNode "root" "Todo app" pending project
              (Some [ backendTask;
                      attach [subTask "2-1" "Build the views"] frontendTask;
                      deploymentTask ])
              None)
  ∧ children deploymentTask = Some [].
Proof. vm_compute. repeat split. Qed.

(** C8 at a generation that returns one sub-task. *)
Lemma attached_children_are_the_parsed_list_witness :
  let response := "[" +:+ subTaskText "1-1" "Do all of it" +:+ "]" in
  let s := atDecomposition (withTasks todoApp) [Eval.answers response] in
  ∃ (l' : Locals) (s' : State Eval.World),
    decomposeOne 0 [0] (mkLocals todoApp 0 []) s = (Return l', s')
    ∧ deref (rootTask l') [0] = Some (attach [subTask "1-1" "Do all of it"] backendTask)
    ∧ ∀ node',
        deref (rootTask l') [0] = Some node' → node' ≠ backendTask →
        children node' = Some [subTask "1-1" "Do all of it"]
        ∧ decomposed node' = Some true
        ∧ 1 ≤ length [subTask "1-1" "Do all of it"].
Proof.
  apply (attached_children_are_the_parsed_list 0 [0] (mkLocals todoApp 0 [])
           (atDecomposition (withTasks todoApp)
              [Eval.answers ("[" +:+ subTaskText "1-1" "Do all of it" +:+ "]")])
           backendTask ("[" +:+ subTaskText "1-1" "Do all of it" +:+ "]")
           (Eval.mkWorld [] 0) [subTask "1-1" "Do all of it"]);
    [reflexivity | vm_compute; reflexivity | vm_compute; reflexivity].
Defined.

(** C8 as stated fails: a well-formed answer with one sub-task, and one with
    six, are attached as they are. *)
Lemma one_and_six_subtasks_are_attached :
  let six := "[" +:+ join ", " [ subTaskText "2-1" "a"; subTaskText "2-2" "b";
                                 subTaskText "2-3" "c"; subTaskText "2-4" "d";
                                 subTaskText "2-5" "e"; subTaskText "2-6" "f" ] +:+ "]" in
  let script := [ Eval.answers ("[" +:+ subTaskText "1-1" "Do all of it" +:+ "]");
                  Eval.answers six; Eval.fails "rate limit" ] in
  let after := processMessage "decompose" (atDecomposition (withTasks todoApp) script) in
  persistedChildren after.2 [0] = Some 1
  ∧ persistedChildren after.2 [1] = Some 6
  ∧ (deref todoApp [0] ≫= decomposed) = None
  ∧ ((persisted after.2 ≫= fun root => deref root [0]) ≫= decomposed) = Some true
  ∧ ((persisted after.2 ≫= fun root => deref root [1]) ≫= decomposed) = Some true.
Proof. vm_compute. repeat split. Qed.

End Runs.

(** * Further properties of the engine *)

Section Preservation.
Context {World : Type} `{!Backend World} `{!Runtime}.
Import WorkflowEngine.
Context (R : relation (State World)) `{!Reflexive R} `{!Transitive R}.

Lemma preserves_ret {A} (a : A) : preserves R (ret a).
Proof. intros s. simpl. reflexivity. Qed.

Lemma preserves_throw {A} (e : Error) : preserves R (throw (A := A) e).
Proof. intros s. simpl. reflexivity. Qed.

Lemma preserves_lift {A} (c : Completion A) : preserves R (lift c).
Proof. intros s. simpl. reflexivity. Qed.

Lemma preserves_get {A} (field : t → A) : preserves R (get field).
Proof. intros s. simpl. reflexivity. Qed.

Lemma preserves_fs_readFile (relativePath : string) : preserves R (fs_readFile relativePath).
Proof. intros s. simpl. reflexivity. Qed.

Lemma preserves_bind {A B} (m : M World A) (k : A → M World B) :
  preserves R m → (∀ a, preserves R (k a)) → preserves R (bind m k).
Proof.
  intros Hm Hk s. unfold bind. specialize (Hm s).
  destruct (m s) as [[a|e] s1]; simpl in *; [|done]. etrans; [exact Hm|apply Hk].
Qed.

Lemma preserves_try_catch {A} (body : M World A) (handler : Error → M World A) :
  preserves R body → (∀ e, preserves R (handler e)) → preserves R (try_catch body handler).
Proof.
  intros Hm Hk s. unfold try_catch. specialize (Hm s).
  destruct (body s) as [[a|e] s1]; simpl in *; [done|]. etrans; [exact Hm|apply Hk].
Qed.

(** What the methods are made of. *)
Context (on_chat : ∀ messages, preserves R (llm_chat messages)).
Context (on_sleep : ∀ ms, preserves R (do_sleep ms)).
Context (on_write : ∀ text, preserves R (fs_writeSafe "tasks.json" text)).
Context (on_flag : ∀ b, preserves R (update (set_isDecomposing b))).
Context (on_task_generation : preserves R (update (set_currentStep TASK_GENERATION))).
Context (on_decomposition : preserves R (update (set_currentStep DECOMPOSITION))).
Context (on_analysis : preserves R (update (set_currentStep ANALYSIS))).

Ltac preserves_step :=
  first
    [ apply preserves_ret | apply preserves_throw | apply preserves_lift
    | apply preserves_get | apply preserves_fs_readFile
    | apply on_chat | apply on_sleep | apply on_write | apply on_flag
    | apply on_task_generation | apply on_decomposition | apply on_analysis
    | apply preserves_bind; [|intros ?] | apply preserves_try_catch; [|intros ?]
    | match goal with
      | |- preserves R (if ?b then _ else _) => destruct b
      | |- preserves R (match ?x with _ => _ end) => destruct x
      end ].

Lemma preserves_lastUserMsg : preserves R lastUserMsg.
Proof. unfold lastUserMsg. repeat preserves_step. Qed.

Lemma preserves_generateHighLevelTasks : preserves R generateHighLevelTasks.
Proof. unfold generateHighLevelTasks. repeat preserves_step. Qed.

Lemma preserves_handleInitiationStep : preserves R handleInitiationStep.
Proof.
  unfold handleInitiationStep.
  apply preserves_bind; [apply preserves_lastUserMsg|intros msg].
  destruct (_ || _); [|repeat preserves_step].
  apply preserves_bind; [apply on_task_generation|intros _].
  apply preserves_generateHighLevelTasks.
Qed.

Lemma preserves_decomposeTask (task : TaskNode) (projectName : string) :
  preserves R (decomposeTask task projectName).
Proof. unfold decomposeTask. repeat preserves_step. Qed.

Lemma preserves_decomposeOne (i : nat) (task : Ref) (l : Locals) :
  preserves R (decomposeOne i task l).
Proof.
  unfold decomposeOne. apply preserves_bind; [destruct (decide _); preserves_step|intros _].
  destruct (deref _ _); [|preserves_step].
  apply preserves_try_catch; [|intros e; preserves_step].
  apply preserves_bind; [apply preserves_decomposeTask|intros subTasks].
  destruct (decide _); preserves_step.
Qed.

Lemma preserves_decomposeEach (tasks : list Ref) :
  ∀ (i : nat) (l : Locals), preserves R (decomposeEach i tasks l).
Proof.
  induction tasks as [|task rest IH]; intros i l; simpl; [preserves_step|].
  apply preserves_bind; [apply preserves_decomposeOne|intros l']. apply IH.
Qed.

Lemma preserves_runDecomposition : preserves R runDecomposition.
Proof.
  unfold runDecomposition.
  apply preserves_bind; [preserves_step|intros _].
  apply preserves_try_catch; [|intros e; repeat preserves_step].
  apply preserves_bind; [preserves_step|intros tasksJson].
  destruct (negb _); [preserves_step|].
  apply preserves_bind; [preserves_step|intros parsed].
  destruct (decide _); [repeat preserves_step|].
  apply preserves_bind; [apply preserves_decomposeEach|intros l]. repeat preserves_step.
Qed.

Lemma preserves_handleDecompositionStep : preserves R handleDecompositionStep.
Proof.
  unfold handleDecompositionStep.
  apply preserves_bind; [apply preserves_lastUserMsg|intros msg].
  destruct (_ || _ || _ || _).
  - apply preserves_bind; [preserves_step|intros [|]];
      [preserves_step|apply preserves_runDecomposition].
  - destruct (_ || _); repeat preserves_step.
Qed.

End Preservation.

Section Sessions.
Context {World : Type} `{!Backend World} `{!Runtime}.
Import WorkflowEngine.

(** One invocation, from what its step handler does. *)
Lemma processMessage_related (R : relation (State World)) `{!Reflexive R} `{!Transitive R}
    (userMessage : string) (s : State World) :
  (∀ m s0, R s0 (pushed m s0)) →
  R (pushed (HumanMessage userMessage) s)
    (dispatch (currentStep (engine s)) (pushed (HumanMessage userMessage) s)).2 →
  R s (processMessage userMessage s).2.
Proof.
  intros Hpush Hd. rewrite processMessage_unfold.
  destruct (dispatch _ _) as [[reply|e] s1]; simpl in *.
  - etrans; [apply Hpush|]. etrans; [exact Hd|]. apply Hpush.
  - etrans; [apply Hpush|]. exact Hd.
Qed.

Lemma session_related (R : relation (State World)) `{!Reflexive R} `{!Transitive R}
    (userMessages : list string) :
  (∀ userMessage s, R s (processMessage userMessage s).2) →
  ∀ s, R s (session userMessages s).
Proof.
  intros Hone. induction userMessages as [|userMessage rest IH]; intros s; simpl.
  - reflexivity.
  - etrans; [apply Hone|apply IH].
Qed.

Global Instance same_setup_refl : Reflexive (same_setup (World := World)).
Proof. by intros s. Qed.

Global Instance same_setup_trans : Transitive (same_setup (World := World)).
Proof.
  intros s1 s2 s3 (? & ? & ? & ? & ?) (? & ? & ? & ? & ?).
  repeat split; congruence.
Qed.

Lemma same_setup_llm_chat (messages : list BaseMessage) :
  preserves same_setup (llm_chat messages).
Proof. intros s. unfold llm_chat. by destruct (LLMService.chat _ _ _). Qed.

Lemma same_setup_fs_writeSafe (relativePath text : string) :
  preserves same_setup (fs_writeSafe relativePath text).
Proof.
  intros s. unfold fs_writeSafe. by destruct (AgentFileSystem.writeSafe _ _ _ _ _) as [[? ?] ?].
Qed.

Lemma same_setup_dispatch (step : WorkflowStep) : preserves same_setup (dispatch step).
Proof.
  destruct step; simpl; try apply preserves_ret; try apply _.
  - apply preserves_handleInitiationStep; try apply _; try done.
    + apply same_setup_llm_chat.
    + intros text. apply same_setup_fs_writeSafe.
  - apply preserves_handleDecompositionStep; try apply _; try done.
    + apply same_setup_llm_chat.
    + intros text. apply same_setup_fs_writeSafe.
Qed.

(** X1. No invocation of [processMessage] assigns the service, the storage,
    or the name, description and requirements of the project: after any
    session they are what they were; for an engine made by the constructor
    the project stays "Untitled Project" without description. *)
Theorem session_keeps_setup (userMessages : list string) (s : State World) :
  let s' := session userMessages s in
  llm (engine s') = llm (engine s)
  ∧ fs (engine s') = fs (engine s)
  ∧ name (context (engine s')) = name (context (engine s))
  ∧ description (context (engine s')) = description (context (engine s))
  ∧ requirements (context (engine s')) = requirements (context (engine s)).
Proof.
  apply (session_related same_setup userMessages). intros userMessage s0.
  apply processMessage_related; [apply _..|done|apply same_setup_dispatch].
Qed.

Global Instance same_other_files_refl : Reflexive (same_other_files (World := World)).
Proof. by intros s. Qed.

Global Instance same_other_files_trans : Transitive (same_other_files (World := World)).
Proof.
  intros s1 s2 s3 [Hfs Hd] [Hfs' Hd']. split; [congruence|].
  intros p Hp Hb. rewrite Hd', Hd; [done..| |].
  - unfold tasksPath in *. by rewrite Hfs.
  - intros backupName. unfold backupPath in *. rewrite Hfs. apply Hb.
Qed.





Global Instance steps_within_refl (targets : list WorkflowStep) :
  Reflexive (steps_within (World := World) targets).
Proof. intros s. by left. Qed.

Global Instance steps_within_trans (targets : list WorkflowStep) :
  Transitive (steps_within (World := World) targets).
Proof.
  intros s1 s2 s3 [H12|H12] [H23|H23]; [left; congruence|by right|right; congruence|by right].
Qed.

Lemma steps_within_llm_chat (targets : list WorkflowStep) (messages : list BaseMessage) :
  preserves (steps_within targets) (llm_chat messages).
Proof. intros s. unfold llm_chat. destruct (LLMService.chat _ _ _). by left. Qed.

Lemma steps_within_write (targets : list WorkflowStep) (text : string) :
  preserves (steps_within targets) (fs_writeSafe "tasks.json" text).
Proof.
  intros s. unfold fs_writeSafe.
  destruct (AgentFileSystem.writeSafe _ _ _ _ _) as [[? ?] ?]. by left.
Qed.

Lemma steps_within_set (targets : list WorkflowStep) (step : WorkflowStep) :
  step ∈ targets →
  preserves (steps_within (World := World) targets) (update (set_currentStep step)).
Proof. intros Hin s. by right. Qed.

(** The steps one invocation can lead to. *)
Lemma processMessage_step (userMessage : string) (s : State World) :
  let step' := currentStep (engine (processMessage userMessage s).2) in
  match currentStep (engine s) with
  | INITIATION => step' ∈ [INITIATION; TASK_GENERATION; DECOMPOSITION]
  | DECOMPOSITION => step' ∈ [DECOMPOSITION; ANALYSIS]
  | other => step' = other
  end.
Proof.
  intros step'. subst step'. rewrite processMessage_unfold.
  set (s1 := pushed (HumanMessage userMessage) s).
  assert (∀ r s2, currentStep (engine (match r with
                     | Return response => (Return response, pushed (AIMessage response) s2)
                     | Throw e => (Throw e, s2)
                     end : Completion string * State World).2) = currentStep (engine s2)) as Hfin
    by (by intros [?|?] ?).
  destruct (currentStep (engine s)) eqn:Hstep; simpl; try done.
  - pose proof (preserves_handleInitiationStep (steps_within [TASK_GENERATION; DECOMPOSITION])
                  (steps_within_llm_chat _) (steps_within_write _)
                  (steps_within_set [TASK_GENERATION; DECOMPOSITION] TASK_GENERATION ltac:(set_solver))
                  (steps_within_set [TASK_GENERATION; DECOMPOSITION] DECOMPOSITION ltac:(set_solver)) s1) as Hd.
    destruct (handleInitiationStep s1) as [r s2]. rewrite (Hfin r s2).
    destruct Hd as [Hd|Hd]; simpl in Hd; [|set_solver].
    rewrite Hd. change (currentStep (engine s1)) with (currentStep (engine s)).
    rewrite Hstep. set_solver.
  - pose proof (preserves_handleDecompositionStep (steps_within [ANALYSIS])
                  (steps_within_llm_chat _) (λ ms s0, or_introl eq_refl)
                  (steps_within_write _) (λ b s0, or_introl eq_refl)
                  (steps_within_set [ANALYSIS] ANALYSIS ltac:(set_solver)) s1) as Hd.
    destruct (handleDecompositionStep s1) as [r s2]. rewrite (Hfin r s2).
    destruct Hd as [Hd|Hd]; simpl in Hd; [|set_solver].
    rewrite Hd. change (currentStep (engine s1)) with (currentStep (engine s)).
    rewrite Hstep. set_solver.
Qed.

Global Instance step_not_before_refl : Reflexive (step_not_before (World := World)).
Proof. intros s. unfold step_not_before. lia. Qed.

Global Instance step_not_before_trans : Transitive (step_not_before (World := World)).
Proof. intros s1 s2 s3. unfold step_not_before. lia. Qed.

(** X3. The step only moves forward: one invocation of [processMessage]
    leaves INITIATION for TASK_GENERATION or DECOMPOSITION, or stays;
    leaves DECOMPOSITION for ANALYSIS, or stays; and leaves no other step.
    Over a session the number of the step never decreases. *)
Theorem step_only_moves_forward (userMessage : string) (userMessages : list string)
    (s : State World) :
  let step' := currentStep (engine (processMessage userMessage s).2) in
  match currentStep (engine s) with
  | INITIATION => step' ∈ [INITIATION; TASK_GENERATION; DECOMPOSITION]
  | DECOMPOSITION => step' ∈ [DECOMPOSITION; ANALYSIS]
  | other => step' = other
  end
  ∧ step_number (currentStep (engine s))
    ≤ step_number (currentStep (engine (session userMessages s))).
Proof.
  split; [apply processMessage_step|].
  apply (session_related step_not_before userMessages). clear.
  intros userMessage s. unfold step_not_before.
  pose proof (processMessage_step userMessage s) as Hs. simpl in Hs.
  destruct (currentStep (engine s)); try (rewrite Hs; simpl; lia);
    repeat (apply elem_of_cons in Hs as [->|Hs]; [simpl; lia|]); by apply elem_of_nil in Hs.
Qed.

End Sessions.

Section Handlers.
Context {World : Type} `{!Backend World} `{!Runtime}.
Import WorkflowEngine.

Lemma processMessage_placeholder (userMessage : string) (s : State World) :
  currentStep (engine s) ∉ [INITIATION; DECOMPOSITION] →
  processMessage userMessage s
  = (Return (placeholder (currentStep (engine s))),
     pushed (AIMessage (placeholder (currentStep (engine s))))
       (pushed (HumanMessage userMessage) s)).
Proof.
  intros Hstep. rewrite processMessage_unfold.
  destruct (currentStep (engine s)); try done; set_solver.
Qed.

(** X4. The steps without a handler are final: at TASK_GENERATION and from
    ANALYSIS on, every message is answered with the placeholder of the step,
    and over any session the step, the flag, the files and the world of the
    backend stay as they are. *)
Theorem steps_without_handler_are_final (userMessages : list string) (s : State World) :
  currentStep (engine s) ∉ [INITIATION; DECOMPOSITION] →
  (∀ userMessage,
     (processMessage userMessage s).1 = Return (placeholder (currentStep (engine s))))
  ∧ currentStep (engine (session userMessages s)) = currentStep (engine s)
  ∧ isDecomposing (engine (session userMessages s)) = isDecomposing (engine s)
  ∧ disk (session userMessages s) = disk s
  ∧ world (session userMessages s) = world s.
Proof.
  intros Hstep. split; [intros userMessage; by rewrite processMessage_placeholder|].
  revert s Hstep. induction userMessages as [|userMessage rest IH]; intros s Hstep; [done|].
  simpl. rewrite processMessage_placeholder by done. cbn [snd].
  set (s' := pushed _ (pushed _ s)).
  destruct (IH s') as (-> & -> & -> & ->); done.
Qed.

Lemma generationReply_names_title (projectNode : TaskNode) :
  includes (generationReply projectNode) (title projectNode) = true.
Proof. unfold generationReply. apply includes_embedded. Qed.

Lemma generateHighLevelTasks_run (userMessage response : string) (s : State World)
    (w' : World) (projectNode : TaskNode) :
  currentStep (engine s) = INITIATION →
  confirms_generation (toLowerCase userMessage) = true →
  generationCall (pushed (HumanMessage userMessage) s) = (Return response, w') →
  JSON_parse_node (cleanJson response) = Return projectNode →
  ∃ s', processMessage userMessage s = (Return (generationReply projectNode), s')
        ∧ disk s' !! tasksPath s = Some (JSON_stringify projectNode)
        ∧ currentStep (engine s') = DECOMPOSITION
        ∧ isDecomposing (engine s') = isDecomposing (engine s)
        ∧ fs (engine s') = fs (engine s)
        ∧ llm (engine s') = llm (engine s).
Proof.
  intros Hstep Hyes Hcall Hparse. rewrite processMessage_unfold, Hstep. simpl.
  unfold handleInitiationStep, bind. rewrite lastUserMsg_pushed.
  unfold confirms_generation in Hyes. rewrite Hyes.
  unfold update at 1. cbn beta iota.
  unfold generateHighLevelTasks, bind, get, llm_chat, try_catch, lift. cbn beta iota.
  unfold generationCall, history in Hcall. cbn [engine disk world] in *.
  cbn [set_currentStep llm context] in *. rewrite Hcall. cbn beta iota.
  rewrite Hparse. unfold fs_writeSafe. cbn [engine disk world fs].
  destruct (writeSafe_written (fs (engine s)) "tasks.json" (JSON_stringify projectNode)
              (disk s) w') as (d' & w'' & Hw & Hwritten).
  change (fs (set_currentStep TASK_GENERATION (engine (pushed (HumanMessage userMessage) s))))
    with (fs (engine s)).
  change (disk (pushed (HumanMessage userMessage) s)) with (disk s).
  rewrite Hw. cbv beta iota. unfold bind, update, ret. cbv beta iota.
  eexists. split; [reflexivity|]. split; [exact Hwritten|]. by repeat split.
Qed.

(** X5. Task generation that succeeds: at INITIATION, a confirming message
    whose generation output parses to a project node writes that node to
    [tasks.json], moves the step to DECOMPOSITION in the same turn, and
    answers with the summary, which names the title of the project. *)
Theorem generation_success (userMessage response : string) (s : State World)
    (w' : World) (projectNode : TaskNode) :
  currentStep (engine s) = INITIATION →
  confirms_generation (toLowerCase userMessage) = true →
  generationCall (pushed (HumanMessage userMessage) s) = (Return response, w') →
  JSON_parse_node (cleanJson response) = Return projectNode →
  ∃ s', processMessage userMessage s = (Return (generationReply projectNode), s')
        ∧ disk s' !! tasksPath s = Some (JSON_stringify projectNode)
        ∧ currentStep (engine s') = DECOMPOSITION
        ∧ isDecomposing (engine s') = isDecomposing (engine s)
        ∧ includes (generationReply projectNode) (title projectNode) = true.
Proof.
  intros Hstep Hyes Hcall Hparse.
  destruct (generateHighLevelTasks_run userMessage response s w' projectNode
              Hstep Hyes Hcall Hparse) as (s' & Hrun & Hfile & Hnext & Hflag & _).
  exists s'. repeat split; try done. apply generationReply_names_title.
Qed.

(** X6. The interview: at INITIATION, a message without a confirmation is
    sent to the model behind the system prompt and within the last ten
    entries of the history, of which it is the last; the reply is the
    model's, the step and the files stay as they are. *)
Theorem initiation_interviews (userMessage : string) (s : State World) :
  currentStep (engine s) = INITIATION →
  confirms_generation (toLowerCase userMessage) = false →
  let s1 := pushed (HumanMessage userMessage) s in
  let messages :=
    SystemMessage (initiationPrompt (context (engine s1))) :: slice_last 10 (history s1) in
  ∃ reply w',
    LLMService.chat (llm (engine s)) messages (world s) = (Return reply, w')
    ∧ processMessage userMessage s
      = (Return reply, pushed (AIMessage reply) (mkState (engine s1) (disk s) w'))
    ∧ length messages ≤ 11
    ∧ last messages = Some (HumanMessage userMessage).
Proof.
  intros Hstep Hno s1 messages.
  destruct (chat_nonempty_returns (llm (engine s)) messages (world s)) as [reply Hreply];
    [done|].
  destruct (LLMService.chat (llm (engine s)) messages (world s)) as [r w'] eqn:Hchat.
  simpl in Hreply. subst r. exists reply, w'. split; [done|]. split; [|split].
  - rewrite processMessage_unfold, Hstep. simpl.
    unfold handleInitiationStep, bind. rewrite lastUserMsg_pushed.
    unfold confirms_generation in Hno. rewrite Hno.
    unfold get, llm_chat. cbn beta iota. fold s1.
    change (chatHistory (context (engine s1))) with (history s1). fold messages.
    change (llm (engine s1)) with (llm (engine s)).
    change (world s1) with (world s). by rewrite Hchat.
  - unfold messages, slice_last. simpl. rewrite length_drop. lia.
  - unfold messages, slice_last.
    change (history s1) with (history s ++ [HumanMessage userMessage]).
    rewrite drop_app_le by (rewrite length_app; simpl; lia).
    rewrite app_comm_cons. apply last_snoc.
Qed.

(** X7. At DECOMPOSITION, a message without a confirmation keyword starts no
    run: with a skip keyword the step moves to ANALYSIS and the reply
    acknowledges it, without one the reply is the menu and the step stays;
    in both cases no file is written and the backend is not called. *)
Theorem decomposition_skip_or_menu (userMessage : string) (s : State World) :
  currentStep (engine s) = DECOMPOSITION →
  mentions (toLowerCase userMessage) confirmation_keywords = false →
  let after := processMessage userMessage s in
  (if mentions (toLowerCase userMessage) skip_keywords
   then after.1 = Return skipReply ∧ currentStep (engine after.2) = ANALYSIS
   else after.1 = Return decompositionMenu ∧ currentStep (engine after.2) = DECOMPOSITION)
  ∧ isDecomposing (engine after.2) = isDecomposing (engine s)
  ∧ disk after.2 = disk s
  ∧ world after.2 = world s.
Proof.
  intros Hstep Hno after. subst after.
  rewrite processMessage_unfold, Hstep. cbn [dispatch].
  rewrite handleDecompositionStep_pushed, Hno.
  destruct (mentions (toLowerCase userMessage) skip_keywords); simpl; by rewrite ?Hstep.
Qed.

(** A run over a tree without eligible tasks. *)
Lemma runDecomposition_nothing_to_do (s : State World) (text : string) (root : TaskNode) :
  disk s !! tasksPath s = Some text →
  truthy text = true →
  JSON_parse_node text = Return root →
  findTasksToDecompose root [] [] = [] →
  runDecomposition s
  = (Return allDecomposedReply,
     mkState (set_currentStep ANALYSIS (set_isDecomposing true (engine s))) (disk s) (world s)).
Proof.
  intros Hfile Htext Hparse Hnone.
  unfold runDecomposition, bind, try_catch, update, fs_readFile, AgentFileSystem.readFile, lift.
  cbn [engine disk world]. unfold tasksPath in Hfile.
  cbn [set_isDecomposing fs]. rewrite Hfile. cbv beta iota. rewrite Htext. cbn [negb].
  rewrite Hparse. cbv beta iota. by rewrite Hnone.
Qed.

(** A run over a [tasks.json] that does not parse. *)
Lemma runDecomposition_unparsable (s : State World) (text : string) (e : Error) :
  disk s !! tasksPath s = Some text →
  truthy text = true →
  JSON_parse_node text = Throw e →
  runDecomposition s
  = (Return (decompositionErrorReply e),
     mkState (set_isDecomposing false (set_isDecomposing true (engine s))) (disk s) (world s)).
Proof.
  intros Hfile Htext Hparse.
  unfold runDecomposition, bind, try_catch, update, fs_readFile, AgentFileSystem.readFile, lift.
  cbn [engine disk world]. unfold tasksPath in Hfile.
  cbn [set_isDecomposing fs]. rewrite Hfile. cbv beta iota. rewrite Htext. cbn [negb].
  by rewrite Hparse.
Qed.

(** X8. A decomposition triggered on a tree in which no node is eligible
    calls no model and writes nothing: the reply says that all tasks are
    decomposed and the step moves to ANALYSIS. *)
Theorem nothing_to_decompose (userMessage text : string) (root : TaskNode) (s : State World) :
  currentStep (engine s) = DECOMPOSITION →
  isDecomposing (engine s) = false →
  mentions (toLowerCase userMessage) confirmation_keywords = true →
  disk s !! tasksPath s = Some text →
  truthy text = true →
  JSON_parse_node text = Return root →
  (∀ r n, deref root r = Some n → ¬ eligible n) →
  let after := processMessage userMessage s in
  after.1 = Return allDecomposedReply
  ∧ currentStep (engine after.2) = ANALYSIS
  ∧ disk after.2 = disk s
  ∧ world after.2 = world s.
Proof.
  intros Hstep Hidle Hconfirm Hfile Htext Hparse Hnone after. subst after.
  assert (findTasksToDecompose root [] [] = []) as Hempty.
  { destruct (findTasksToDecompose root [] []) as [|r rest] eqn:Hfound; [done|].
    assert (r ∈ findTasksToDecompose root [] []) as Hin by (rewrite Hfound; by left).
    apply findTasksToDecompose_found in Hin as (n & Hd & He). by destruct (Hnone r n). }
  rewrite processMessage_unfold, Hstep. cbn [dispatch].
  rewrite handleDecompositionStep_pushed, Hconfirm, Hidle.
  by rewrite (runDecomposition_nothing_to_do _ text root).
Qed.

(** X9. A decomposition triggered on a [tasks.json] whose text does not
    parse is answered with the message of the parse error; the step stays
    at DECOMPOSITION, the flag is cleared again, nothing is written and the
    backend is not called. *)
Theorem decomposition_of_unparsable_tasks (userMessage text : string) (e : Error)
    (s : State World) :
  currentStep (engine s) = DECOMPOSITION →
  isDecomposing (engine s) = false →
  mentions (toLowerCase userMessage) confirmation_keywords = true →
  disk s !! tasksPath s = Some text →
  truthy text = true →
  JSON_parse_node text = Throw e →
  processMessage userMessage s
  = (Return ("Error during decomposition: " +:+ message e),
     pushed (AIMessage ("Error during decomposition: " +:+ message e))
       (pushed (HumanMessage userMessage) s)).
Proof.
  intros Hstep Hidle Hconfirm Hfile Htext Hparse.
  rewrite processMessage_unfold, Hstep. cbn [dispatch].
  rewrite handleDecompositionStep_pushed, Hconfirm, Hidle.
  rewrite (runDecomposition_unparsable _ text e) by done.
  by rewrite set_isDecomposing_back.
Qed.

End Handlers.

Section Growth.
Context {World : Type} `{!Backend World} `{!Runtime}.
Import WorkflowEngine.

Lemma same_fields_refl (n : TaskNode) : same_fields n n.
Proof. by repeat split. Qed.

Lemma same_fields_trans (n1 n2 n3 : TaskNode) :
  same_fields n1 n2 → same_fields n2 n3 → same_fields n1 n3.
Proof. intros (? & ? & ? & ?) (? & ? & ? & ?). repeat split; congruence. Qed.

(** An assignment at a node without children keeps every node of the tree in
    its place, with its own fields. *)
Lemma deref_assign_keeps (f : TaskNode → TaskNode) (t : Ref) :
  (∀ m, same_fields m (f m)) →
  ∀ (root leaf n : TaskNode) (r : Ref),
    deref root t = Some leaf → (∀ i k, deref leaf (i :: k) = None) →
    deref root r = Some n →
    ∃ n', deref (assign f root t) r = Some n' ∧ same_fields n n'.
Proof.
  intros Hf. induction t as [|i t IH]; intros root leaf n r Ht Hleaf Hr.
  - simpl in Ht. simplify_eq. destruct r as [|j r]; [|by rewrite Hleaf in Hr].
    simpl in *. simplify_eq. eauto.
  - simpl in Ht. destruct (children root) as [cs|] eqn:Hcs; [|done].
    destruct (cs !! i) as [c|] eqn:Hi; [|done].
    destruct r as [|j r].
    + simpl in Hr. simplify_eq. exists (assign f n (i :: t)). split; [done|].
      simpl. rewrite Hcs. by repeat split.
    + simpl in Hr. rewrite Hcs in Hr. simpl. rewrite Hcs. simpl.
      destruct (decide (i = j)) as [->|Hne].
      * rewrite list_lookup_alter_eq, Hi. simpl. rewrite Hi in Hr. by eapply IH.
      * rewrite list_lookup_alter_ne by done. destruct (cs !! j); [|done].
        exists n. split; [done|apply same_fields_refl].
Qed.

Lemma settle_keeps (task r : Ref) (node n : TaskNode) (c : Completion (list TaskNode))
    (l : Locals) :
  deref (rootTask l) task = Some node → eligible node →
  deref (rootTask l) r = Some n →
  ∃ n', deref (rootTask (settle task node c l)) r = Some n' ∧ same_fields n n'.
Proof.
  intros Ht He Hr. destruct c as [subTasks|e]; simpl;
    [|exists n; split; [done|apply same_fields_refl]].
  destruct (decide _); simpl; [|exists n; split; [done|apply same_fields_refl]].
  eapply deref_assign_keeps; [|exact Ht| |exact Hr].
  - intros m. by repeat split.
  - intros i k. by apply eligible_is_leaf.
Qed.

Lemma settleAll_keeps (tasks : list Ref) :
  ∀ (nodes : list TaskNode) (cs : list (Completion (list TaskNode))) (l : Locals)
    (r : Ref) (n : TaskNode),
    Forall2 (fun t m => deref (rootTask l) t = Some m ∧ eligible m) tasks nodes →
    AllApart tasks →
    deref (rootTask l) r = Some n →
    ∃ n', deref (rootTask (settleAll tasks nodes cs l)) r = Some n' ∧ same_fields n n'.
Proof.
  induction tasks as [|task rest IH]; intros nodes cs l r n Hnodes Hap Hr.
  - simpl. exists n. split; [done|apply same_fields_refl].
  - apply Forall2_cons_inv_l in Hnodes as (node & nodes' & [Hd He] & Hrest & ->).
    inversion Hap as [|? ? Hfirst Hap']; subst.
    destruct cs as [|c cs]; [exists n; split; [done|apply same_fields_refl]|].
    simpl.
    destruct (settle_keeps task r node n c l Hd He Hr) as (n1 & Hr1 & Hsame1).
    destruct (IH nodes' cs (settle task node c l) r n1) as (n2 & Hr2 & Hsame2);
      [|done|done|].
    + clear -Hrest Hfirst.
      induction Hrest as [|t m rest nodes' [Ht Hm] _ IH']; [constructor|].
      apply Forall_cons in Hfirst as [Ht1 Hfirst]. constructor; [|by apply IH'].
      by rewrite settle_apart.
    + exists n2. split; [done|]. by eapply same_fields_trans.
Qed.

Lemma findTasksToDecompose_eligible_nodes (root : TaskNode) :
  Forall2 (fun t m => deref root t = Some m ∧ eligible m)
    (findTasksToDecompose root [] []) (omap (deref root) (findTasksToDecompose root [] [])).
Proof.
  assert (∀ r, r ∈ findTasksToDecompose root [] [] →
               ∃ n, deref root r = Some n ∧ eligible n) as Hfound.
  { intros r. by rewrite findTasksToDecompose_found. }
  induction (findTasksToDecompose root [] []) as [|r rest IH]; [constructor|].
  destruct (Hfound r) as (n & Hn & He); [by left|]. simpl. rewrite Hn. simpl.
  constructor; [done|]. apply IH. intros r' Hr'. apply Hfound. by right.
Qed.

(** X10. A decomposition run only adds to the tree.  In the persisted tree
    every node of the tree that was read is at its place with its id,
    title, status and type; a node that is on no path from the root to an
    eligible task is there unchanged; and a task that was decomposed is no
    longer found by the traversal, so it would not be decomposed again. *)
Theorem decomposition_only_adds (s : State World) (text : string) (root : TaskNode) :
  disk s !! tasksPath s = Some text →
  truthy text = true →
  JSON_parse_node text = Return root →
  findTasksToDecompose root [] [] ≠ [] →
  let tasks := findTasksToDecompose root [] [] in
  let nodes := omap (deref root) tasks in
  let started := mkState (set_isDecomposing true (engine s)) (disk s) (world s) in
  let cs := (attempts 0 nodes (title root) started).1 in
  ∃ (root' : TaskNode) (s' : State World) (reply : string),
    runDecomposition s = (Return reply, s')
    ∧ disk s' !! tasksPath s = Some (JSON_stringify root')
    ∧ (∀ (r : Ref) (n : TaskNode),
         deref root r = Some n →
         ∃ n', deref root' r = Some n'
               ∧ id n' = id n ∧ title n' = title n ∧ status n' = status n ∧ type n' = type n)
    ∧ (∀ (r : Ref) (n : TaskNode),
         deref root r = Some n →
         (∀ task, task ∈ tasks → ¬ r `prefix_of` task) →
         deref root' r = Some n)
    ∧ (∀ (j : nat) (task : Ref) (subTasks : list TaskNode),
         tasks !! j = Some task → cs !! j = Some (Return subTasks) → subTasks ≠ [] →
         task ∉ findTasksToDecompose root' [] []).
Proof.
  intros Hfile Htext Hparse Hsome tasks nodes started cs.
  destruct (runDecomposition_run s text root Hfile Htext Hparse Hsome)
    as (s' & Hrun & Hdisk & _ & _).
  cbv zeta in Hrun, Hdisk. fold tasks nodes started cs in Hrun, Hdisk.
  set (l := settleAll tasks nodes cs (mkLocals root 0 [])) in *.
  exists (rootTask l), s', (completeReply (results l) (decomposedCount l)).
  split; [done|]. split; [done|].
  pose proof (findTasksToDecompose_eligible_nodes root) as Hnodes. fold tasks nodes in Hnodes.
  pose proof (findTasksToDecompose_AllApart root) as Hap. fold tasks in Hap.
  split; [|split].
  - intros r n Hr.
    destruct (settleAll_keeps tasks nodes cs (mkLocals root 0 []) r n Hnodes Hap Hr)
      as (n' & Hr' & Hsame). fold l in Hr'. exists n'. by destruct Hsame as (? & ? & ? & ?).
  - intros r n Hr Hoff. unfold l. rewrite settleAll_apart; [done|].
    apply Forall_forall. intros task Htask. split; [by apply Hoff|].
    intros [k ->].
    apply findTasksToDecompose_found in Htask as (m & Hm & He).
    destruct k as [|i k]; [apply (Hoff task); [by apply findTasksToDecompose_found; eauto|];
                           by rewrite app_nil_r|].
    rewrite deref_app, Hm in Hr. change (deref m (i :: k) = Some n) in Hr.
    by rewrite (eligible_is_leaf m i k He) in Hr.
  - intros j task subTasks Hj Hc Hne Hin.
    destruct (Forall2_lookup_l _ _ _ _ _ Hnodes Hj) as (node & Hnode & Hd & He).
    pose proof (settleAll_deref tasks nodes cs (mkLocals root 0 []) j task node
                  (Return subTasks) Hap Hj Hnode Hc Hd) as Hout.
    fold l in Hout. simpl in Hout.
    rewrite decide_True in Hout by (destruct subTasks; [done|simpl; lia]).
    apply findTasksToDecompose_found in Hin as (m & Hm & _ & Hflag & _).
    rewrite Hout in Hm. by simplify_eq.
Qed.

End Growth.

(** * Further properties of the storage and of the service *)

Section Storage.
Context {World : Type} `{!Backend World} `{!Runtime}.
Import AgentFileSystem.

(** X11. What [writeSafe] leaves behind: the file reads back as the content
    written; when the file was there, its old content is kept under a name
    in the backup directory (unless that name is the path written); and
    when it was not there, no other file changes. *)
Theorem writeSafe_then_readFile (this : t) (relativePath text : string)
    (d : Disk) (w : World) :
  let fullPath := path_join [projectRoot this; relativePath] in
  ∃ (d' : Disk) (w' : World),
    writeSafe this relativePath text d w = (Return fullPath, d', w')
    ∧ readFile this relativePath d' = Return text
    ∧ (∀ original, d !! fullPath = Some original →
         ∃ backupName,
           (path_join [backupDir this; backupName] ≠ fullPath →
            d' !! path_join [backupDir this; backupName] = Some original)
           ∧ ∀ p, p ≠ fullPath → p ≠ path_join [backupDir this; backupName] →
                  d' !! p = d !! p)
    ∧ (d !! fullPath = None → w' = w ∧ ∀ p, p ≠ fullPath → d' !! p = d !! p).
Proof.
  intros fullPath. unfold writeSafe, readFile. fold fullPath.
  destruct (d !! fullPath) as [original|] eqn:Hold.
  - destruct (now w) as [timestamp w1]. destruct (uuidv4 w1) as [uuid w2].
    eexists _, _. split; [reflexivity|]. split; [by rewrite lookup_insert_eq|].
    split; [|done]. intros ? [= <-].
    exists (decimal timestamp +:+ "_" +:+ uuid +:+ "_" +:+ path_basename relativePath).
    split.
    + intros Hne. rewrite lookup_insert_ne by done. apply lookup_insert_eq.
    + intros p Hp Hb. rewrite lookup_insert_ne by done. by rewrite lookup_insert_ne.
  - eexists _, _. split; [reflexivity|]. split; [by rewrite lookup_insert_eq|].
    split; [done|]. intros _. split; [done|]. intros p Hp. by rewrite lookup_insert_ne.
Qed.

End Storage.

Section NormalizationFurther.
Import LLMService.

Lemma coerced_idemp (msg : BaseMessage) : coerced (coerced msg) = coerced msg.
Proof.
  unfold coerced. destruct msg as [[] c]; reflexivity.
Qed.

Lemma filter_not_system_coerced (conv : list BaseMessage) :
  filter (fun m => getType m ≠ system) (map coerced conv) = map coerced conv.
Proof.
  induction conv as [|m conv IH]; simpl; [done|].
  rewrite filter_cons, decide_True by apply coerced_not_system. by rewrite IH.
Qed.

Lemma list_fmap_compose_coerced (conv : list BaseMessage) :
  map coerced (map coerced conv) = map coerced conv.
Proof.
  induction conv as [|m conv IH]; simpl; [done|]. by rewrite coerced_idemp, IH.
Qed.

(** X12. The normalization for Google is idempotent: normalizing a
    normalized sequence changes nothing. *)
Theorem preprocessForGoogle_idempotent (messages : list BaseMessage) :
  preprocessForGoogle (preprocessForGoogle messages) = preprocessForGoogle messages.
Proof.
  rewrite (preprocessForGoogle_eq (preprocessForGoogle messages)).
  rewrite (preprocessForGoogle_eq messages). cbv zeta.
  set (combined := join (nl +:+ nl) (map content (filter _ messages))).
  set (conv := filter (fun m => getType m ≠ system) messages).
  rewrite !filter_app, no_system_after_coercion, filter_not_system_coerced, app_nil_r.
  destruct (truthy combined) eqn:Ht.
  - rewrite (filter_cons _ (SystemMessage combined)), decide_True by done.
    rewrite (filter_cons _ (SystemMessage combined)),
      decide_False by (intros Hn; by apply Hn).
    rewrite !filter_nil. simpl. by rewrite Ht, list_fmap_compose_coerced.
  - rewrite !filter_nil. simpl. by rewrite list_fmap_compose_coerced.
Qed.

End NormalizationFurther.

Section NormalizationContents.
Import LLMService.

Lemma coerced_human (m : BaseMessage) : getType (coerced m) = human ↔ getType m = human.
Proof. unfold coerced. destruct m as [[] c]; simpl; split; congruence. Qed.

Lemma coerced_human_same (m : BaseMessage) : getType m = human → coerced m = m.
Proof. unfold coerced. intros ->. done. Qed.

Lemma coerced_content (m : BaseMessage) : content (coerced m) = content m.
Proof. unfold coerced. by destruct m as [[] c]. Qed.

Lemma filter_human_coerced (conv : list BaseMessage) :
  filter (fun m => getType m = human) (map coerced conv)
  = filter (fun m => getType m = human) conv.
Proof.
  induction conv as [|m conv IH]; simpl; [done|]. rewrite !filter_cons.
  destruct (decide (getType m = human)) as [Hh|Hh].
  - rewrite decide_True by (by apply coerced_human). by rewrite IH, coerced_human_same.
  - rewrite decide_False by (by rewrite coerced_human). done.
Qed.

Lemma filter_human_not_system (messages : list BaseMessage) :
  filter (fun m => getType m = human) (filter (fun m => getType m ≠ system) messages)
  = filter (fun m => getType m = human) messages.
Proof.
  induction messages as [|m messages IH]; simpl; [done|]. rewrite !filter_cons.
  destruct (decide (getType m ≠ system)) as [Hs|Hs].
  - rewrite filter_cons. by rewrite IH.
  - rewrite IH. rewrite decide_False; [done|]. intros Hh. apply Hs. by rewrite Hh.
Qed.

Lemma length_system_and_others (messages : list BaseMessage) :
  length (filter (fun m => getType m = system) messages)
  + length (filter (fun m => getType m ≠ system) messages) = length messages.
Proof.
  induction messages as [|m messages IH]; simpl; [done|]. rewrite !filter_cons.
  destruct (decide (getType m = system)) as [Hs|Hs].
  - rewrite decide_False by (intros Hn; by apply Hn). simpl. lia.
  - rewrite decide_True by done. simpl. lia.
Qed.

(** X13. The normalization for Google keeps the conversation: the human
    messages of the output are those of the input, unchanged and in their
    order; the messages that are not system messages keep their contents
    and their order; and the output is never longer than the input. *)
Theorem preprocessForGoogle_keeps_conversation (messages : list BaseMessage) :
  filter (fun m => getType m = human) (preprocessForGoogle messages)
  = filter (fun m => getType m = human) messages
  ∧ map content (filter (fun m => getType m ≠ system) (preprocessForGoogle messages))
    = map content (filter (fun m => getType m ≠ system) messages)
  ∧ length (preprocessForGoogle messages) ≤ length messages.
Proof.
  rewrite preprocessForGoogle_eq. cbv zeta.
  set (sys := filter (fun m => getType m = system) messages).
  set (conv := filter (fun m => getType m ≠ system) messages).
  pose proof (length_system_and_others messages) as Hlen. fold sys conv in Hlen.
  rewrite !filter_app, filter_not_system_coerced, filter_human_coerced.
  unfold conv at 1. rewrite filter_human_not_system.
  destruct (truthy (join (nl +:+ nl) (map content sys))) eqn:Ht.
  - rewrite !(filter_cons _ (SystemMessage _)), decide_False by done.
    rewrite decide_False by (intros Hn; by apply Hn). rewrite !filter_nil. simpl.
    split; [done|]. split.
    + rewrite <- list_fmap_compose. apply list_fmap_ext. intros i m _. apply coerced_content.
    + rewrite length_map. destruct sys; [done|simpl in Hlen; lia].
  - rewrite !filter_nil. simpl. split; [done|]. split.
    + rewrite <- list_fmap_compose. apply list_fmap_ext. intros i m _. apply coerced_content.
    + rewrite length_map. lia.
Qed.

End NormalizationContents.

Section ChatFurther.
Context {World : Type} `{!Backend World}.
Import LLMService.

Lemma append_empty (s : string) : s +:+ "" = s.
Proof. induction s as [|a s IH]; [done|]. rewrite append_cons. by f_equal. Qed.

Lemma accumulate_chunks (chunks : list string) (fullContent : string) :
  fold_left (fun fullContent chunkText => fullContent +:+ chunkText) chunks fullContent
  = fullContent +:+ foldr String.append "" chunks.
Proof.
  revert fullContent. induction chunks as [|c chunks IH]; intros fullContent; simpl.
  - by rewrite append_empty.
  - by rewrite IH, string_app_assoc.
Qed.

(** X14. When the stream completes before the timer fires, the reply of
    [chat] is the text of the chunks, in the order they came, and nothing
    else. *)
Theorem chat_returns_the_streamed_text (this : t) (messages : list BaseMessage)
    (w w' : World) (o : StreamOutcome) (elapsed : N) :
  backendCall this messages w = Some (o, w') →
  ending o = StreamDone →
  settledAfter o = Some elapsed →
  (elapsed < timeout_ms)%N →
  chat this messages w = (Return (foldr String.append "" (chunks o)), w').
Proof.
  intros Hcall Hend Hsettled Hlt. unfold backendCall in Hcall.
  destruct (model this) as [m|] eqn:Hm; [|done]. simpl in Hcall.
  injection Hcall as Hcall. unfold chat. rewrite Hm, Hcall.
  unfold race, streamPromise. rewrite Hsettled, Hend.
  apply N.ltb_lt in Hlt. rewrite Hlt. by rewrite accumulate_chunks.
Qed.

End ChatFurther.

Section Fences.
Context `{!Runtime}.
Import WorkflowEngine.

Lemma no_backquote_cons (c : ascii) (s : string) :
  includes (String c s) backquote = false → c ≠ ascii_of_nat 96 ∧ includes s backquote = false.
Proof.
  simpl. destruct (decide (ascii_of_nat 96 = c)) as [<-|Hc]; [done|].
  simpl. intros Hs. split; [by intros ->|done].
Qed.

Lemma replace_from_no_backquote (p r s : string) :
  includes s backquote = false →
  replace_from (String (ascii_of_nat 96) p) r 0 s = s.
Proof.
  induction s as [|c s IH]; intros Hs; [done|].
  apply no_backquote_cons in Hs as [Hc Hs]. simpl.
  rewrite decide_False by (by intros <-). by rewrite IH.
Qed.

Lemma replace_json_fence_before_end (body : string) :
  includes body backquote = false →
  replace_from "```json" "" 0 (body +:+ "```") = body +:+ "```".
Proof.
  induction body as [|c body IH]; intros Hs; [reflexivity|].
  apply no_backquote_cons in Hs as [Hc Hs]. rewrite append_cons. simpl.
  rewrite decide_False by (by intros <-). by rewrite IH.
Qed.

Lemma replace_fence_at_end (body : string) :
  includes body backquote = false →
  replace_from "```" "" 0 (body +:+ "```") = body.
Proof.
  induction body as [|c body IH]; intros Hs; [reflexivity|].
  apply no_backquote_cons in Hs as [Hc Hs]. rewrite append_cons. simpl.
  rewrite decide_False by (by intros <-). by rewrite IH.
Qed.

(** X15. The fences are taken off a response before it is parsed: for a
    body without backquotes, the text between a [```json] fence and a [```]
    fence is cleaned to the trimmed body, and so is the body without
    fences. *)
Theorem cleanJson_takes_fences_off (body : string) :
  includes body backquote = false →
  cleanJson ("```json" +:+ body +:+ "```") = trim body
  ∧ cleanJson body = trim body.
Proof.
  intros Hs. unfold cleanJson, replace_all. split; f_equal.
  - change (replace_from "```json" "" 0 ("```json" +:+ body +:+ "```"))
      with (replace_from "```json" "" 0 (body +:+ "```")).
    rewrite replace_json_fence_before_end by done. by apply replace_fence_at_end.
  - assert (replace_from "```json" "" 0 body = body) as ->
      by apply (replace_from_no_backquote "``json" "" body Hs).
    apply (replace_from_no_backquote "``" "" body Hs).
Qed.

End Fences.

(** * Properties of the model discovery *)

Lemma string_drop_length_app (p s : string) : string_drop (String.length p) (p +:+ s) = s.
Proof. induction p as [|a p IH]; [done|]. simpl. exact IH. Qed.

(** Replacing a prefix by nothing takes it off. *)
Lemma replace_first_prefix (p s : string) : replace_first p "" (p +:+ s) = s.
Proof.
  destruct (p +:+ s) as [|c rest] eqn:E.
  - destruct p; [|done]. simpl in E. subst. done.
  - simpl. rewrite <- E. rewrite startsWith_app, string_drop_length_app. done.
Qed.

Section DiscoveryProperties.
Context {World : Type} `{!ModelDiscovery.Network World}.
Import ModelDiscovery.

(** [forEach] with a [push] under a test collects the images of the entries
    that pass, in order. *)
Lemma forEach_push {A B} (test : A → bool) (f : A → B) (entries : list A) (models : list B) :
  fold_left (fun models m => if test m then models ++ [f m] else models) entries models
  = models ++ map f (List.filter test entries).
Proof.
  revert models. induction entries as [|m entries IH]; intros models; simpl.
  - by rewrite app_nil_r.
  - rewrite IH. destruct (test m); [|done]. simpl. by rewrite <- app_assoc.
Qed.

Lemma forEach_push_all {A B} (f : A → B) (entries : list A) (models : list B) :
  fold_left (fun models m => models ++ [f m]) entries models = models ++ map f entries.
Proof.
  revert models. induction entries as [|m entries IH]; intros models; simpl.
  - by rewrite app_nil_r.
  - rewrite IH. by rewrite <- app_assoc.
Qed.

Lemma listing_served (request : Request) (errorPrefix : string) (w w' : World)
    (res : Response) (body : Body) :
  fetch request w = (Return res, w') → ok res = true → json res = Return body →
  listing request errorPrefix w = (Return body, w').
Proof. intros Hf Hok Hj. unfold listing. rewrite Hf, Hok. simpl. by rewrite Hj. Qed.

(** X16. The providers with a key are not asked without it: for OpenAI,
    Anthropic and Google, a missing or empty key ends the call in the error
    that names the provider, and the world is the one before the call. *)
Theorem getAvailableModels_requires_key (provider : LLMProvider) (apiKey : option string)
    (w : World) :
  needs_key provider = true → missing apiKey = true →
  getAvailableModels provider apiKey w
  = (Throw (mkError ("API Key required for " +:+ label provider)), w).
Proof. intros Hneeds Hmissing. destruct provider; try done; simpl; by rewrite Hmissing. Qed.

(** X17. What goes wrong with the request ends the call: when the key is
    there or none is needed, a request that fails passes its error on, a
    response that is not ok gives the error made of the provider's name and
    the status text, and a body that cannot be read passes its error on. *)
Theorem getAvailableModels_request_errors (provider : LLMProvider) (apiKey : option string)
    (answer : Completion Response) (w w' : World) :
  needs_key provider = false ∨ missing apiKey = false →
  (∀ request, fetch request w = (answer, w')) →
  match answer with
  | Throw e => getAvailableModels provider apiKey w = (Throw e, w')
  | Return res =>
      if ok res then
        ∀ e, json res = Throw e → getAvailableModels provider apiKey w = (Throw e, w')
      else
        getAvailableModels provider apiKey w
        = (Throw (mkError (label provider +:+ " API Error: " +:+ statusText res)), w')
  end.
Proof.
  intros Hkey Hfetch.
  assert (∀ request errorPrefix,
            listing request errorPrefix w
            = match answer with
              | Throw e => (Throw e, w')
              | Return res =>
                  if negb (ok res) then (Throw (mkError (errorPrefix +:+ statusText res)), w')
                  else (json res, w')
              end) as Hlisting.
  { intros request errorPrefix. unfold listing. rewrite Hfetch. by destruct answer. }
  destruct provider; destruct Hkey as [Hkey|Hkey]; simpl in Hkey; try discriminate;
    simpl; rewrite ?Hkey, Hlisting; destruct answer as [res|e]; try done;
    destruct (ok res); simpl; try done; intros e He; by rewrite He.
Qed.

(** X18. Every model that is returned carries the provider that was asked
    for. *)
Theorem getAvailableModels_provider (requested : LLMProvider) (apiKey : option string)
    (w w' : World) (models : list ModelInfo) :
  getAvailableModels requested apiKey w = (Return models, w') →
  Forall (fun m => provider m = requested) models.
Proof.
  intros Hrun. apply Forall_forall. intros m Hm. destruct requested; simpl in Hrun.
  - destruct (missing apiKey); [done|]. destruct (listing _ _ _) as [[body|e] w1]; [|done].
    injection Hrun as <- <-. rewrite forEach_push in Hm. simpl in Hm.
    apply list_elem_of_fmap in Hm as (x & -> & _). done.
  - destruct (missing apiKey); [done|]. destruct (listing _ _ _) as [[body|e] w1]; [|done].
    injection Hrun as <- <-. rewrite forEach_push_all in Hm. simpl in Hm.
    apply list_elem_of_fmap in Hm as (x & -> & _). done.
  - destruct (missing apiKey); [done|]. destruct (listing _ _ _) as [[body|e] w1]; [|done].
    destruct (ModelDiscovery.models body) as [entries|].
    + injection Hrun as <- <-. rewrite forEach_push_all in Hm. simpl in Hm.
      apply list_elem_of_fmap in Hm as (x & -> & _). done.
    + injection Hrun as <- <-. by apply elem_of_nil in Hm.
  - destruct (listing _ _ _) as [[body|e] w1]; [|done].
    destruct (ModelDiscovery.models body) as [entries|]; [|done].
    injection Hrun as <- <-. rewrite forEach_push_all in Hm. simpl in Hm.
    apply list_elem_of_fmap in Hm as (x & -> & _). done.
Qed.

(** X19. The listing of OpenAI: the request carries the key as a bearer
    token, and the models returned are the entries whose id contains [gpt],
    in the order of the listing, each under its id as its name. *)
Theorem openai_models_are_the_gpt_entries (key : string) (w w' : World) (res : Response)
    (body : Body) :
  truthy key = true →
  fetch (mkRequest "https://api.openai.com/v1/models" [("Authorization", "Bearer " +:+ key)]) w
  = (Return res, w') →
  ok res = true → json res = Return body →
  getAvailableModels openai (Some key) w
  = (Return (map (fun m => mkModelInfo (e_id m) (e_id m) openai)
               (List.filter (fun m => includes (e_id m) "gpt") (data body))),
     w').
Proof.
  intros Hkey Hfetch Hok Hjson. simpl. rewrite Hkey. simpl.
  rewrite (listing_served _ _ w w' res body Hfetch Hok Hjson).
  by rewrite forEach_push.
Qed.

(** X20. The listing of Google: the key travels in the address, and of
    entries named [models/<id>] the models returned are the [<id>]s, in
    order, each under its display name, or under its id when the display
    name is missing or empty. *)
Theorem google_ids_drop_the_prefix (key : string) (w w' : World) (res : Response)
    (body : Body) (entries : list Entry) :
  truthy key = true →
  fetch (mkRequest ("https://generativelanguage.googleapis.com/v1beta/models?key=" +:+ key) [])
    w = (Return res, w') →
  ok res = true → json res = Return body → ModelDiscovery.models body = Some entries →
  (∀ m, m ∈ entries → startsWith "models/" (e_name m) = true) →
  ∃ models,
    getAvailableModels google (Some key) w = (Return models, w')
    ∧ map (fun m => "models/" +:+ id m) models = map e_name entries
    ∧ Forall2 (fun m e => name m = or_else (displayName e) (id m)) models entries.
Proof.
  intros Hkey Hfetch Hok Hjson Hmodels Hnames. simpl. rewrite Hkey. simpl.
  rewrite (listing_served _ _ w w' res body Hfetch Hok Hjson), Hmodels.
  eexists. split; [reflexivity|]. rewrite forEach_push_all. simpl.
  clear Hmodels. induction entries as [|e entries IH]; [by split|].
  destruct IH as [IH1 IH2]; [intros m Hm; apply Hnames; by right|].
  destruct (proj1 (startsWith_spec "models/" (e_name e))) as [rest Hrest];
    [apply Hnames; by left|].
  split.
  - simpl. rewrite IH1. f_equal. rewrite Hrest at 1.
    by rewrite (replace_first_prefix "models/" rest).
  - simpl. by constructor.
Qed.

(** X21. A listing without [models]: for Google the result is the empty list
    of models, for Ollama the call ends in a TypeError. *)
Theorem listing_without_models (key : string) (w w' : World) (res : Response) (body : Body) :
  truthy key = true →
  (∀ request, fetch request w = (Return res, w')) →
  ok res = true → json res = Return body → ModelDiscovery.models body = None →
  getAvailableModels google (Some key) w = (Return [], w')
  ∧ getAvailableModels ollama (Some key) w
    = (Throw (TypeError "Cannot read properties of undefined (reading 'forEach')"), w').
Proof.
  intros Hkey Hfetch Hok Hjson Hmodels. split; simpl; rewrite ?Hkey; simpl;
    rewrite (listing_served _ _ w w' res body (Hfetch _) Hok Hjson), Hmodels; done.
Qed.

End DiscoveryProperties.

(** * Properties of the manager *)

Section ManagerProperties.
Context {World : Type} `{!Backend World} `{!Runtime} `{!AgentManager.SettingsCodec}.
Context `{!ChatModels} `{!AgentManager.Volume World}.
Import WorkflowEngine.

Lemma reply_now_content (content : string) (w : World) :
  AgentManager.content (AgentManager.reply_now content w).1 = content
  ∧ AgentManager.role (AgentManager.reply_now content w).1 = "agent".
Proof.
  unfold AgentManager.reply_now. destruct (now w) as [t1 w1]. by destruct (now w1) as [t2 w2].
Qed.

(** The handler of [agent:chat] over an engine: the reply of
    [processMessage], in an envelope. *)
Lemma chat_with_engine (userMessage : string) (s : AgentManager.State World) (e : t) :
  AgentManager.workflow (AgentManager.manager s) = Some e →
  ∃ response after reply final,
    processMessage userMessage (mkState e (AgentManager.disk s) (AgentManager.world s))
    = (Return response, after)
    ∧ AgentManager.chat userMessage s = (Return reply, final)
    ∧ AgentManager.content reply = response
    ∧ AgentManager.role reply = "agent"
    ∧ AgentManager.workflow (AgentManager.manager final) = Some (engine after)
    ∧ AgentManager.projectPath (AgentManager.manager final)
      = AgentManager.projectPath (AgentManager.manager s)
    ∧ AgentManager.disk final = disk after.
Proof.
  intros He.
  destruct (processMessage_history userMessage
              (mkState e (AgentManager.disk s) (AgentManager.world s)))
    as (response & after & Hrun & _).
  exists response, after. unfold AgentManager.chat. rewrite He, Hrun.
  pose proof (reply_now_content response (world after)) as [Hc Hr].
  destruct (AgentManager.reply_now response (world after)) as [reply w'].
  exists reply. eexists. split; [done|]. split; [reflexivity|]. by repeat split.
Qed.

(** X22. The handler of [agent:chat] always answers: without a project the
    answer is the fixed notice and nothing changes but the clock; with a
    project the answer is the reply of [processMessage] on the engine, which
    does not throw, and the engine and the files are the ones it leaves. *)
Theorem chat_handler_always_replies (userMessage : string) (s : AgentManager.State World) :
  ∃ reply final,
    AgentManager.chat userMessage s = (Return reply, final)
    ∧ AgentManager.role reply = "agent"
    ∧ match AgentManager.workflow (AgentManager.manager s) with
      | None =>
          AgentManager.content reply = AgentManager.notInitialized
          ∧ AgentManager.manager final = AgentManager.manager s
          ∧ AgentManager.disk final = AgentManager.disk s
      | Some e =>
          ∃ response after,
            processMessage userMessage
              (mkState e (AgentManager.disk s) (AgentManager.world s))
            = (Return response, after)
            ∧ AgentManager.content reply = response
            ∧ AgentManager.workflow (AgentManager.manager final) = Some (engine after)
            ∧ AgentManager.disk final = disk after
      end.
Proof.
  destruct (AgentManager.workflow (AgentManager.manager s)) as [e|] eqn:He.
  - destruct (chat_with_engine userMessage s e He)
      as (response & after & reply & final & Hrun & Hchat & Hc & Hr & Hw & _ & Hd).
    exists reply, final. split; [done|]. split; [done|]. by exists response, after.
  - unfold AgentManager.chat. rewrite He.
    pose proof (reply_now_content AgentManager.notInitialized (AgentManager.world s))
      as [Hc Hr].
    destruct (AgentManager.reply_now _ _) as [reply w']. by eexists _, _.
Qed.

(** X23. The tree that was generated is the tree the task view gets: when
    the manager serves a project and a confirming message at INITIATION has
    the generation output parse to a project node, the chat handler answers
    with the summary and [agent:get-tasks] then returns that node, provided
    the text written for the node reads back as the node. *)
Theorem get_tasks_after_generation (userMessage response projectPath : string)
    (s : AgentManager.State World) (before : State World) (w' : World)
    (projectNode : TaskNode) :
  serves projectPath s → truthy projectPath = true →
  engine_state s = Some before →
  currentStep (engine before) = INITIATION →
  confirms_generation (toLowerCase userMessage) = true →
  generationCall (pushed (HumanMessage userMessage) before) = (Return response, w') →
  JSON_parse_node (cleanJson response) = Return projectNode →
  JSON_parse_node (JSON_stringify projectNode) = Return projectNode →
  ∃ reply final,
    AgentManager.chat userMessage s = (Return reply, final)
    ∧ AgentManager.content reply = generationReply projectNode
    ∧ AgentManager.get_tasks final = Return (Some projectNode)
    ∧ serves projectPath final.
Proof.
  intros (Hpath & e & He & Hfs) Htruthy Hbefore Hstep Hyes Hcall Hparse Hround.
  unfold engine_state in Hbefore. rewrite He in Hbefore. simpl in Hbefore.
  injection Hbefore as <-.
  destruct (generateHighLevelTasks_run userMessage response _ w' projectNode
              Hstep Hyes Hcall Hparse) as (s' & Hrun & Hfile & _ & _ & Hfs' & _).
  destruct (chat_with_engine userMessage s e He)
    as (response' & after & reply & final & Hrun' & Hchat & Hc & _ & Hw & Hp & Hd).
  rewrite Hrun in Hrun'. injection Hrun' as <- <-.
  exists reply, final. split; [done|]. split; [done|]. split.
  - unfold AgentManager.get_tasks. rewrite Hp, Hpath. simpl. rewrite Htruthy.
    rewrite Hd. unfold tasksPath in Hfile. simpl in Hfile. rewrite Hfs in Hfile.
    simpl in Hfile. rewrite Hfile. by rewrite Hround.
  - split; [by rewrite Hp|]. exists (engine s'). split; [done|]. by rewrite Hfs'.
Qed.

Lemma restore_starts_anew (settings : string) (projectPath : string) (d : Disk) :
  let e := AgentManager.restore settings (WorkflowEngine.new (AgentFileSystem.new projectPath)) d in
  fs e = AgentFileSystem.new projectPath ∧ starts_anew e.
Proof.
  unfold AgentManager.restore, AgentManager.configure_engine.
  destruct (AgentManager.readSettings settings d) as [st|?]; [|done].
  destruct (AgentManager.llm st) as [c|]; [|done].
  by destruct (LLMService.configure _ _ _ _).
Qed.

(** X24. Opening a project starts over, or fails as a whole.  In every case
    the manager holds the new path and file system afterwards, and no file
    but the settings is touched.  When [initializeProject] reports success,
    none of its directories was refused, and the manager serves the
    directory with a new engine, at INITIATION with an empty history,
    whatever it held before; the settings file is written only when it was
    not there, with the time of creation and the default mode.  When it
    reports failure, no file was written and the error is the message of a
    refusal of one of the directories or of the settings file.  On a volume
    that refuses nothing it reports success. *)
Theorem initializeProject_starts_over (projectPath : string) (s : AgentManager.State World) :
  let result := (AgentManager.initializeProject projectPath s).1 in
  let final := (AgentManager.initializeProject projectPath s).2 in
  let settings := path_join [path_join [projectPath; ".agent_workspace"]; "settings.json"] in
  AgentManager.projectPath (AgentManager.manager final) = Some projectPath
  ∧ AgentManager.fileSystem (AgentManager.manager final)
    = Some (AgentFileSystem.new projectPath)
  ∧ (∀ path, path ≠ settings →
       AgentManager.disk final !! path = AgentManager.disk s !! path)
  ∧ (AgentManager.success result = true →
       AgentManager.error result = None
       ∧ Forall (fun path => AgentManager.refused (AgentManager.world s) path = None)
           (directories projectPath)
       ∧ serves projectPath final
       ∧ (∃ e, AgentManager.workflow (AgentManager.manager final) = Some e ∧ starts_anew e)
       ∧ match AgentManager.disk s !! settings with
         | Some _ => AgentManager.disk final = AgentManager.disk s
         | None =>
             ∃ created,
               AgentManager.disk final !! settings
               = Some (AgentManager.stringify_settings
                         (AgentManager.mkSettings (Some created) (Some "default") None))
         end)
  ∧ (AgentManager.success result = false →
       AgentManager.disk final = AgentManager.disk s
       ∧ ∃ w path e,
           path ∈ directories projectPath ++ [settings]
           ∧ AgentManager.refused w path = Some e
           ∧ AgentManager.error result = Some (message e))
  ∧ ((∀ w path, AgentManager.refused w path = None) → AgentManager.success result = true).
Proof.
  intros result final settings. subst result final.
  unfold AgentManager.initializeProject, AgentManager.ensureDir, AgentManager.failed.
  cbn [AgentManager.world AgentManager.disk AgentManager.manager AgentManager.set_workflow].
  fold settings.
  set (backups := AgentFileSystem.backupDir (AgentFileSystem.new projectPath)).
  set (history := path_join [path_join [projectPath; ".agent_workspace"]; "history"]).
  set (snapshots := path_join [path_join [projectPath; ".agent_workspace"]; "snapshots"]).
  assert (directories projectPath = [backups; history; snapshots]) as Hdirs by done.
  rewrite Hdirs. set (w := AgentManager.world s).
  destruct (AgentManager.refused w backups) as [e1|] eqn:Hr1.
  { repeat split; try done. - exists w, backups, e1. set_solver.
    - intros Hnone. by rewrite Hnone in Hr1. }
  destruct (AgentManager.refused w history) as [e2|] eqn:Hr2.
  { repeat split; try done. - exists w, history, e2. set_solver.
    - intros Hnone. by rewrite Hnone in Hr2. }
  destruct (AgentManager.refused w snapshots) as [e3|] eqn:Hr3.
  { repeat split; try done. - exists w, snapshots, e3. set_solver.
    - intros Hnone. by rewrite Hnone in Hr3. }
  assert (Forall (fun path => AgentManager.refused w path = None) [backups; history; snapshots])
    as Hall by (by repeat constructor).
  destruct (AgentManager.disk s !! settings) as [text|] eqn:Hfile.
  - destruct (restore_starts_anew settings projectPath (AgentManager.disk s)) as [Hfs Hnew].
    cbn [fst snd AgentManager.manager AgentManager.disk AgentManager.projectPath
         AgentManager.fileSystem AgentManager.workflow AgentManager.success
         AgentManager.error].
    split; [done|]. split; [done|]. split; [done|]. split; [|by split].
    intros _. split; [done|]. split; [done|]. split; [|by split; [eexists|]].
    split; [done|]. by eexists.
  - destruct (now w) as [created w'] eqn:Hnow. unfold AgentManager.writeJSON.
    cbn [AgentManager.world AgentManager.disk AgentManager.manager].
    destruct (AgentManager.refused w' settings) as [e4|] eqn:Hr4.
    + repeat split; try done. * exists w', settings, e4. set_solver.
      * intros Hnone. by rewrite Hnone in Hr4.
    + cbn [fst snd AgentManager.manager AgentManager.disk AgentManager.projectPath
           AgentManager.fileSystem AgentManager.workflow AgentManager.success
           AgentManager.error].
      split; [done|]. split; [done|].
      split; [intros path Hne; by rewrite lookup_insert_ne|]. split; [|by split].
      intros _. split; [done|]. split; [done|]. split; [by split; [|eexists]|].
      split; [by eexists|]. exists created. by rewrite lookup_insert_eq.
Qed.

(** What [configure] ends in is decided by the constructor. *)
Lemma configure_accepted (this : LLMService.t) (provider : LLMProvider) (modelId : string)
    (apiKey : option string) (m : BaseChatModel) :
  LLMService.model (LLMService.configured this provider modelId apiKey) = Some m →
  rejects m = None →
  LLMService.configure this provider modelId apiKey
  = (Return tt, LLMService.configured this provider modelId apiKey).
Proof.
  intros Hm Hok. unfold LLMService.configure, LLMService.construct.
  destruct provider; simpl in *; injection Hm as <-; by rewrite Hok.
Qed.

Lemma configure_rejected (this : LLMService.t) (provider : LLMProvider) (modelId : string)
    (apiKey : option string) (m : BaseChatModel) (error : Error) :
  LLMService.model (LLMService.configured this provider modelId apiKey) = Some m →
  rejects m = Some error →
  LLMService.configure this provider modelId apiKey
  = (Throw error, LLMService.mk (LLMService.model this) (Some provider)).
Proof.
  intros Hm Hno. unfold LLMService.configure, LLMService.construct.
  destruct provider; simpl in *; injection Hm as <-; by rewrite Hno.
Qed.

(** X25. The provider that was configured is there again when the project
    is opened anew.  For a manager that serves a project, when the
    constructor of the model accepts the configuration and the volume does
    not refuse the settings file, [agent:configure-llm] reports success,
    configures the service of the engine and writes the settings with the
    configuration, keeping what the settings held besides; and
    [initializeProject] over these files, from any manager on a volume that
    does not refuse its directories, builds an engine whose service is
    configured in the same way, provided the settings that were written
    read back and the two ways the code builds the path of the settings
    file agree. *)
Theorem configured_provider_survives_reopening (config : AgentManager.LLMConfig)
    (projectPath : string) (s : AgentManager.State World) (e : t) (m : BaseChatModel) :
  AgentManager.projectPath (AgentManager.manager s) = Some projectPath →
  truthy projectPath = true →
  AgentManager.workflow (AgentManager.manager s) = Some e →
  let service (this : LLMService.t) :=
    LLMService.configured this (AgentManager.provider config)
      (AgentManager.modelId config) (AgentManager.apiKey config) in
  LLMService.model (service (llm e)) = Some m →
  rejects m = None →
  AgentManager.refused (AgentManager.world s) (settingsPath projectPath) = None →
  let written :=
    AgentManager.with_llm config
      (AgentManager.currentSettings (settingsPath projectPath) (AgentManager.disk s)) in
  path_join [path_join [projectPath; ".agent_workspace"]; "settings.json"]
  = settingsPath projectPath →
  AgentManager.parse_settings (AgentManager.stringify_settings written) = Return written →
  let configured := (AgentManager.configure_llm config s).2 in
  (AgentManager.configure_llm config s).1 = Return (AgentManager.mkResult true None)
  ∧ AgentManager.workflow (AgentManager.manager configured) = Some (set_llm (service (llm e)) e)
  ∧ AgentManager.disk configured
    = <[settingsPath projectPath := AgentManager.stringify_settings written]>
        (AgentManager.disk s)
  ∧ ∀ later,
      AgentManager.disk later = AgentManager.disk configured →
      Forall (fun path => AgentManager.refused (AgentManager.world later) path = None)
        (directories projectPath) →
      let reopened := (AgentManager.initializeProject projectPath later).2 in
      (AgentManager.initializeProject projectPath later).1 = AgentManager.mkResult true None
      ∧ AgentManager.disk reopened = AgentManager.disk later
      ∧ ∃ e', AgentManager.workflow (AgentManager.manager reopened) = Some e'
              ∧ llm e' = service LLMService.new
              ∧ currentStep e' = INITIATION.
Proof.
  intros Hpath Htruthy He service Hm Hok Hwrite written Hjoin Hround configured.
  subst configured.
  unfold AgentManager.configure_llm, AgentManager.configure_engine. rewrite He, Hpath. simpl.
  rewrite Htruthy. unfold service in Hm.
  rewrite (configure_accepted _ _ _ _ m Hm Hok).
  unfold AgentManager.writeJSON. cbn [AgentManager.world AgentManager.set_workflow].
  fold (settingsPath projectPath). rewrite Hwrite.
  cbn [fst snd AgentManager.disk AgentManager.manager AgentManager.workflow].
  fold written. split; [done|]. split; [done|]. split; [done|].
  intros later Hlater Hdirs.
  apply Forall_cons in Hdirs as [Hd1 Hdirs]. apply Forall_cons in Hdirs as [Hd2 Hdirs].
  apply Forall_cons in Hdirs as [Hd3 _].
  unfold AgentManager.initializeProject, AgentManager.ensureDir.
  cbn [AgentManager.world AgentManager.disk AgentManager.manager AgentManager.set_workflow].
  rewrite Hd1, Hd2, Hd3, Hjoin, Hlater, lookup_insert_eq.
  unfold AgentManager.restore, AgentManager.readSettings.
  rewrite lookup_insert_eq, Hround. simpl.
  unfold AgentManager.configure_engine.
  assert (LLMService.model (service LLMService.new) = Some m) as Hm'.
  { revert Hm. unfold service. by destruct (AgentManager.provider config). }
  unfold service in Hm'. change (llm (new (AgentFileSystem.new projectPath))) with LLMService.new.
  rewrite (configure_accepted _ _ _ _ m Hm' Hok). simpl.
  split; [done|]. split; [done|]. by eexists.
Qed.

(** X26. How [agent:configure-llm] fails for a manager that serves a project.
    When the constructor of the model throws, the handler ends in that
    error: nothing is written, and the service of the engine already names
    the new provider while its model is the one before.  When the
    constructor returns and the volume refuses the settings file, the
    handler answers that saving the settings failed, with the message of the
    refusal; nothing is written, and the service of the engine is configured
    all the same. *)
Theorem configure_llm_failures (config : AgentManager.LLMConfig) (projectPath : string)
    (s : AgentManager.State World) (e : t) (m : BaseChatModel) :
  AgentManager.projectPath (AgentManager.manager s) = Some projectPath →
  truthy projectPath = true →
  AgentManager.workflow (AgentManager.manager s) = Some e →
  let service :=
    LLMService.configured (llm e) (AgentManager.provider config)
      (AgentManager.modelId config) (AgentManager.apiKey config) in
  LLMService.model service = Some m →
  let outcome := AgentManager.configure_llm config s in
  (∀ error,
     rejects m = Some error →
     outcome.1 = Throw error
     ∧ AgentManager.disk outcome.2 = AgentManager.disk s
     ∧ AgentManager.workflow (AgentManager.manager outcome.2)
       = Some (set_llm (LLMService.mk (LLMService.model (llm e))
                          (Some (AgentManager.provider config))) e))
  ∧ (∀ error,
       rejects m = None →
       AgentManager.refused (AgentManager.world s) (settingsPath projectPath) = Some error →
       outcome.1
       = Return (AgentManager.mkResult false
                   (Some ("Failed to save settings: " +:+ message error)))
       ∧ AgentManager.disk outcome.2 = AgentManager.disk s
       ∧ AgentManager.workflow (AgentManager.manager outcome.2) = Some (set_llm service e)).
Proof.
  intros Hpath Htruthy He service Hm outcome. subst outcome.
  unfold AgentManager.configure_llm, AgentManager.configure_engine. rewrite He, Hpath. simpl.
  rewrite Htruthy. unfold service in Hm. split; intros error Hrej.
  - rewrite (configure_rejected _ _ _ _ m error Hm Hrej). by repeat split.
  - intros Hrefused. rewrite (configure_accepted _ _ _ _ m Hm Hrej).
    unfold AgentManager.writeJSON. cbn [AgentManager.world AgentManager.set_workflow].
    fold (settingsPath projectPath). by rewrite Hrefused.
Qed.

End ManagerProperties.

(** * The further properties at work

    Each property above that has a premise, at a concrete run. *)

Section FurtherRuns.
Import WorkflowEngine.
#[local] Existing Instance Eval.runtime.
#[local] Existing Instance Eval.backend.
#[local] Existing Instance Eval.codec.


(** X4 at the ANALYSIS step. *)
Lemma steps_without_handler_are_final_witness :
  let s := atStep ANALYSIS in
  let userMessages := ["analyze"; "yes"; "skip"] in
  (∀ userMessage,
     (processMessage userMessage s).1 = Return (placeholder (currentStep (engine s))))
  ∧ currentStep (engine (session userMessages s)) = currentStep (engine s)
  ∧ isDecomposing (engine (session userMessages s)) = isDecomposing (engine s)
  ∧ disk (session userMessages s) = disk s
  ∧ world (session userMessages s) = world s.
Proof.
  apply (steps_without_handler_are_final ["analyze"; "yes"; "skip"] (atStep ANALYSIS)).
  vm_compute. set_solver.
Defined.

(** X5 at a fenced answer with a project of two main tasks. *)
Lemma generation_success_witness :
  let s := atInitiation ∅ [Eval.answers shopText] in
  ∃ s', processMessage "Yes, looks good" s = (Return (generationReply shop), s')
        ∧ disk s' !! tasksPath s = Some (JSON_stringify shop)
        ∧ currentStep (engine s') = DECOMPOSITION
        ∧ isDecomposing (engine s') = isDecomposing (engine s)
        ∧ includes (generationReply shop) (title shop) = true.
Proof.
  apply (generation_success "Yes, looks good" shopText
           (atInitiation ∅ [Eval.answers shopText]) (Eval.mkWorld [] 0) shop);
    vm_compute; reflexivity.
Defined.

(** X6 at the first message of a conversation. *)
Lemma initiation_interviews_witness :
  let s := atInitiation ∅ [Eval.answers "What is the goal of the shop?"] in
  let s1 := pushed (HumanMessage "I want a shop") s in
  let messages :=
    SystemMessage (initiationPrompt (context (engine s1))) :: slice_last 10 (history s1) in
  ∃ reply w',
    LLMService.chat (llm (engine s)) messages (world s) = (Return reply, w')
    ∧ processMessage "I want a shop" s
      = (Return reply, pushed (AIMessage reply) (mkState (engine s1) (disk s) w'))
    ∧ length messages ≤ 11
    ∧ last messages = Some (HumanMessage "I want a shop").
Proof.
  apply (initiation_interviews "I want a shop"
           (atInitiation ∅ [Eval.answers "What is the goal of the shop?"]));
    vm_compute; reflexivity.
Defined.

(** X7 at a message with a skip keyword. *)
Lemma decomposition_skip_or_menu_witness :
  let s := atDecomposition (withTasks todoApp) [] in
  let after := processMessage "Skip this one" s in
  (if mentions (toLowerCase "Skip this one") skip_keywords
   then after.1 = Return skipReply ∧ currentStep (engine after.2) = ANALYSIS
   else after.1 = Return decompositionMenu ∧ currentStep (engine after.2) = DECOMPOSITION)
  ∧ isDecomposing (engine after.2) = isDecomposing (engine s)
  ∧ disk after.2 = disk s
  ∧ world after.2 = world s.
Proof.
  apply (decomposition_skip_or_menu "Skip this one" (atDecomposition (withTasks todoApp) []));
    vm_compute; reflexivity.
Defined.

(** X8 at a project whose only main task is decomposed. *)
Lemma nothing_to_decompose_witness :
  let s := atDecomposition (withTasks decomposedApp) [Eval.answers "[]"] in
  let after := processMessage "decompose" s in
  after.1 = Return allDecomposedReply
  ∧ currentStep (engine after.2) = ANALYSIS
  ∧ disk after.2 = disk s
  ∧ world after.2 = world s.
Proof.
  apply (nothing_to_decompose "decompose" (Eval.JSON_stringify decomposedApp) decomposedApp
           (atDecomposition (withTasks decomposedApp) [Eval.answers "[]"]));
    try (vm_compute; reflexivity).
  intros r n Hn [Htype [Hflag Hkids]].
  destruct r as [|[|i] [|[|j] [|k r]]]; simpl in Hn; try discriminate;
    injection Hn as <-; try discriminate; by apply Hflag.
Defined.

(** X9 at a [tasks.json] that is cut off. *)
Lemma decomposition_of_unparsable_tasks_witness :
  let s := atDecomposition {[ "/project/tasks.json" := "{ " ]} [Eval.answers "[]"] in
  processMessage "decompose" s
  = (Return ("Error during decomposition: " +:+ message Eval.syntaxError),
     pushed (AIMessage ("Error during decomposition: " +:+ message Eval.syntaxError))
       (pushed (HumanMessage "decompose") s)).
Proof.
  apply (decomposition_of_unparsable_tasks "decompose" "{ " Eval.syntaxError
           (atDecomposition {[ "/project/tasks.json" := "{ " ]} [Eval.answers "[]"]));
    vm_compute; reflexivity.
Defined.

(** X10 at the run over [todoApp] in which the second generation fails. *)
Lemma decomposition_only_adds_witness :
  let s := atDecomposition (withTasks todoApp) twoFailOne in
  let tasks := findTasksToDecompose todoApp [] [] in
  let nodes := omap (deref todoApp) tasks in
  let started := mkState (set_isDecomposing true (engine s)) (disk s) (world s) in
  let cs := (attempts 0 nodes (title todoApp) started).1 in
  ∃ (root' : TaskNode) (s' : State Eval.World) (reply : string),
    runDecomposition s = (Return reply, s')
    ∧ disk s' !! tasksPath s = Some (JSON_stringify root')
    ∧ (∀ (r : Ref) (n : TaskNode),
         deref todoApp r = Some n →
         ∃ n', deref root' r = Some n'
               ∧ id n' = id n ∧ title n' = title n ∧ status n' = status n ∧ type n' = type n)
    ∧ (∀ (r : Ref) (n : TaskNode),
         deref todoApp r = Some n →
         (∀ task, task ∈ tasks → ¬ r `prefix_of` task) →
         deref root' r = Some n)
    ∧ (∀ (j : nat) (task : Ref) (subTasks : list TaskNode),
         tasks !! j = Some task → cs !! j = Some (Return subTasks) → subTasks ≠ [] →
         task ∉ findTasksToDecompose root' [] []).
Proof.
  apply (decomposition_only_adds (atDecomposition (withTasks todoApp) twoFailOne)
           (Eval.JSON_stringify todoApp) todoApp);
    [reflexivity | reflexivity | vm_compute; reflexivity | vm_compute; discriminate].
Defined.

(** X14 at a stream of two chunks that completes after a second. *)
Lemma chat_returns_the_streamed_text_witness :
  LLMService.chat (LLMService.configured LLMService.new anthropic "claude-3-haiku" (Some "key"))
    [HumanMessage "hello"]
    (Eval.mkWorld [mkOutcome ["Hel"; "lo"] StreamDone (Some 1000%N)] 0)
  = (Return "Hello", Eval.mkWorld [] 0).
Proof.
  apply (chat_returns_the_streamed_text
           (LLMService.configured LLMService.new anthropic "claude-3-haiku" (Some "key"))
           [HumanMessage "hello"]
           (Eval.mkWorld [mkOutcome ["Hel"; "lo"] StreamDone (Some 1000%N)] 0)
           (Eval.mkWorld [] 0)
           (mkOutcome ["Hel"; "lo"] StreamDone (Some 1000%N)) 1000%N);
    vm_compute; reflexivity.
Defined.

(** X15 at an array on a line of its own. *)
Lemma cleanJson_takes_fences_off_witness :
  let body := nl +:+ "[1, 2]" +:+ nl in
  cleanJson ("```json" +:+ body +:+ "```") = trim body
  ∧ cleanJson body = trim body.
Proof. apply (cleanJson_takes_fences_off (nl +:+ "[1, 2]" +:+ nl)). reflexivity. Defined.

End FurtherRuns.

Section DiscoveryRuns.
Import ModelDiscovery.

(** X16 at an empty key for Anthropic: no request is counted. *)
Lemma getAvailableModels_requires_key_witness :
  getAvailableModels (Network0 := Eval.network (fun _ => served openaiListing))
    anthropic (Some "") 0
  = (Throw (mkError ("API Key required for " +:+ label anthropic)), 0).
Proof.
  apply (getAvailableModels_requires_key
           (H := Eval.network (fun _ => served openaiListing)) anthropic (Some "") 0);
    reflexivity.
Defined.

(** X17 at an Ollama that is not running properly. *)
Lemma getAvailableModels_request_errors_witness :
  getAvailableModels (Network0 := Eval.network (refusing "Service Unavailable")) ollama None 0
  = (Throw (mkError (label ollama +:+ " API Error: " +:+ "Service Unavailable")), 1).
Proof.
  apply (getAvailableModels_request_errors
           (H := Eval.network (refusing "Service Unavailable")) ollama None
           (refusing "Service Unavailable" (mkRequest "" [])) 0 1);
    [by left | reflexivity].
Defined.

(** X18 at the listing of OpenAI. *)
Lemma getAvailableModels_provider_witness :
  Forall (fun m => provider m = openai)
    [mkModelInfo "gpt-4o" "gpt-4o" openai;
     mkModelInfo "chatgpt-4o-latest" "chatgpt-4o-latest" openai].
Proof.
  apply (getAvailableModels_provider
           (H := Eval.network (fun _ => served openaiListing)) openai (Some "sk-test")
           0 1).
  vm_compute. reflexivity.
Defined.

(** X19 at a network that serves only the request with the bearer token. *)
Lemma openai_models_are_the_gpt_entries_witness :
  let request :=
    mkRequest "https://api.openai.com/v1/models" [("Authorization", "Bearer sk-test")] in
  getAvailableModels (Network0 := Eval.network (serving request openaiListing))
    openai (Some "sk-test") 0
  = (Return [mkModelInfo "gpt-4o" "gpt-4o" openai;
             mkModelInfo "chatgpt-4o-latest" "chatgpt-4o-latest" openai], 1).
Proof.
  apply (openai_models_are_the_gpt_entries
           (H := Eval.network
              (serving (mkRequest "https://api.openai.com/v1/models"
                          [("Authorization", "Bearer sk-test")]) openaiListing))
           "sk-test" 0 1 (mkResponse true "OK" (Return openaiListing)) openaiListing);
    vm_compute; reflexivity.
Defined.

(** X20 at a network that serves only the address with the key. *)
Lemma google_ids_drop_the_prefix_witness :
  let request :=
    mkRequest "https://generativelanguage.googleapis.com/v1beta/models?key=AIza-test" [] in
  ∃ models,
    getAvailableModels (Network0 := Eval.network (serving request googleListing))
      google (Some "AIza-test") 0 = (Return models, 1)
    ∧ map (fun m => "models/" +:+ id m) models
      = map e_name [named "models/gemini-1.5-pro" (Some "Gemini 1.5 Pro");
                    named "models/gemini-1.5-flash" None;
                    named "models/embedding-001" (Some "")]
    ∧ Forall2 (fun m e => name m = or_else (displayName e) (id m)) models
        [named "models/gemini-1.5-pro" (Some "Gemini 1.5 Pro");
         named "models/gemini-1.5-flash" None;
         named "models/embedding-001" (Some "")].
Proof.
  apply (google_ids_drop_the_prefix
           (H := Eval.network
              (serving (mkRequest
                          "https://generativelanguage.googleapis.com/v1beta/models?key=AIza-test"
                          []) googleListing))
           "AIza-test" 0 1 (mkResponse true "OK" (Return googleListing)) googleListing);
    try (vm_compute; reflexivity).
  intros m Hm. repeat (apply elem_of_cons in Hm as [->|Hm]; [reflexivity|]).
  by apply elem_of_nil in Hm.
Defined.

(** X21 at a body that has no [models]. *)
Lemma listing_without_models_witness :
  getAvailableModels (Network0 := Eval.network (fun _ => served (mkBody [] None)))
    google (Some "AIza-test") 0 = (Return [], 1)
  ∧ getAvailableModels (Network0 := Eval.network (fun _ => served (mkBody [] None)))
      ollama (Some "AIza-test") 0
    = (Throw (TypeError "Cannot read properties of undefined (reading 'forEach')"), 1).
Proof.
  apply (listing_without_models
           (H := Eval.network (fun _ => served (mkBody [] None)))
           "AIza-test" 0 1 (mkResponse true "OK" (Return (mkBody [] None))) (mkBody [] None));
    reflexivity.
Defined.

End DiscoveryRuns.

Section ManagerRuns.
Import WorkflowEngine.
#[local] Existing Instance Eval.runtime.
#[local] Existing Instance Eval.backend.
#[local] Existing Instance Eval.codec.
#[local] Existing Instance Eval.models.
#[local] Existing Instance Eval.writable.

(** X23 at a project that was opened and configured, and whose model
    answers with a fenced project of two main tasks. *)
Lemma get_tasks_after_generation_witness :
  ∃ reply final,
    AgentManager.chat "yes" (projectConfigured ∅ [Eval.answers shopText])
    = (Return reply, final)
    ∧ AgentManager.content reply = generationReply shop
    ∧ AgentManager.get_tasks final = Return (Some shop)
    ∧ serves "/project" final.
Proof.
  eapply (get_tasks_after_generation "yes" shopText "/project"
            (projectConfigured ∅ [Eval.answers shopText]) _ _ shop).
  - split; [reflexivity|]. eexists. split; reflexivity.
  - reflexivity.
  - vm_compute. reflexivity.
  - reflexivity.
  - vm_compute. reflexivity.
  - vm_compute. reflexivity.
  - vm_compute. reflexivity.
  - vm_compute. reflexivity.
Defined.

(** X24 on a volume whose settings file cannot be written: opening an empty
    directory reports the refusal and writes nothing, and the manager holds a
    new engine all the same; on a volume that refuses nothing it reports
    success and writes the settings. *)
Lemma initializeProject_on_a_readonly_volume :
  let readonly := Eval.volume ["/project/.agent_workspace/settings.json"] in
  let refusedOpening :=
    AgentManager.initializeProject (Volume0 := readonly) "/project" (started ∅ []) in
  let opening :=
    AgentManager.initializeProject (Volume0 := Eval.writable) "/project" (started ∅ []) in
  refusedOpening.1
  = AgentManager.mkResult false
      (Some "EACCES: permission denied, open '/project/.agent_workspace/settings.json'")
  ∧ AgentManager.disk refusedOpening.2 = ∅
  ∧ AgentManager.workflow (AgentManager.manager refusedOpening.2)
    = Some (WorkflowEngine.new projectFiles)
  ∧ opening.1 = AgentManager.mkResult true None
  ∧ AgentManager.disk opening.2 !! "/project/.agent_workspace/settings.json"
    = Some (AgentManager.stringify_settings
              (AgentManager.mkSettings (Some 0) (Some "default") None)).
Proof. vm_compute. repeat split. Qed.

(** X25 at a project that was just opened. *)
Lemma configured_provider_survives_reopening_witness :
  let s := projectOpened ∅ [] in
  let service (this : LLMService.t) :=
    LLMService.configured this (AgentManager.provider gpt4o)
      (AgentManager.modelId gpt4o) (AgentManager.apiKey gpt4o) in
  let written :=
    AgentManager.with_llm gpt4o
      (AgentManager.currentSettings (settingsPath "/project") (AgentManager.disk s)) in
  let configured := (AgentManager.configure_llm gpt4o s).2 in
  (AgentManager.configure_llm gpt4o s).1 = Return (AgentManager.mkResult true None)
  ∧ AgentManager.workflow (AgentManager.manager configured)
    = Some (set_llm (service (llm (WorkflowEngine.new projectFiles)))
              (WorkflowEngine.new projectFiles))
  ∧ AgentManager.disk configured
    = <[settingsPath "/project" := AgentManager.stringify_settings written]>
        (AgentManager.disk s)
  ∧ ∀ later,
      AgentManager.disk later = AgentManager.disk configured →
      Forall (fun path => AgentManager.refused (AgentManager.world later) path = None)
        (directories "/project") →
      let reopened := (AgentManager.initializeProject "/project" later).2 in
      (AgentManager.initializeProject "/project" later).1 = AgentManager.mkResult true None
      ∧ AgentManager.disk reopened = AgentManager.disk later
      ∧ ∃ e', AgentManager.workflow (AgentManager.manager reopened) = Some e'
              ∧ llm e' = service LLMService.new
              ∧ currentStep e' = INITIATION.
Proof.
  apply (configured_provider_survives_reopening gpt4o "/project" (projectOpened ∅ [])
           (WorkflowEngine.new projectFiles) (ChatOpenAI (Some "sk-test") "gpt-4o"));
    vm_compute; reflexivity.
Defined.

(** X26 at a configuration for Google without a key: the constructor
    throws and so does the handler; the service names Google and has no
    model. *)
Lemma configure_llm_failures_witness :
  let config := AgentManager.mkConfig google "gemini-pro" None in
  let e := WorkflowEngine.new projectFiles in
  let error := mkError "Please set an API key for Google GenerativeAI" in
  let outcome := AgentManager.configure_llm config (projectOpened ∅ []) in
  outcome.1 = Throw error
  ∧ AgentManager.disk outcome.2 = AgentManager.disk (projectOpened ∅ [])
  ∧ AgentManager.workflow (AgentManager.manager outcome.2)
    = Some (set_llm (LLMService.mk (LLMService.model (llm e))
                       (Some (AgentManager.provider config))) e).
Proof.
  apply (configure_llm_failures (AgentManager.mkConfig google "gemini-pro" None) "/project"
           (projectOpened ∅ []) (WorkflowEngine.new projectFiles)
           (ChatGoogleGenerativeAI None "gemini-pro" 1));
    vm_compute; reflexivity.
Defined.

(** X26 on a volume whose settings file cannot be written: the handler
    answers that saving failed, and the engine is configured in memory. *)
Lemma configure_llm_on_a_readonly_volume :
  let readonly := Eval.volume ["/project/.agent_workspace/settings.json"] in
  let s := (AgentManager.initializeProject (Volume0 := readonly) "/project" (started ∅ [])).2 in
  let outcome := AgentManager.configure_llm (Volume0 := readonly) gpt4o s in
  outcome.1
  = Return (AgentManager.mkResult false
              (Some ("Failed to save settings: " +:+
                     "EACCES: permission denied, open '/project/.agent_workspace/settings.json'")))
  ∧ AgentManager.disk outcome.2 = ∅
  ∧ (AgentManager.workflow (AgentManager.manager outcome.2) ≫= fun e => LLMService.model (llm e))
    = Some (ChatOpenAI (Some "sk-test") "gpt-4o").
Proof. vm_compute. repeat split. Qed.

End ManagerRuns.
